(** * BleedingEdge: grouping, update detection, configuration capture and
    update execution (internal/services), and the handlers that call them
    (internal/handlers), verified over a shallow embedding.

    Go strings are byte strings ([string]); Go maps are [gmap]s, a [nil] map
    or slice being [None]; errors are their message.  The runtime behind the
    [docker.DockerClient] interface is a state machine over an abstract state,
    every call returning its result and the next state.  Logging is not
    modelled. *)

From Stdlib Require Import Strings.String Strings.Ascii List Bool Arith Lia.
From stdpp Require Import base option list strings gmap.

Local Open Scope string_scope.
Local Open Scope list_scope.

(** ** Go's [strings] package, the fragment the services use *)

Module strings.

(** [strings.HasPrefix(s, prefix)] *)
Definition HasPrefix (s pre : string) : bool := String.prefix pre s.

(** [strings.Contains(s, substr)]: [substr] starts at some position. *)
Fixpoint Contains (s substr : string) : bool :=
  String.prefix substr s ||
  match s with
  | EmptyString => false
  | String _ s' => Contains s' substr
  end.

(** [strings.TrimPrefix(s, prefix)] *)
Definition TrimPrefix (s pre : string) : string :=
  if String.prefix pre s
  then String.substring (String.length pre) (String.length s - String.length pre) s
  else s.

(** [strings.Cut(s, sep)]: the text before and after the first [sep]. *)
Fixpoint Cut (s sep : string) : option (string * string) :=
  if String.prefix sep s
  then Some (EmptyString,
             String.substring (String.length sep)
                              (String.length s - String.length sep) s)
  else match s with
       | EmptyString => None
       | String c s' =>
           match Cut s' sep with
           | Some (a, b) => Some (String c a, b)
           | None => None
           end
       end.

(** The loop of [genSplit] for a non-empty separator: at most [n] pieces,
    the last one holding the unsplit remainder. *)
Fixpoint genSplit (s sep : string) (n : nat) : list string :=
  match n with
  | 0 => []
  | S n' =>
      match n' with
      | 0 => [s]
      | S _ =>
          match Cut s sep with
          | Some (a, b) => a :: genSplit b sep n'
          | None => [s]
          end
      end
  end.

(** [strings.SplitN(s, sep, n)] for [n > 0] and a non-empty [sep]. *)
Definition SplitN (s sep : string) (n : nat) : list string := genSplit s sep n.

(** [strings.Split(s, sep)] for a non-empty [sep]: there are at most
    [len(s) + 1] pieces, so that bound never cuts the splitting short. *)
Definition Split (s sep : string) : list string :=
  genSplit s sep (S (String.length s)).

End strings.

(** ** internal/services/container.go: isLocalImage *)

(** [parts[0]] of a slice that [Split] and [SplitN] never return empty. *)
Definition first (parts : list string) : string := hd EmptyString parts.

Definition isLocalImage (imageName : string) : bool :=
  if strings.HasPrefix imageName "sha256:" then true
  else if strings.HasPrefix imageName "localhost/"
          || strings.HasPrefix imageName "localhost:" then true
  else
    let parts := strings.SplitN imageName "/" 2 in
    if Nat.ltb 1 (length parts)
       && (strings.Contains (first parts) "." || strings.Contains (first parts) ":")
    then false
    else
      let imageParts := strings.Split imageName ":" in
      let baseName := first imageParts in
      if negb (strings.Contains baseName "/")
         && (strings.Contains baseName "-" || strings.Contains baseName "_")
      then true
      else false.

(** ** Go values *)

(** An [error] is its message; a function returning [(T, error)] returns a
    [result T], one returning [error] alone an [option error] ([None] is
    [nil]). *)
Definition error := string.

Inductive result (A : Type) : Type :=
| Ok (a : A)
| Err (e : error).
Arguments Ok {A} a.
Arguments Err {A} e.

(** A map or slice that may be [nil]. *)
Abbreviation gomap V := (option (gmap string V)).
Abbreviation slice A := (option (list A)).

(** [m[k]] on a [map[string]string]: the zero value when [k] is missing or
    [m] is [nil]. *)
Definition index (m : gomap string) (k : string) : string :=
  default EmptyString (m ≫= lookup k).

(** [for k, v := range m] visits the entries of [m] in an order the language
    leaves open: the order is a parameter of the model. *)
Class GoRange := {
  range_order : ∀ V : Type, gmap string V → list (string * V);
  range_order_perm : ∀ (V : Type) (m : gmap string V), range_order V m ≡ₚ map_to_list m
}.
Arguments range_order {_ _} m.

(** ** The runtime's records (github.com/docker/docker/api/types, .../container,
    github.com/docker/go-connections/nat), with the fields the services read
    or write *)

Module nat_.
Record PortBinding := { HostIP : string; HostPort : string }.
(** [nat.PortMap] is [map[Port][]PortBinding], [nat.PortSet] is
    [map[Port]struct{}]; a [Port] is a string such as [80/tcp]. *)
Abbreviation PortMap := (gomap (list PortBinding)).
Abbreviation PortSet := (gomap unit).
End nat_.

Module container.
Record RestartPolicy := { Name : string; MaximumRetryCount : Z }.
Record Resources := { CPUShares : Z; Memory : Z; NanoCPUs : Z }.

Module Config.
Record t := {
  Image : string;
  Env : slice string;
  Cmd : slice string;
  Entrypoint : slice string;
  Labels : gomap string;
  ExposedPorts : nat_.PortSet
}.
End Config.

Module HostConfig.
Record t := {
  Binds : slice string;
  PortBindings : nat_.PortMap;
  RestartPolicy : RestartPolicy;
  Resources : Resources
}.
End HostConfig.
End container.

Module types.
(** An entry of the container listing. *)
Module Container.
Record t := {
  ID : string;
  Names : list string;
  Image : string;
  State : string;
  Labels : gomap string
}.
End Container.

Record EndpointSettings := { NetworkID : string; IPAddress : string }.

Module NetworkSettings.
Record t := { Networks : gomap EndpointSettings }.
End NetworkSettings.

(** The inspection record.  [Name] and [HostConfig] belong to the record's
    base part, which every inspection reply and every test fixture carries:
    the model is of records whose base part is present. *)
Module ContainerJSON.
Record t := {
  Name : string;
  Config : option container.Config.t;
  HostConfig : option container.HostConfig.t;
  NetworkSettings : option NetworkSettings.t
}.
End ContainerJSON.
End types.

(** ** internal/models/container.go *)

Module models.
Inductive GroupType := GroupTypeCompose | GroupTypeStandalone.

Module ContainerInfo.
Record t := {
  ID : string;
  Name : string;
  Image : string;
  ImageDigest : string;
  LatestDigest : string;
  State : string;
  HasUpdate : bool;
  Labels : gomap string
}.
End ContainerInfo.

Module ContainerGroup.
Record t := {
  ID : string;
  Name : string;
  Type_ : GroupType;
  Containers : list ContainerInfo.t;
  WorkingDir : string;
  HasUpdates : bool;
  AllRunning : bool
}.
End ContainerGroup.

Module ContainerParams.
Record t := {
  Image : string;
  Name : string;
  Env : slice string;
  Cmd : slice string;
  Entrypoint : slice string;
  PortBindings : nat_.PortMap;
  Binds : slice string;
  Networks : slice string;
  RestartPolicy : container.RestartPolicy;
  Labels : gomap string;
  Resources : container.Resources
}.
End ContainerParams.
End models.

Import models.

#[global] Instance GroupType_eq_dec : EqDecision GroupType.
Proof. solve_decision. Defined.

(** ** internal/docker/client.go: the DockerClient interface

    An interface value is the record of its methods; [S] is the state of
    whatever stands behind it (the daemon, or a mock's captured variables),
    and a call may change it. *)

Record DockerClient (S : Type) := {
  ListContainers : S → result (list types.Container.t) * S;
  InspectContainer : string → S → result types.ContainerJSON.t * S;
  PullImage : string → S → option error * S;
  GetImageDigest : string → S → result string * S;
  StartContainer : string → S → option error * S;
  StopContainer : string → S → option error * S;
  RestartContainer : string → S → option error * S;
  RemoveContainer : string → S → option error * S;
  CreateContainer :
    container.Config.t → container.HostConfig.t → string → S → result string * S;
  ExecuteCommand : string → string → list string → S → option error * S
}.
Arguments ListContainers {S} _ _.
Arguments InspectContainer {S} _ _ _.
Arguments PullImage {S} _ _ _.
Arguments GetImageDigest {S} _ _ _.
Arguments StartContainer {S} _ _ _.
Arguments StopContainer {S} _ _ _.
Arguments RestartContainer {S} _ _ _.
Arguments RemoveContainer {S} _ _ _.
Arguments CreateContainer {S} _ _ _ _ _.
Arguments ExecuteCommand {S} _ _ _ _ _.

(** ** internal/services/container.go: grouping *)

Definition getContainerName (names : list string) : string :=
  match names with
  | [] => EmptyString
  | name :: _ => strings.TrimPrefix name "/"
  end.

Definition areAllContainersRunning (containers : list ContainerInfo.t) : bool :=
  match containers with
  | [] => false
  | _ => forallb (λ c, bool_decide (ContainerInfo.State c = "running")) containers
  end.

Definition IsComposeProject (c : types.Container.t) : bool * string :=
  match types.Container.Labels c with
  | None => (false, EmptyString)
  | Some labels =>
      match labels !! "com.docker.compose.project" with
      | Some projectName =>
          if bool_decide (projectName ≠ EmptyString)
          then (true, projectName)
          else (false, EmptyString)
      | None => (false, EmptyString)
      end
  end.

(** The [ContainerInfo] built from a listing entry. *)
Definition containerInfoOf (c : types.Container.t) : ContainerInfo.t :=
  {| ContainerInfo.ID := types.Container.ID c;
     ContainerInfo.Name := getContainerName (types.Container.Names c);
     ContainerInfo.Image := types.Container.Image c;
     ContainerInfo.ImageDigest := EmptyString;
     ContainerInfo.LatestDigest := EmptyString;
     ContainerInfo.State := types.Container.State c;
     ContainerInfo.HasUpdate := false;
     ContainerInfo.Labels := types.Container.Labels c |}.

Definition appendContainer (info : ContainerInfo.t) (g : ContainerGroup.t) : ContainerGroup.t :=
  {| ContainerGroup.ID := ContainerGroup.ID g;
     ContainerGroup.Name := ContainerGroup.Name g;
     ContainerGroup.Type_ := ContainerGroup.Type_ g;
     ContainerGroup.Containers := ContainerGroup.Containers g ++ [info];
     ContainerGroup.WorkingDir := ContainerGroup.WorkingDir g;
     ContainerGroup.HasUpdates := ContainerGroup.HasUpdates g;
     ContainerGroup.AllRunning := ContainerGroup.AllRunning g |}.

Definition setAllRunning (g : ContainerGroup.t) : ContainerGroup.t :=
  {| ContainerGroup.ID := ContainerGroup.ID g;
     ContainerGroup.Name := ContainerGroup.Name g;
     ContainerGroup.Type_ := ContainerGroup.Type_ g;
     ContainerGroup.Containers := ContainerGroup.Containers g;
     ContainerGroup.WorkingDir := ContainerGroup.WorkingDir g;
     ContainerGroup.HasUpdates := ContainerGroup.HasUpdates g;
     ContainerGroup.AllRunning := areAllContainersRunning (ContainerGroup.Containers g) |}.

(** The two accumulators of the loop over the listing: [composeProjects]
    (the map holds pointers, so appending to a group is an [alter]) and
    [standaloneGroups]. *)
Definition groupStep
    (acc : gmap string ContainerGroup.t * list ContainerGroup.t)
    (c : types.Container.t) : gmap string ContainerGroup.t * list ContainerGroup.t :=
  let '(composeProjects, standaloneGroups) := acc in
  let '(isCompose, projectName) := IsComposeProject c in
  let containerInfo := containerInfoOf c in
  if isCompose then
    match composeProjects !! projectName with
    | Some _ => (alter (appendContainer containerInfo) projectName composeProjects,
                 standaloneGroups)
    | None =>
        let workingDir :=
          index (types.Container.Labels c) "com.docker.compose.project.working_dir" in
        (<[projectName :=
             {| ContainerGroup.ID := projectName;
                ContainerGroup.Name := projectName;
                ContainerGroup.Type_ := GroupTypeCompose;
                ContainerGroup.Containers := [containerInfo];
                ContainerGroup.WorkingDir := workingDir;
                ContainerGroup.HasUpdates := false;
                ContainerGroup.AllRunning := false |}]> composeProjects,
         standaloneGroups)
    end
  else
    (composeProjects,
     standaloneGroups ++
       [{| ContainerGroup.ID := types.Container.ID c;
           ContainerGroup.Name := getContainerName (types.Container.Names c);
           ContainerGroup.Type_ := GroupTypeStandalone;
           ContainerGroup.Containers := [containerInfo];
           ContainerGroup.WorkingDir := EmptyString;
           ContainerGroup.HasUpdates := false;
           ContainerGroup.AllRunning := false |}]).

Definition groupContainers (containers : list types.Container.t)
  : gmap string ContainerGroup.t * list ContainerGroup.t :=
  fold_left groupStep containers (∅, []).

Definition GetContainerGroups `{GoRange} {S : Type} (client : DockerClient S) (s : S)
  : result (list ContainerGroup.t) * S :=
  match ListContainers client s with
  | (Err err, s') => (Err ("failed to list containers: " +:+ err), s')
  | (Ok containers, s') =>
      let '(composeProjects, standaloneGroups) := groupContainers containers in
      let groups := (λ kv, setAllRunning kv.2) <$> range_order composeProjects in
      (Ok (groups ++ standaloneGroups), s')
  end.

(** ** The update service: configuration capture *)

(** [for k, v := range src { dst[k] = f(v) }] on an empty [dst]. *)
Definition copyMap `{GoRange} {V W : Type} (f : V → W) (src : gmap string V) : gmap string W :=
  foldl (λ dst kv, <[kv.1 := f kv.2]> dst) ∅ (range_order src).

(** [for k := range m { keys = append(keys, k) }] *)
Definition rangeKeys `{GoRange} {V : Type} (m : gmap string V) : list string :=
  (range_order m).*1.

Definition ExtractContainerParams `{GoRange} (containerJSON : types.ContainerJSON.t)
  : result ContainerParams.t :=
  match types.ContainerJSON.Config containerJSON with
  | None => Err "container config is nil"
  | Some config =>
      match types.ContainerJSON.HostConfig containerJSON with
      | None => Err "container host config is nil"
      | Some hostConfig =>
          let name := strings.TrimPrefix (types.ContainerJSON.Name containerJSON) "/" in
          let portBindings :=
            match container.HostConfig.PortBindings hostConfig with
            | Some bindings => copyMap id bindings
            | None => ∅
            end in
          let binds :=
            match container.HostConfig.Binds hostConfig with
            | Some bs => [] ++ bs
            | None => []
            end in
          let networks :=
            match types.ContainerJSON.NetworkSettings containerJSON with
            | Some settings =>
                match types.NetworkSettings.Networks settings with
                | Some nets => [] ++ rangeKeys nets
                | None => []
                end
            | None => []
            end in
          (* computed by the source, and not used by it *)
          let exposedPorts : gmap string unit :=
            match container.Config.ExposedPorts config with
            | Some ports => copyMap id ports
            | None => ∅
            end in
          Ok {| ContainerParams.Image := container.Config.Image config;
                ContainerParams.Name := name;
                ContainerParams.Env := container.Config.Env config;
                ContainerParams.Cmd := container.Config.Cmd config;
                ContainerParams.Entrypoint := container.Config.Entrypoint config;
                ContainerParams.PortBindings := Some portBindings;
                ContainerParams.Binds := Some binds;
                ContainerParams.Networks := Some networks;
                ContainerParams.RestartPolicy := container.HostConfig.RestartPolicy hostConfig;
                ContainerParams.Labels := container.Config.Labels config;
                ContainerParams.Resources := container.HostConfig.Resources hostConfig |}
      end
  end.

(** ** The two update orchestrators

    Both run against the runtime and, for a compose project, against the
    operating system's process launcher.  The state they thread is the
    runtime's, with the calls made so far. *)

Module exec.
(** [exec.Cmd], as [exec.CommandContext] and the assignment to [Dir] fill it. *)
Record Cmd := { Args : list string; Dir : string }.
End exec.

(** The method [CombinedOutput] of a command: the captured output, and an error when the
    command could not run or left with a non-zero status. *)
Definition Launcher (S : Type) := exec.Cmd → S → (string * option error) * S.

Inductive Event :=
| InspectContainerCall (id : string) (ok : bool)
| PullImageCall (imageName : string) (ok : bool)
| StopContainerCall (id : string) (ok : bool)
| RemoveContainerCall (id : string) (ok : bool)
| CreateContainerCall (config : container.Config.t) (hostConfig : container.HostConfig.t)
                      (name : string) (ok : bool)
| StartContainerCall (id : string) (ok : bool)
| CombinedOutputCall (cmd : exec.Cmd) (ok : bool).

Record World (S : Type) := { runtime : S; trace : list Event }.
Arguments runtime {S} _.
Arguments trace {S} _.

Module Op.
Section Monad.
Context {S : Type}.

(** A computation that may fail: Go's [(T, error)] in a changing world. *)
Definition t (A : Type) : Type := World S → result A * World S.

Definition ret {A} (a : A) : t A := λ w, (Ok a, w).

Definition bind {A B} (m : t A) (k : A → t B) : t B :=
  λ w, match m w with
       | (Ok a, w') => k a w'
       | (Err e, w') => (Err e, w')
       end.

(** [if err != nil { return fmt.Errorf(..., err) }] *)
Definition orReturn {A} (m : t A) (wrap : error → error) : t A :=
  λ w, match m w with
       | (Ok a, w') => (Ok a, w')
       | (Err e, w') => (Err (wrap e), w')
       end.

Definition lift {A} (r : result A) : t A := λ w, (r, w).

(** A call of the runtime, entered in the trace with its outcome. *)
Definition call {A} (f : S → result A * S) (ev : bool → Event) : t A :=
  λ w, let '(r, s') := f (runtime w) in
       let ok := match r with Ok _ => true | Err _ => false end in
       (r, {| runtime := s'; trace := trace w ++ [ev ok] |}).

Definition ofError (r : option error) : result unit :=
  match r with
  | None => Ok tt
  | Some e => Err e
  end.

Definition call_ (f : S → option error * S) (ev : bool → Event) : t unit :=
  call (λ s, let '(r, s') := f s in (ofError r, s')) ev.

(** The [error] a function of result type [error] returns. *)
Definition returned (m : t unit) : World S → option error * World S :=
  λ w, match m w with
       | (Ok _, w') => (None, w')
       | (Err e, w') => (Some e, w')
       end.
End Monad.
Arguments t : clear implicits.
End Op.

Notation "'let!' x ':=' m 'in' k" := (Op.bind m (λ x, k))
  (at level 10, x name, m at level 100, k at level 200, only parsing).
Notation "'try!' m 'in' k" := (Op.bind m (λ _, k))
  (at level 10, m at level 100, k at level 200, only parsing).

Section Orchestrators.
Context `{GoRange} {S : Type} (client : DockerClient S) (CombinedOutput : Launcher S).

(** [for port := range portBindings { exposedPorts[port] = struct{}{} }] *)
Definition exposedPortsOf (portBindings : nat_.PortMap) : gmap string unit :=
  match portBindings with
  | Some bindings => copyMap (λ _, tt) bindings
  | None => ∅
  end.

Definition UpdateStandaloneContainer (containerID : string)
  : World S → option error * World S :=
  Op.returned (
    let! containerJSON :=
      Op.orReturn
        (Op.call (InspectContainer client containerID) (InspectContainerCall containerID))
        (λ err, "failed to inspect container " +:+ containerID +:+ ": " +:+ err) in
    let! params :=
      Op.orReturn
        (Op.lift (ExtractContainerParams containerJSON))
        (λ err, "failed to extract container parameters for " +:+ containerID
                  +:+ ": " +:+ err) in
    let image := ContainerParams.Image params in
    try! Op.orReturn
      (Op.call_ (PullImage client image) (PullImageCall image))
      (λ err, "failed to pull latest image " +:+ image +:+ ": " +:+ err) in
    try! Op.orReturn
      (Op.call_ (StopContainer client containerID) (StopContainerCall containerID))
      (λ err, "failed to stop container " +:+ containerID +:+ ": " +:+ err) in
    try! Op.orReturn
      (Op.call_ (RemoveContainer client containerID) (RemoveContainerCall containerID))
      (λ err, "failed to remove container " +:+ containerID +:+ ": " +:+ err) in
    let exposedPorts := exposedPortsOf (ContainerParams.PortBindings params) in
    let containerConfig :=
      {| container.Config.Image := ContainerParams.Image params;
         container.Config.Env := ContainerParams.Env params;
         container.Config.Cmd := ContainerParams.Cmd params;
         container.Config.Entrypoint := ContainerParams.Entrypoint params;
         container.Config.Labels := ContainerParams.Labels params;
         container.Config.ExposedPorts := Some exposedPorts |} in
    let hostConfig :=
      {| container.HostConfig.PortBindings := ContainerParams.PortBindings params;
         container.HostConfig.Binds := ContainerParams.Binds params;
         container.HostConfig.RestartPolicy := ContainerParams.RestartPolicy params;
         container.HostConfig.Resources := ContainerParams.Resources params |} in
    let name := ContainerParams.Name params in
    let! newContainerID :=
      Op.orReturn
        (Op.call (CreateContainer client containerConfig hostConfig name)
                 (CreateContainerCall containerConfig hostConfig name))
        (λ err, "failed to create new container " +:+ name +:+ ": " +:+ err) in
    Op.orReturn
      (Op.call_ (StartContainer client newContainerID) (StartContainerCall newContainerID))
      (λ err, "failed to start new container " +:+ newContainerID +:+ ": " +:+ err)).

(** [for _, image := range containerImages { if err := client.PullImage(...) ... }] *)
Fixpoint pullImages (projectName : string) (containerImages : list string) : Op.t S unit :=
  match containerImages with
  | [] => Op.ret tt
  | image :: rest =>
      try! Op.orReturn
        (Op.call_ (PullImage client image) (PullImageCall image))
        (λ err, "failed to pull image " +:+ image +:+ " for project " +:+ projectName
                  +:+ ": " +:+ err) in
      pullImages projectName rest
  end.

(** The line feed of the format strings. *)
Definition LF : string := String (ascii_of_nat 10) EmptyString.

(** [cmd.CombinedOutput()] with the error message the source builds from
    the error and the captured output. *)
Definition runCommand (cmd : exec.Cmd) (describe : string) (projectName : string)
  : Op.t S unit :=
  λ w, let '((output, err), s') := CombinedOutput cmd (runtime w) in
       let w' := {| runtime := s';
                    trace := trace w ++ [CombinedOutputCall cmd (bool_decide (err = None))] |} in
       match err with
       | None => (Ok tt, w')
       | Some e =>
           (Err ("failed to execute '" +:+ describe +:+ "' for project " +:+ projectName
                   +:+ ": " +:+ e +:+ LF +:+ "Output: " +:+ output), w')
       end.

Definition UpdateComposeProject (projectName workDir : string)
    (containerImages : list string) : World S → option error * World S :=
  Op.returned (
    if bool_decide (workDir = EmptyString) then
      Op.lift (Err ("working directory is required for compose project " +:+ projectName))
    else
      try! pullImages projectName containerImages in
      let downCmd := {| exec.Args := ["docker"; "compose"; "down"]; exec.Dir := workDir |} in
      try! runCommand downCmd "docker compose down" projectName in
      let upCmd := {| exec.Args := ["docker"; "compose"; "up"; "-d"; "--build"];
                      exec.Dir := workDir |} in
      runCommand upCmd "docker compose up -d --build" projectName).

End Orchestrators.

(** ** internal/services/container.go: update detection

    [CheckUpdates] starts one goroutine per container and waits for all of
    them.  A goroutine is a small state machine: between two of its steps any
    other goroutine may run.  A step is one critical section of the mutex
    [mu] or one call of the runtime, together with the writes to the
    goroutine's own container that follow it.  The order in which the
    scheduler lets the goroutines step is a parameter. *)

Module Check.

(** [(i, j)] stands for the pointer [&groups[i].Containers[j]]. *)
Definition addr : Type := nat * nat.

(** What a goroutine did, as the runtime and the cache saw it. *)
Inductive Ev :=
| CacheMiss (imageName : string)
| CacheHit (imageName latestDigest : string)
| Pulled (imageName : string) (ok : bool)
| LatestDigest (imageName : string) (r : result string)
| CacheStore (imageName digest : string)
| CurrentDigest (imageName : string) (r : result string).

(** Where a goroutine stands, with the local variables that are live there. *)
Inductive PC :=
| Start
| Pull (imageName : string)
| GetLatest (imageName : string)
| Store (imageName digest : string)
| GetCurrent (imageName latestDigest : string)
| Write (imageName currentDigest latestDigest : string)
| Done.

#[global] Instance PC_eq_dec : EqDecision PC.
Proof. solve_decision. Defined.

Record State (S : Type) := {
  daemon : S;
  imageDigests : gmap string string;
  groups : list ContainerGroup.t;
  goroutines : gmap addr PC;
  log : list (addr * Ev)
}.
Arguments daemon {S} _.
Arguments imageDigests {S} _.
Arguments groups {S} _.
Arguments goroutines {S} _.
Arguments log {S} _.

Definition setHasUpdate (b : bool) (c : ContainerInfo.t) : ContainerInfo.t :=
  {| ContainerInfo.ID := ContainerInfo.ID c;
     ContainerInfo.Name := ContainerInfo.Name c;
     ContainerInfo.Image := ContainerInfo.Image c;
     ContainerInfo.ImageDigest := ContainerInfo.ImageDigest c;
     ContainerInfo.LatestDigest := ContainerInfo.LatestDigest c;
     ContainerInfo.State := ContainerInfo.State c;
     ContainerInfo.HasUpdate := b;
     ContainerInfo.Labels := ContainerInfo.Labels c |}.

(** The three assignments of the last critical section. *)
Definition setDigests (currentDigest latestDigest : string) (c : ContainerInfo.t)
  : ContainerInfo.t :=
  {| ContainerInfo.ID := ContainerInfo.ID c;
     ContainerInfo.Name := ContainerInfo.Name c;
     ContainerInfo.Image := ContainerInfo.Image c;
     ContainerInfo.ImageDigest := currentDigest;
     ContainerInfo.LatestDigest := latestDigest;
     ContainerInfo.State := ContainerInfo.State c;
     ContainerInfo.HasUpdate := bool_decide (currentDigest ≠ latestDigest);
     ContainerInfo.Labels := ContainerInfo.Labels c |}.

Definition withContainers (cs : list ContainerInfo.t) (g : ContainerGroup.t)
  : ContainerGroup.t :=
  {| ContainerGroup.ID := ContainerGroup.ID g;
     ContainerGroup.Name := ContainerGroup.Name g;
     ContainerGroup.Type_ := ContainerGroup.Type_ g;
     ContainerGroup.Containers := cs;
     ContainerGroup.WorkingDir := ContainerGroup.WorkingDir g;
     ContainerGroup.HasUpdates := ContainerGroup.HasUpdates g;
     ContainerGroup.AllRunning := ContainerGroup.AllRunning g |}.

(** Reading and writing through the pointer. *)
Definition deref (gs : list ContainerGroup.t) (a : addr) : option ContainerInfo.t :=
  gs !! a.1 ≫= λ g, ContainerGroup.Containers g !! a.2.

Definition assign (f : ContainerInfo.t → ContainerInfo.t) (a : addr)
    (gs : list ContainerGroup.t) : list ContainerGroup.t :=
  alter (λ g, withContainers (alter f a.2 (ContainerGroup.Containers g)) g) a.1 gs.

Section Goroutine.
Context {S : Type} (client : DockerClient S).

(** The goroutine at [a], standing at [pc] with its container [c], steps. *)
Definition stepAt (a : addr) (pc : PC) (c : ContainerInfo.t) (st : State S) : State S :=
  let goto pc' s' cache f evs :=
    {| daemon := s';
       imageDigests := cache;
       groups := assign f a (groups st);
       goroutines := <[a := pc']> (goroutines st);
       log := log st ++ ((λ e, (a, e)) <$> evs) |} in
  let s := daemon st in
  let cache := imageDigests st in
  match pc with
  | Start =>
      let imageName := ContainerInfo.Image c in
      if isLocalImage imageName
      then goto Done s cache (setHasUpdate false) []
      else match cache !! imageName with
           | Some latestDigest =>
               goto (GetCurrent imageName latestDigest) s cache id
                    [CacheHit imageName latestDigest]
           | None => goto (Pull imageName) s cache id [CacheMiss imageName]
           end
  | Pull imageName =>
      match PullImage client imageName s with
      | (Some _, s') => goto Done s' cache (setHasUpdate false) [Pulled imageName false]
      | (None, s') => goto (GetLatest imageName) s' cache id [Pulled imageName true]
      end
  | GetLatest imageName =>
      match GetImageDigest client imageName s with
      | (Err e, s') =>
          goto Done s' cache (setHasUpdate false) [LatestDigest imageName (Err e)]
      | (Ok digest, s') =>
          goto (Store imageName digest) s' cache id [LatestDigest imageName (Ok digest)]
      end
  | Store imageName digest =>
      goto (GetCurrent imageName digest) s (<[imageName := digest]> cache) id
           [CacheStore imageName digest]
  | GetCurrent imageName latestDigest =>
      match GetImageDigest client (ContainerInfo.Image c) s with
      | (Err e, s') =>
          goto Done s' cache (setHasUpdate false)
               [CurrentDigest (ContainerInfo.Image c) (Err e)]
      | (Ok currentDigest, s') =>
          goto (Write imageName currentDigest latestDigest) s' cache id
               [CurrentDigest (ContainerInfo.Image c) (Ok currentDigest)]
      end
  | Write imageName currentDigest latestDigest =>
      goto Done s cache (setDigests currentDigest latestDigest) []
  | Done => st
  end.

(** The scheduler picks [a]: a goroutine that has returned, or an address
    that is none, leaves the state as it is. *)
Definition step (st : State S) (a : addr) : State S :=
  match goroutines st !! a, deref (groups st) a with
  | Some pc, Some c => stepAt a pc c st
  | _, _ => st
  end.

Definition run (schedule : list addr) (st : State S) : State S :=
  foldl step st schedule.
End Goroutine.

(** The addresses of all containers, in the order of the two loops that
    start the goroutines. *)
Definition addresses (gs : list ContainerGroup.t) : list addr :=
  mjoin (imap (λ i g, (λ j, (i, j)) <$> seq 0 (length (ContainerGroup.Containers g))) gs).

Definition init {S : Type} (s : S) (gs : list ContainerGroup.t) : State S :=
  {| daemon := s;
     imageDigests := ∅;
     groups := gs;
     goroutines := list_to_map ((λ a, (a, Start)) <$> addresses gs);
     log := [] |}.

(** [wg.Wait()] returns when every goroutine has. *)
Definition allDone {S : Type} (st : State S) : bool :=
  bool_decide (map_Forall (λ _ pc, pc = Done) (goroutines st)).

(** The loop over a group's containers after the wait. *)
Definition anyUpdate (cs : list ContainerInfo.t) : bool :=
  foldl (λ hasUpdates c, if ContainerInfo.HasUpdate c then true else hasUpdates) false cs.

Definition rollUp (g : ContainerGroup.t) : ContainerGroup.t :=
  {| ContainerGroup.ID := ContainerGroup.ID g;
     ContainerGroup.Name := ContainerGroup.Name g;
     ContainerGroup.Type_ := ContainerGroup.Type_ g;
     ContainerGroup.Containers := ContainerGroup.Containers g;
     ContainerGroup.WorkingDir := ContainerGroup.WorkingDir g;
     ContainerGroup.HasUpdates := anyUpdate (ContainerGroup.Containers g);
     ContainerGroup.AllRunning := areAllContainersRunning (ContainerGroup.Containers g) |}.

(** The events of the goroutine at [a]. *)
Definition own (a : addr) (l : list (addr * Ev)) : list Ev :=
  (filter (λ x, x.1 = a) l).*2.

(** How many pulls, and how many resolutions of the latest digest, a cycle
    made for an image reference. *)
Definition isPull (imageName : string) (e : Ev) : bool :=
  match e with
  | Pulled i _ => bool_decide (i = imageName)
  | _ => false
  end.

Definition isResolution (imageName : string) (e : Ev) : bool :=
  match e with
  | LatestDigest i _ => bool_decide (i = imageName)
  | _ => false
  end.

Definition pulls (imageName : string) (l : list (addr * Ev)) : nat :=
  length (List.filter (λ x, isPull imageName x.2) l).

Definition resolutions (imageName : string) (l : list (addr * Ev)) : nat :=
  length (List.filter (λ x, isResolution imageName x.2) l).

End Check.

(** [CheckUpdates] under a schedule: the error it returns, the groups as it
    leaves them (the slice is updated in place) and the runtime's state.  A
    schedule that stops before every goroutine has returned is no execution
    of the function: [None]. *)
Definition CheckUpdates {S : Type} (schedule : list Check.addr) (client : DockerClient S)
    (s : S) (groups : list ContainerGroup.t)
  : option (option error * list ContainerGroup.t * S) :=
  let st := Check.run client schedule (Check.init s groups) in
  if Check.allDone st
  then Some (None, Check.rollUp <$> Check.groups st, Check.daemon st)
  else None.

(** The schedule that lets each goroutine run to its end before the next
    starts: six steps are the longest path through a goroutine. *)
Definition sequential (groups : list ContainerGroup.t) : list Check.addr :=
  Check.addresses groups ≫= replicate 6.

(** ** internal/docker/mock_client.go

    The mock's function fields, [None] for a field left [nil]; what a
    function captures and changes (a call counter, say) is the state [S]. *)

Module MockClient.
Record t (S : Type) := {
  ListContainersFunc : option (S → result (list types.Container.t) * S);
  InspectContainerFunc : option (string → S → result types.ContainerJSON.t * S);
  PullImageFunc : option (string → S → option error * S);
  GetImageDigestFunc : option (string → S → result string * S);
  StartContainerFunc : option (string → S → option error * S);
  StopContainerFunc : option (string → S → option error * S);
  RestartContainerFunc : option (string → S → option error * S);
  RemoveContainerFunc : option (string → S → option error * S);
  CreateContainerFunc :
    option (container.Config.t → container.HostConfig.t → string → S → result string * S);
  ExecuteCommandFunc : option (string → string → list string → S → option error * S)
}.
Arguments ListContainersFunc {S} _.
Arguments InspectContainerFunc {S} _.
Arguments PullImageFunc {S} _.
Arguments GetImageDigestFunc {S} _.
Arguments StartContainerFunc {S} _.
Arguments StopContainerFunc {S} _.
Arguments RestartContainerFunc {S} _.
Arguments RemoveContainerFunc {S} _.
Arguments CreateContainerFunc {S} _.
Arguments ExecuteCommandFunc {S} _.

(** [&docker.MockClient{}] *)
Definition zero {S : Type} : t S :=
  {| ListContainersFunc := None; InspectContainerFunc := None; PullImageFunc := None;
     GetImageDigestFunc := None; StartContainerFunc := None; StopContainerFunc := None;
     RestartContainerFunc := None; RemoveContainerFunc := None;
     CreateContainerFunc := None; ExecuteCommandFunc := None |}.

(** The methods: the function when it is set, the mock's default otherwise. *)
Definition client {S : Type} (m : t S) : DockerClient S :=
  {| ListContainers := λ s,
       match ListContainersFunc m with Some f => f s | None => (Ok [], s) end;
     InspectContainer := λ id s,
       match InspectContainerFunc m with
       | Some f => f id s
       | None => (Err ("container not found: " +:+ id), s)
       end;
     PullImage := λ imageName s,
       match PullImageFunc m with Some f => f imageName s | None => (None, s) end;
     GetImageDigest := λ imageName s,
       match GetImageDigestFunc m with
       | Some f => f imageName s
       | None => (Ok "sha256:mock-digest", s)
       end;
     StartContainer := λ id s,
       match StartContainerFunc m with Some f => f id s | None => (None, s) end;
     StopContainer := λ id s,
       match StopContainerFunc m with Some f => f id s | None => (None, s) end;
     RestartContainer := λ id s,
       match RestartContainerFunc m with Some f => f id s | None => (None, s) end;
     RemoveContainer := λ id s,
       match RemoveContainerFunc m with Some f => f id s | None => (None, s) end;
     CreateContainer := λ config hostConfig name s,
       match CreateContainerFunc m with
       | Some f => f config hostConfig name s
       | None => (Ok "mock-container-id", s)
       end;
     ExecuteCommand := λ workDir command args s,
       match ExecuteCommandFunc m with
       | Some f => f workDir command args s
       | None => (None, s)
       end |}.
End MockClient.

(** The value of the grouping label, when the instance carries it. *)
Definition composeLabel (c : types.Container.t) : option string :=
  types.Container.Labels c ≫= lookup "com.docker.compose.project".

(** The unit a standalone instance becomes. *)
Definition standaloneGroupOf (c : types.Container.t) : ContainerGroup.t :=
  {| ContainerGroup.ID := types.Container.ID c;
     ContainerGroup.Name := getContainerName (types.Container.Names c);
     ContainerGroup.Type_ := GroupTypeStandalone;
     ContainerGroup.Containers := [containerInfoOf c];
     ContainerGroup.WorkingDir := EmptyString;
     ContainerGroup.HasUpdates := false;
     ContainerGroup.AllRunning := false |}.

(** A member [info] of a group is the listed instance [c]: it has the
    instance's identifier, image reference, state and labels, and for its
    name the first of the instance's names without the leading slash; no
    digest is known of it yet and its update flag is cleared. *)
Definition listedAs (c : types.Container.t) (info : ContainerInfo.t) : Prop :=
  ContainerInfo.ID info = types.Container.ID c
  ∧ ContainerInfo.Name info
    = match types.Container.Names c with
      | [] => EmptyString
      | name :: _ => strings.TrimPrefix name "/"
      end
  ∧ ContainerInfo.Image info = types.Container.Image c
  ∧ ContainerInfo.State info = types.Container.State c
  ∧ ContainerInfo.Labels info = types.Container.Labels c
  ∧ ContainerInfo.ImageDigest info = EmptyString
  ∧ ContainerInfo.LatestDigest info = EmptyString
  ∧ ContainerInfo.HasUpdate info = false.

(** A group [g] is the standalone unit of the listed instance [c]: it goes
    by the instance's identifier and by its single member's name, has no
    working directory, and its flags are cleared. *)
Definition listedAlone (c : types.Container.t) (g : ContainerGroup.t) : Prop :=
  ContainerGroup.ID g = types.Container.ID c
  ∧ ContainerGroup.Type_ g = GroupTypeStandalone
  ∧ (∃ info, ContainerGroup.Containers g = [info]
             ∧ listedAs c info
             ∧ ContainerGroup.Name g = ContainerInfo.Name info)
  ∧ ContainerGroup.WorkingDir g = EmptyString
  ∧ ContainerGroup.HasUpdates g = false
  ∧ ContainerGroup.AllRunning g = false.

(** ** Reading a trace *)

Inductive Step := Inspect | PullLatest | Stop | Remove | Create | Start | Command.

#[global] Instance Step_eq_dec : EqDecision Step.
Proof. solve_decision. Defined.

Definition stepOf (e : Event) : Step :=
  match e with
  | InspectContainerCall _ _ => Inspect
  | PullImageCall _ _ => PullLatest
  | StopContainerCall _ _ => Stop
  | RemoveContainerCall _ _ => Remove
  | CreateContainerCall _ _ _ _ => Create
  | StartContainerCall _ _ => Start
  | CombinedOutputCall _ _ => Command
  end.

Definition succeeded (e : Event) : bool :=
  match e with
  | InspectContainerCall _ ok | PullImageCall _ ok | StopContainerCall _ ok
  | RemoveContainerCall _ ok | CreateContainerCall _ _ _ ok | StartContainerCall _ ok
  | CombinedOutputCall _ ok => ok
  end.

(** The calls of a complete standalone update, in their order. *)
Definition updateSteps : list Step := [Inspect; PullLatest; Stop; Remove; Create; Start].

(** The error of a standalone update whose call [e] failed with [cause]: the
    step, the target, the cause. *)
Definition standaloneFailure (e : Event) (cause : error) : error :=
  match e with
  | InspectContainerCall id _ => "failed to inspect container " +:+ id +:+ ": " +:+ cause
  | PullImageCall image _ => "failed to pull latest image " +:+ image +:+ ": " +:+ cause
  | StopContainerCall id _ => "failed to stop container " +:+ id +:+ ": " +:+ cause
  | RemoveContainerCall id _ => "failed to remove container " +:+ id +:+ ": " +:+ cause
  | CreateContainerCall _ _ name _ =>
      "failed to create new container " +:+ name +:+ ": " +:+ cause
  | StartContainerCall id _ => "failed to start new container " +:+ id +:+ ": " +:+ cause
  | CombinedOutputCall _ _ => cause
  end.

(** A snapshot with other network names. *)
Definition withNetworks (networks : slice string) (p : ContainerParams.t) : ContainerParams.t :=
  {| ContainerParams.Image := ContainerParams.Image p;
     ContainerParams.Name := ContainerParams.Name p;
     ContainerParams.Env := ContainerParams.Env p;
     ContainerParams.Cmd := ContainerParams.Cmd p;
     ContainerParams.Entrypoint := ContainerParams.Entrypoint p;
     ContainerParams.PortBindings := ContainerParams.PortBindings p;
     ContainerParams.Binds := ContainerParams.Binds p;
     ContainerParams.Networks := networks;
     ContainerParams.RestartPolicy := ContainerParams.RestartPolicy p;
     ContainerParams.Labels := ContainerParams.Labels p;
     ContainerParams.Resources := ContainerParams.Resources p |}.

(** The two records handed to [CreateContainer], field by field. *)
Inductive recreates `{GoRange} (params : ContainerParams.t)
  : container.Config.t → container.HostConfig.t → Prop :=
| recreates_intro :
    recreates params
      {| container.Config.Image := ContainerParams.Image params;
         container.Config.Env := ContainerParams.Env params;
         container.Config.Cmd := ContainerParams.Cmd params;
         container.Config.Entrypoint := ContainerParams.Entrypoint params;
         container.Config.Labels := ContainerParams.Labels params;
         container.Config.ExposedPorts :=
           Some (exposedPortsOf (ContainerParams.PortBindings params)) |}
      {| container.HostConfig.PortBindings := ContainerParams.PortBindings params;
         container.HostConfig.Binds := ContainerParams.Binds params;
         container.HostConfig.RestartPolicy := ContainerParams.RestartPolicy params;
         container.HostConfig.Resources := ContainerParams.Resources params |}.

(** The runs of a standalone update from the pull on, given the snapshot:
    the error returned and the calls made, for each place where the update
    can stop. *)
Inductive RecreateRun `{GoRange} (containerID : string) (params : ContainerParams.t)
  : option error → list Event → Prop :=
| run_pull cause :
    let e := PullImageCall (ContainerParams.Image params) false in
    RecreateRun containerID params (Some (standaloneFailure e cause)) [e]
| run_stop cause :
    let e := StopContainerCall containerID false in
    RecreateRun containerID params (Some (standaloneFailure e cause))
      [PullImageCall (ContainerParams.Image params) true; e]
| run_remove cause :
    let e := RemoveContainerCall containerID false in
    RecreateRun containerID params (Some (standaloneFailure e cause))
      [PullImageCall (ContainerParams.Image params) true;
       StopContainerCall containerID true; e]
| run_create config hostConfig cause :
    let e := CreateContainerCall config hostConfig (ContainerParams.Name params) false in
    recreates params config hostConfig →
    RecreateRun containerID params (Some (standaloneFailure e cause))
      [PullImageCall (ContainerParams.Image params) true;
       StopContainerCall containerID true;
       RemoveContainerCall containerID true; e]
| run_start config hostConfig newContainerID cause :
    let e := StartContainerCall newContainerID false in
    recreates params config hostConfig →
    RecreateRun containerID params (Some (standaloneFailure e cause))
      [PullImageCall (ContainerParams.Image params) true;
       StopContainerCall containerID true;
       RemoveContainerCall containerID true;
       CreateContainerCall config hostConfig (ContainerParams.Name params) true; e]
| run_done config hostConfig newContainerID :
    recreates params config hostConfig →
    RecreateRun containerID params None
      [PullImageCall (ContainerParams.Image params) true;
       StopContainerCall containerID true;
       RemoveContainerCall containerID true;
       CreateContainerCall config hostConfig (ContainerParams.Name params) true;
       StartContainerCall newContainerID true].

(** The runs of a standalone update.  [inspection] is the runtime's answer
    to the inspection. *)
Inductive StandaloneRun `{GoRange} (containerID : string)
    (inspection : result types.ContainerJSON.t) : option error → list Event → Prop :=
| run_inspect cause :
    inspection = Err cause →
    StandaloneRun containerID inspection
      (Some (standaloneFailure (InspectContainerCall containerID false) cause))
      [InspectContainerCall containerID false]
| run_extract containerJSON cause :
    inspection = Ok containerJSON →
    ExtractContainerParams containerJSON = Err cause →
    StandaloneRun containerID inspection
      (Some ("failed to extract container parameters for " +:+ containerID +:+ ": " +:+ cause))
      [InspectContainerCall containerID true]
| run_rest containerJSON params r events :
    inspection = Ok containerJSON →
    ExtractContainerParams containerJSON = Ok params →
    RecreateRun containerID params r events →
    StandaloneRun containerID inspection r (InspectContainerCall containerID true :: events).

(** The two commands of a compose update, and the errors of its steps. *)
Definition composeDown (workDir : string) : exec.Cmd :=
  {| exec.Args := ["docker"; "compose"; "down"]; exec.Dir := workDir |}.


Definition composePullFailure (projectName image : string) (cause : error) : error :=
  "failed to pull image " +:+ image +:+ " for project " +:+ projectName +:+ ": " +:+ cause.


(** The pull of an image, as the trace has it. *)
Definition pullCall (pulled : string * bool) : Event := PullImageCall pulled.1 pulled.2.

(** ** Reading the log of a detection cycle *)

(** The events by which a goroutine came to know [latestDigest]: it found
    the digest in the cache, or it missed, pulled, resolved and stored it. *)
Definition resolvedLatest (imageName latestDigest : string) (h : list Check.Ev) : Prop :=
  h = [Check.CacheHit imageName latestDigest]
  ∨ h = [Check.CacheMiss imageName; Check.Pulled imageName true;
         Check.LatestDigest imageName (Ok latestDigest);
         Check.CacheStore imageName latestDigest].

(** [Progress c0 pc c h]: a goroutine whose container was [c0] when the cycle
    began stands at [pc], its container now being [c] and its events so far
    [h]. *)
Inductive Progress (c0 : ContainerInfo.t) : Check.PC → ContainerInfo.t → list Check.Ev → Prop :=
| at_Start : Progress c0 Check.Start c0 []
| at_Pull :
    Progress c0 (Check.Pull (ContainerInfo.Image c0)) c0
      [Check.CacheMiss (ContainerInfo.Image c0)]
| at_GetLatest :
    Progress c0 (Check.GetLatest (ContainerInfo.Image c0)) c0
      [Check.CacheMiss (ContainerInfo.Image c0); Check.Pulled (ContainerInfo.Image c0) true]
| at_Store digest :
    Progress c0 (Check.Store (ContainerInfo.Image c0) digest) c0
      [Check.CacheMiss (ContainerInfo.Image c0); Check.Pulled (ContainerInfo.Image c0) true;
       Check.LatestDigest (ContainerInfo.Image c0) (Ok digest)]
| at_GetCurrent latestDigest h :
    resolvedLatest (ContainerInfo.Image c0) latestDigest h →
    Progress c0 (Check.GetCurrent (ContainerInfo.Image c0) latestDigest) c0 h
| at_Write currentDigest latestDigest h :
    resolvedLatest (ContainerInfo.Image c0) latestDigest h →
    Progress c0 (Check.Write (ContainerInfo.Image c0) currentDigest latestDigest) c0
      (h ++ [Check.CurrentDigest (ContainerInfo.Image c0) (Ok currentDigest)])
| done_local :
    isLocalImage (ContainerInfo.Image c0) = true →
    Progress c0 Check.Done (Check.setHasUpdate false c0) []
| done_pull_failed :
    Progress c0 Check.Done (Check.setHasUpdate false c0)
      [Check.CacheMiss (ContainerInfo.Image c0); Check.Pulled (ContainerInfo.Image c0) false]
| done_latest_failed err :
    Progress c0 Check.Done (Check.setHasUpdate false c0)
      [Check.CacheMiss (ContainerInfo.Image c0); Check.Pulled (ContainerInfo.Image c0) true;
       Check.LatestDigest (ContainerInfo.Image c0) (Err err)]
| done_current_failed latestDigest h err :
    resolvedLatest (ContainerInfo.Image c0) latestDigest h →
    Progress c0 Check.Done (Check.setHasUpdate false c0)
      (h ++ [Check.CurrentDigest (ContainerInfo.Image c0) (Err err)])
| done_compared currentDigest latestDigest h :
    resolvedLatest (ContainerInfo.Image c0) latestDigest h →
    Progress c0 Check.Done (Check.setDigests currentDigest latestDigest c0)
      (h ++ [Check.CurrentDigest (ContainerInfo.Image c0) (Ok currentDigest)]).

(** A pull or a digest resolution of the goroutine failed. *)
Definition failedCheck (imageName : string) (h : list Check.Ev) : Prop :=
  Check.Pulled imageName false ∈ h
  ∨ (∃ err, Check.LatestDigest imageName (Err err) ∈ h)
  ∨ (∃ err, Check.CurrentDigest imageName (Err err) ∈ h).

(** What holds of every state of a cycle over the groups [gs0]: the
    goroutines are those of the containers of [gs0], and each is where its own
    events say. *)
Definition Consistent {S : Type} (gs0 : list ContainerGroup.t) (st : Check.State S) : Prop :=
  ∀ a,
    match Check.goroutines st !! a with
    | Some pc =>
        ∃ c0 c, Check.deref gs0 a = Some c0
                ∧ Check.deref (Check.groups st) a = Some c
                ∧ Progress c0 pc c (Check.own a (Check.log st))
    | None => Check.deref gs0 a = None
    end.

(** The steps a goroutine has left, at most. *)
Definition remaining (pc : Check.PC) : nat :=
  match pc with
  | Check.Start => 6
  | Check.Pull _ => 5
  | Check.GetLatest _ => 4
  | Check.Store _ _ => 3
  | Check.GetCurrent _ _ => 2
  | Check.Write _ _ _ => 1
  | Check.Done => 0
  end.

(** ** Reading the grouping loop *)

(** All members held by the two accumulators of the grouping loop. *)
Definition membersOf (acc : gmap string ContainerGroup.t * list ContainerGroup.t)
  : list ContainerInfo.t :=
  ((map_to_list acc.1).*2 ≫= ContainerGroup.Containers)
    ++ (acc.2 ≫= ContainerGroup.Containers).

(** What the grouping loop keeps true of its accumulators, the instances
    [cs] having been visited. *)
Record grouped (cs : list types.Container.t)
    (acc : gmap string ContainerGroup.t * list ContainerGroup.t) : Prop := {
  grouped_members : membersOf acc ≡ₚ containerInfoOf <$> cs;
  grouped_key : ∀ p g, acc.1 !! p = Some g →
    ContainerGroup.ID g = p ∧ ContainerGroup.Type_ g = GroupTypeCompose;
  grouped_compose : ∀ c p, c ∈ cs → composeLabel c = Some p → p ≠ EmptyString →
    ∃ g, acc.1 !! p = Some g ∧ containerInfoOf c ∈ ContainerGroup.Containers g;
  grouped_alone : ∀ c, c ∈ cs →
    composeLabel c = None ∨ composeLabel c = Some EmptyString →
    standaloneGroupOf c ∈ acc.2;
  grouped_alone_type : ∀ g, g ∈ acc.2 → ContainerGroup.Type_ g = GroupTypeStandalone
}.

(** ** Fixtures of the tests of the two services *)

(** One iteration order: the map's own listing. *)
Definition listingOrder : GoRange :=
  {| range_order := λ V m, map_to_list m;
     range_order_perm := λ V m, reflexivity (map_to_list m) |}.

Module Fixture.
(** "mixed compose and standalone" *)
Definition web : types.Container.t :=
  {| types.Container.ID := "container1";
     types.Container.Names := ["/app-web-1"];
     types.Container.Image := "nginx:latest";
     types.Container.State := "running";
     types.Container.Labels :=
       Some (<["com.docker.compose.project" := "app"]>
             (<["com.docker.compose.project.working_dir" := "/home/user/app"]> ∅)) |}.

Definition standalone : types.Container.t :=
  {| types.Container.ID := "container2";
     types.Container.Names := ["/standalone"];
     types.Container.Image := "redis:latest";
     types.Container.State := "running";
     types.Container.Labels := Some ∅ |}.

Definition listing : MockClient.t unit :=
  {| MockClient.ListContainersFunc := Some (λ s, (Ok [web; standalone], s));
     MockClient.InspectContainerFunc := None; MockClient.PullImageFunc := None;
     MockClient.GetImageDigestFunc := None; MockClient.StartContainerFunc := None;
     MockClient.StopContainerFunc := None; MockClient.RestartContainerFunc := None;
     MockClient.RemoveContainerFunc := None; MockClient.CreateContainerFunc := None;
     MockClient.ExecuteCommandFunc := None |}.

(** "successful update" (TestUpdateStandaloneContainer): the inspection
    record, and a mock whose calls all succeed. *)
Definition testContainer : types.ContainerJSON.t :=
  {| types.ContainerJSON.Name := "/test-container";
     types.ContainerJSON.Config :=
       Some {| container.Config.Image := "nginx:latest";
               container.Config.Env := Some ["TEST=value"];
               container.Config.Cmd := None;
               container.Config.Entrypoint := None;
               container.Config.Labels := None;
               container.Config.ExposedPorts := None |};
     types.ContainerJSON.HostConfig :=
       Some {| container.HostConfig.Binds := Some [];
               container.HostConfig.PortBindings := None;
               container.HostConfig.RestartPolicy :=
                 {| container.Name := EmptyString; container.MaximumRetryCount := 0 |};
               container.HostConfig.Resources :=
                 {| container.CPUShares := 0; container.Memory := 0;
                    container.NanoCPUs := 0 |} |};
     types.ContainerJSON.NetworkSettings := None |}.

Definition updating (pull : option error) : MockClient.t unit :=
  {| MockClient.ListContainersFunc := None;
     MockClient.InspectContainerFunc := Some (λ id s, (Ok testContainer, s));
     MockClient.PullImageFunc := Some (λ imageName s, (pull, s));
     MockClient.GetImageDigestFunc := None;
     MockClient.StartContainerFunc := Some (λ id s, (None, s));
     MockClient.StopContainerFunc := Some (λ id s, (None, s));
     MockClient.RestartContainerFunc := None;
     MockClient.RemoveContainerFunc := Some (λ id s, (None, s));
     MockClient.CreateContainerFunc :=
       Some (λ config hostConfig name s, (Ok "new-container-id", s));
     MockClient.ExecuteCommandFunc := None |}.

(** The two records the successful update hands to [CreateContainer]. *)
Definition recreatedConfig : container.Config.t :=
  {| container.Config.Image := "nginx:latest";
     container.Config.Env := Some ["TEST=value"];
     container.Config.Cmd := None;
     container.Config.Entrypoint := None;
     container.Config.Labels := None;
     container.Config.ExposedPorts := Some ∅ |}.

Definition recreatedHostConfig : container.HostConfig.t :=
  {| container.HostConfig.Binds := Some [];
     container.HostConfig.PortBindings := Some ∅;
     container.HostConfig.RestartPolicy :=
       {| container.Name := EmptyString; container.MaximumRetryCount := 0 |};
     container.HostConfig.Resources :=
       {| container.CPUShares := 0; container.Memory := 0; container.NanoCPUs := 0 |} |}.

(** A launcher whose tear-down leaves with status 1. *)
Definition downFails : Launcher unit :=
  λ cmd s,
    if bool_decide (exec.Args cmd = ["docker"; "compose"; "down"])
    then (("no configuration file provided", Some "exit status 1"), s)
    else ((EmptyString, None), s).

(** No call yet. *)
Definition fresh : World unit := {| runtime := tt; trace := [] |}.

(** "container with update available" (TestCheckUpdates): the mock counts
    the digest requests per image; the first one is answered with the old
    digest, the later ones with the new. *)
Definition nginx : ContainerInfo.t :=
  {| ContainerInfo.ID := "container1";
     ContainerInfo.Name := "nginx";
     ContainerInfo.Image := "nginx:latest";
     ContainerInfo.ImageDigest := EmptyString;
     ContainerInfo.LatestDigest := EmptyString;
     ContainerInfo.State := "running";
     ContainerInfo.HasUpdate := false;
     ContainerInfo.Labels := None |}.

Definition nginxGroup (id : string) (containers : list ContainerInfo.t) : ContainerGroup.t :=
  {| ContainerGroup.ID := id;
     ContainerGroup.Name := "nginx";
     ContainerGroup.Type_ := GroupTypeStandalone;
     ContainerGroup.Containers := containers;
     ContainerGroup.WorkingDir := EmptyString;
     ContainerGroup.HasUpdates := false;
     ContainerGroup.AllRunning := false |}.

Definition counting : MockClient.t (gmap string nat) :=
  {| MockClient.ListContainersFunc := None;
     MockClient.InspectContainerFunc := None;
     MockClient.PullImageFunc := Some (λ imageName callCount, (None, callCount));
     MockClient.GetImageDigestFunc :=
       Some (λ imageName callCount,
               let n := default 0 (callCount !! imageName) + 1 in
               (Ok (if bool_decide (n = 1) then "sha256:old-digest"
                    else "sha256:new-digest"),
                <[imageName := n]> callCount));
     MockClient.StartContainerFunc := None; MockClient.StopContainerFunc := None;
     MockClient.RestartContainerFunc := None; MockClient.RemoveContainerFunc := None;
     MockClient.CreateContainerFunc := None; MockClient.ExecuteCommandFunc := None |}.

(** TestCheckUpdatesError: every pull fails. *)
Definition failing : MockClient.t unit :=
  {| MockClient.ListContainersFunc := None;
     MockClient.InspectContainerFunc := None;
     MockClient.PullImageFunc := Some (λ imageName s, (Some "failed to pull image", s));
     MockClient.GetImageDigestFunc := None;
     MockClient.StartContainerFunc := None; MockClient.StopContainerFunc := None;
     MockClient.RestartContainerFunc := None; MockClient.RemoveContainerFunc := None;
     MockClient.CreateContainerFunc := None; MockClient.ExecuteCommandFunc := None |}.

Definition oneNginx : list ContainerGroup.t := [nginxGroup "container1" [nginx]].

(** The same, beside a unit without members. *)
Definition withEmpty : list ContainerGroup.t :=
  [nginxGroup "container1" [nginx]; nginxGroup "empty" []].

(** A runtime that keeps images by reference, as the daemon does: a pull
    makes the reference name the registry's image, and the digest of a
    reference is that of the image it names at that moment. *)
Definition registry : gmap string string := {["nginx:latest" := "sha256:bbb"]}.

Definition imageStore : MockClient.t (gmap string string) :=
  {| MockClient.ListContainersFunc := None;
     MockClient.InspectContainerFunc := None;
     MockClient.PullImageFunc :=
       Some (λ imageName images,
               match registry !! imageName with
               | Some digest => (None, <[imageName := digest]> images)
               | None => (Some "manifest unknown", images)
               end);
     MockClient.GetImageDigestFunc :=
       Some (λ imageName images,
               match images !! imageName with
               | Some digest => (Ok digest, images)
               | None => (Err "No such image", images)
               end);
     MockClient.StartContainerFunc := None; MockClient.StopContainerFunc := None;
     MockClient.RestartContainerFunc := None; MockClient.RemoveContainerFunc := None;
     MockClient.CreateContainerFunc := None; MockClient.ExecuteCommandFunc := None |}.

(** The image the instance runs was pulled when the reference named
    [sha256:aaa]. *)
Definition pulledBefore : gmap string string := {["nginx:latest" := "sha256:aaa"]}.

(** A registry that does not serve [redis:latest]. *)
Definition redis : ContainerInfo.t :=
  {| ContainerInfo.ID := "container2";
     ContainerInfo.Name := "redis";
     ContainerInfo.Image := "redis:latest";
     ContainerInfo.ImageDigest := EmptyString;
     ContainerInfo.LatestDigest := EmptyString;
     ContainerInfo.State := "running";
     ContainerInfo.HasUpdate := true;
     ContainerInfo.Labels := None |}.

Definition withoutRedis : MockClient.t (gmap string nat) :=
  {| MockClient.ListContainersFunc := None;
     MockClient.InspectContainerFunc := None;
     MockClient.PullImageFunc :=
       Some (λ imageName callCount,
               (if bool_decide (imageName = "redis:latest")
                then Some "manifest unknown" else None, callCount));
     MockClient.GetImageDigestFunc := MockClient.GetImageDigestFunc counting;
     MockClient.StartContainerFunc := None; MockClient.StopContainerFunc := None;
     MockClient.RestartContainerFunc := None; MockClient.RemoveContainerFunc := None;
     MockClient.CreateContainerFunc := None; MockClient.ExecuteCommandFunc := None |}.

Definition redisAndNginx : list ContainerGroup.t :=
  [nginxGroup "app" [redis; nginx]].

(** Two standalone instances of the same image. *)
Definition twoNginx : list ContainerGroup.t :=
  [nginxGroup "container1" [nginx]; nginxGroup "container2" [nginx]].

(** The goroutines take turns, a step each. *)
Definition alternating : list Check.addr :=
  mjoin (replicate 6 [(0, 0); (1, 0)]).
End Fixture.

(** The networks an inspection record names. *)
Definition networksOf (containerJSON : types.ContainerJSON.t) : gmap string types.EndpointSettings :=
  default ∅ (types.ContainerJSON.NetworkSettings containerJSON ≫= types.NetworkSettings.Networks).

(** ** The local-image heuristic in the specification's words

    An image reference is local "if it is referenced by raw content digest
    rather than a tag, if it is hosted under a localhost registry name, or if,
    when it has no explicit registry host segment (no dot or colon in the
    first path component), its base name contains a hyphen or underscore".
    The first path component is the text before the first slash, and a
    reference without a slash has no host segment (the specification's own
    example [myproject-web:latest] is one); the base name is the reference
    without its tag. *)

Definition hasRegistryHost (imageName : string) : bool :=
  match strings.Cut imageName "/" with
  | Some (host, _) => strings.Contains host "." || strings.Contains host ":"
  | None => false
  end.

Definition baseNameOf (imageName : string) : string :=
  first (strings.Split imageName ":").

Definition isLocalImage_spec (imageName : string) : bool :=
  strings.HasPrefix imageName "sha256:"
  || strings.HasPrefix imageName "localhost/"
  || strings.HasPrefix imageName "localhost:"
  || negb (hasRegistryHost imageName)
     && (strings.Contains (baseNameOf imageName) "-"
         || strings.Contains (baseNameOf imageName) "_").

(** ** internal/models: OperationResult and ErrorResponse

    [time.Time] is an instant as the clock gives it.  The fields of
    [ErrorResponse] are those that [createErrorResponse] sets and
    [sendErrorResponseWithDetails] reads, as the design notes
    (.kiro/specs/bleeding-edge/design.md) declare them. *)

Definition Time : Type := Z.

Module OperationResult.
Record t := {
  Success : bool;
  Message : string;
  Error : string;
  Timestamp : Time
}.
End OperationResult.

Module ErrorResponse.
Record t := {
  Operation : string;
  Container : string;
  Message : string;
  Details : string;
  Timestamp : Time
}.
End ErrorResponse.

(** ** internal/handlers: the operations handler

    A handler is given what it reads from the request and returns what it
    writes to the [http.ResponseWriter].  The deadlines that the handlers put
    on their contexts are not modelled: a call that a deadline cuts short is a
    call that fails. *)

Module http.
Definition StatusOK : nat := 200.
Definition StatusBadRequest : nat := 400.
Definition StatusNotFound : nat := 404.
Definition StatusInternalServerError : nat := 500.
End http.

(** What a handler of operations has written to its [http.ResponseWriter]:
    the status, the headers it set (each [Set] leaves one value under the
    key) and the value it encoded as the body. *)
Record Response := {
  StatusCode : nat;
  Header : gmap string string;
  Body : OperationResult.t
}.

Definition formatErrorMessage (err : error) : string :=
  let errMsg := err in
  if strings.Contains errMsg "No such container" then
    "Container not found. It may have been removed."
  else if strings.Contains errMsg "already in progress" then
    "Operation already in progress. Please wait."
  else if strings.Contains errMsg "is not running" then
    "Container is not running."
  else if strings.Contains errMsg "is already stopped" then
    "Container is already stopped."
  else if strings.Contains errMsg "failed to pull"
          || strings.Contains errMsg "pull access denied" then
    "Failed to pull image. Check your internet connection and image name."
  else if strings.Contains errMsg "permission denied"
          || strings.Contains errMsg "access denied" then
    "Permission denied. Check Docker socket permissions."
  else if strings.Contains errMsg "timeout"
          || strings.Contains errMsg "context deadline exceeded" then
    "Operation timed out. The container may be unresponsive."
  else if strings.Contains errMsg "network" && strings.Contains errMsg "not found" then
    "Network not found. The container's network may have been removed."
  else if strings.Contains errMsg "port is already allocated" then
    "Port is already in use. Another container may be using the same port."
  else if strings.Contains errMsg "no such image" then
    "Image not found. The image may not exist or has been removed."
  else if strings.Contains errMsg "Conflict" then
    "Container name conflict. A container with this name already exists."
  else if strings.Contains errMsg "working directory" then
    "Working directory not found. The compose project directory may have been moved or deleted."
  else if strings.Contains errMsg "docker compose" then
    "Docker Compose command failed. Check the compose file and project configuration."
  else errMsg.

(** The messages that [formatErrorMessage] holds ready, in the order of its
    tests; the first five are those it can give for an error that tells of a
    failed pull. *)
Definition pullMessages : list string :=
  ["Container not found. It may have been removed.";
   "Operation already in progress. Please wait.";
   "Container is not running.";
   "Container is already stopped.";
   "Failed to pull image. Check your internet connection and image name."].

Definition userMessages : list string :=
  pullMessages ++
  ["Permission denied. Check Docker socket permissions.";
   "Operation timed out. The container may be unresponsive.";
   "Network not found. The container's network may have been removed.";
   "Port is already in use. Another container may be using the same port.";
   "Image not found. The image may not exist or has been removed.";
   "Container name conflict. A container with this name already exists.";
   "Working directory not found. The compose project directory may have been moved or deleted.";
   "Docker Compose command failed. Check the compose file and project configuration."].

(** [for i := range groups { if groups[i].ID == id { group = &groups[i]; break } }],
    the loop of the update and the detail handlers. *)
Fixpoint findGroup (id : string) (groups : list ContainerGroup.t) : option ContainerGroup.t :=
  match groups with
  | [] => None
  | group :: rest =>
      if bool_decide (ContainerGroup.ID group = id) then Some group else findGroup id rest
  end.

Section Operations.
(** [now] is the reading of the clock when the response is built. *)
Context `{GoRange} {S : Type} (client : DockerClient S) (CombinedOutput : Launcher S)
        (now : Time).

Definition createErrorResponse (operation containerName : string) (err : error)
  : ErrorResponse.t :=
  let userMessage := formatErrorMessage err in
  {| ErrorResponse.Operation := operation;
     ErrorResponse.Container := containerName;
     ErrorResponse.Message := userMessage;
     ErrorResponse.Details := err;
     ErrorResponse.Timestamp := now |}.

Definition sendSuccessResponse (operation containerName message : string) : Response :=
  let result :=
    {| OperationResult.Success := true;
       OperationResult.Message := message;
       OperationResult.Error := EmptyString;
       OperationResult.Timestamp := now |} in
  {| StatusCode := http.StatusOK;
     Header := <["Content-Type" := "application/json"]> ∅;
     Body := result |}.

Definition sendErrorResponse (operation containerName errorMsg : string) (statusCode : nat)
  : Response :=
  let result :=
    {| OperationResult.Success := false;
       OperationResult.Error := errorMsg;
       OperationResult.Message := "Failed to " +:+ operation +:+ " " +:+ containerName;
       OperationResult.Timestamp := now |} in
  {| StatusCode := statusCode;
     Header := <["Cache-Control" := "no-cache, no-store, must-revalidate"]>
                 (<["Content-Type" := "application/json"]> ∅);
     Body := result |}.

Definition sendErrorResponseWithDetails (errResp : ErrorResponse.t) (statusCode : nat)
  : Response :=
  let result :=
    {| OperationResult.Success := false;
       OperationResult.Error := ErrorResponse.Message errResp;
       OperationResult.Message :=
         "Failed to " +:+ ErrorResponse.Operation errResp +:+ " "
           +:+ ErrorResponse.Container errResp;
       OperationResult.Timestamp := ErrorResponse.Timestamp errResp |} in
  {| StatusCode := statusCode;
     Header := <["Cache-Control" := "no-cache, no-store, must-revalidate"]>
                 (<["Content-Type" := "application/json"]> ∅);
     Body := result |}.

(** [id] is [mux.Vars(r)["id"]].  The listing is a call of the runtime that
    the trace does not enter. *)
Definition HandleUpdate (id : string) (w : World S) : Response * World S :=
  if bool_decide (id = EmptyString) then
    (sendErrorResponse "update" EmptyString "Container ID required" http.StatusBadRequest, w)
  else
    match GetContainerGroups client (runtime w) with
    | (Err _, s1) =>
        (sendErrorResponse "update" id "Failed to load container information"
           http.StatusInternalServerError,
         {| runtime := s1; trace := trace w |})
    | (Ok groups, s1) =>
        let w1 := {| runtime := s1; trace := trace w |} in
        match findGroup id groups with
        | None =>
            (sendErrorResponse "update" id "Container not found" http.StatusNotFound, w1)
        | Some group =>
            let '(updateErr, w2) :=
              if bool_decide (ContainerGroup.Type_ group = GroupTypeCompose) then
                let images := ContainerInfo.Image <$> ContainerGroup.Containers group in
                UpdateComposeProject client CombinedOutput (ContainerGroup.Name group)
                  (ContainerGroup.WorkingDir group) images w1
              else
                UpdateStandaloneContainer client (ContainerGroup.ID group) w1 in
            match updateErr with
            | Some err =>
                let errResp := createErrorResponse "update" (ContainerGroup.Name group) err in
                (sendErrorResponseWithDetails errResp http.StatusInternalServerError, w2)
            | None =>
                (sendSuccessResponse "update" (ContainerGroup.Name group)
                   (ContainerGroup.Name group +:+ " updated successfully"), w2)
            end
        end
    end.

Definition handleLifecycleOperation (id operation : string)
    (operationFunc : string → S → option error * S) (s : S) : Response * S :=
  if bool_decide (id = EmptyString) then
    (sendErrorResponse operation EmptyString "Container ID required" http.StatusBadRequest, s)
  else
    let '(inspected, s1) := InspectContainer client id s in
    let containerName :=
      match inspected with
      | Ok containerJSON => strings.TrimPrefix (types.ContainerJSON.Name containerJSON) "/"
      | Err _ => id
      end in
    match operationFunc id s1 with
    | (Some err, s2) =>
        let errResp := createErrorResponse operation containerName err in
        (sendErrorResponseWithDetails errResp http.StatusInternalServerError, s2)
    | (None, s2) =>
        (sendSuccessResponse operation containerName
           ("Container " +:+ containerName +:+ " " +:+ operation +:+ "ed successfully"), s2)
    end.

Definition HandleStart (id : string) : S → Response * S :=
  handleLifecycleOperation id "start" (StartContainer client).

Definition HandleStop (id : string) : S → Response * S :=
  handleLifecycleOperation id "stop" (StopContainer client).

Definition HandleRestart (id : string) : S → Response * S :=
  handleLifecycleOperation id "restart" (RestartContainer client).

End Operations.

(** ** internal/handlers: the pages

    A page handler ends with [http.Error], or with the call of the template
    on the data it has prepared; what the template engine then writes is not
    part of the model.  The values of the data map are those the two handlers
    store. *)

Inductive Value :=
| GroupsValue (groups : list ContainerGroup.t)
| GroupValue (group : ContainerGroup.t)
| StringValue (s : string)
| BoolValue (b : bool).

Inductive Reply :=
| HttpError (message : string) (code : nat)
| ExecuteTemplate (name : string) (data : gmap string Value).

Module HomeHandler.
Section Handler.
Context `{GoRange} {S : Type} (client : DockerClient S).

(** The update check runs under [schedule]. *)
Definition ServeHTTP (schedule : list Check.addr) (s : S) : option (Reply * S) :=
  match GetContainerGroups client s with
  | (Err _, s1) =>
      Some (HttpError "Failed to load containers. Please check Docker daemon connection."
              http.StatusInternalServerError, s1)
  | (Ok groups, s1) =>
      match CheckUpdates schedule client s1 groups with
      | None => None
      | Some (_, groups, s2) =>
          let data : gmap string Value :=
            <["Groups" := GroupsValue groups]>
              (<["Title" := StringValue "BleedingEdge - Container Manager"]> ∅) in
          Some (ExecuteTemplate "grid.html" data, s2)
      end
  end.
End Handler.
End HomeHandler.

Module DetailHandler.
Section Handler.
Context `{GoRange} {S : Type} (client : DockerClient S).

(** [id] is [mux.Vars(r)["id"]], [checkUpdates] is
    [r.URL.Query().Get("check_updates")]. *)
Definition ServeHTTP (schedule : list Check.addr) (id checkUpdates : string) (s : S)
  : option (Reply * S) :=
  if bool_decide (id = EmptyString) then
    Some (HttpError "Container ID required" http.StatusBadRequest, s)
  else
    match GetContainerGroups client s with
    | (Err _, s1) =>
        Some (HttpError "Failed to load container details. Please check Docker daemon connection."
                http.StatusInternalServerError, s1)
    | (Ok groups, s1) =>
        let checked :=
          if bool_decide (checkUpdates = "true")
          then CheckUpdates schedule client s1 groups
          else Some (None, groups, s1) in
        match checked with
        | None => None
        | Some (_, groups, s2) =>
            match findGroup id groups with
            | None =>
                Some (HttpError "Container not found. It may have been removed."
                        http.StatusNotFound, s2)
            | Some group =>
                let data : gmap string Value :=
                  <["Group" := GroupValue group]>
                    (<["Title" := StringValue ("BleedingEdge - " +:+ ContainerGroup.Name group)]>
                       (<["CheckUpdates" := BoolValue (bool_decide (checkUpdates ≠ "true"))]> ∅)) in
                Some (ExecuteTemplate "detail.html" data, s2)
            end
        end
    end.
End Handler.
End DetailHandler.

(** ** Reading a listing *)

(** The compose project that [IsComposeProject] finds for a listing entry. *)
Definition projectOf (c : types.Container.t) : option string :=
  let '(isCompose, projectName) := IsComposeProject c in
  if isCompose then Some projectName else None.

(** The entries of a listing that belong to the project [p], and those that
    belong to none, in the order of the listing. *)
Definition projectMembers (p : string) (cs : list types.Container.t)
  : list types.Container.t :=
  filter (λ c, projectOf c = Some p) cs.

Definition standalones (cs : list types.Container.t) : list types.Container.t :=
  filter (λ c, projectOf c = None) cs.

(** The unit of the project [p] with the members [members], before the
    running flag is computed. *)
Definition composeGroupOf (p : string) (members : list types.Container.t)
  : ContainerGroup.t :=
  {| ContainerGroup.ID := p;
     ContainerGroup.Name := p;
     ContainerGroup.Type_ := GroupTypeCompose;
     ContainerGroup.Containers := containerInfoOf <$> members;
     ContainerGroup.WorkingDir :=
       match members with
       | c :: _ => index (types.Container.Labels c) "com.docker.compose.project.working_dir"
       | [] => EmptyString
       end;
     ContainerGroup.HasUpdates := false;
     ContainerGroup.AllRunning := false |}.

(** What the grouping loop has built when it has visited [cs]. *)
Definition groupedAs (cs : list types.Container.t)
    (acc : gmap string ContainerGroup.t * list ContainerGroup.t) : Prop :=
  (∀ p, acc.1 !! p = match projectMembers p cs with
                     | [] => None
                     | members => Some (composeGroupOf p members)
                     end)
  ∧ acc.2 = standaloneGroupOf <$> standalones cs.

(** ** Reading the groups after a detection cycle *)

(** Two containers, or two units, that differ at most in what a detection
    cycle writes: the digests and the flags. *)
Definition sameInstance (c c' : ContainerInfo.t) : Prop :=
  ContainerInfo.ID c = ContainerInfo.ID c'
  ∧ ContainerInfo.Name c = ContainerInfo.Name c'
  ∧ ContainerInfo.Image c = ContainerInfo.Image c'
  ∧ ContainerInfo.State c = ContainerInfo.State c'
  ∧ ContainerInfo.Labels c = ContainerInfo.Labels c'.

Definition sameUnit (g g' : ContainerGroup.t) : Prop :=
  ContainerGroup.ID g = ContainerGroup.ID g'
  ∧ ContainerGroup.Name g = ContainerGroup.Name g'
  ∧ ContainerGroup.Type_ g = ContainerGroup.Type_ g'
  ∧ ContainerGroup.WorkingDir g = ContainerGroup.WorkingDir g'
  ∧ Forall2 sameInstance (ContainerGroup.Containers g) (ContainerGroup.Containers g').

(** What holds of the containers with a local image in every state of a
    cycle over [gs0]: their goroutines have made no call, and have returned
    or not yet started. *)
Definition Quiet {S : Type} (gs0 : list ContainerGroup.t) (st : Check.State S) : Prop :=
  ∀ a c0, Check.deref gs0 a = Some c0 → isLocalImage (ContainerInfo.Image c0) = true →
    Check.own a (Check.log st) = []
    ∧ (Check.goroutines st !! a = Some Check.Start
       ∨ Check.goroutines st !! a = Some Check.Done).

(** The pulls of an image among the events of one goroutine. *)
Definition pullsIn (imageName : string) (h : list Check.Ev) : nat :=
  length (List.filter (Check.isPull imageName) h).

(** ** Reading a cycle whose goroutines run one after the other *)

(** A runtime whose pulls and digest lookups succeed. *)
Definition reliable {S : Type} (client : DockerClient S) : Prop :=
  (∀ imageName s, (PullImage client imageName s).1 = None)
  ∧ (∀ imageName s, ∃ digest, (GetImageDigest client imageName s).1 = Ok digest).

(** One for an image whose latest digest is in the cache. *)
Definition cached (imageName : string) (cache : gmap string string) : nat :=
  if bool_decide (is_Some (cache !! imageName)) then 1 else 0.

(** How the pulls made so far relate to the cache when the one goroutine
    that is under way stands at [pc]: every cached image was pulled once, and
    so was the image that the goroutine is about to resolve and store. *)
Definition Accounted {S : Type} (pc : Check.PC) (st : Check.State S) : Prop :=
  match pc with
  | Check.Pull imageName =>
      Check.imageDigests st !! imageName = None
      ∧ ∀ i, Check.pulls i (Check.log st) = cached i (Check.imageDigests st)
  | Check.GetLatest imageName | Check.Store imageName _ =>
      Check.imageDigests st !! imageName = None
      ∧ ∀ i, Check.pulls i (Check.log st)
             = cached i (Check.imageDigests st) + (if bool_decide (i = imageName) then 1 else 0)
  | _ => ∀ i, Check.pulls i (Check.log st) = cached i (Check.imageDigests st)
  end.

(** It is the turn of the goroutine at [a]: the others have returned or not
    yet started. *)
Definition Turn {S : Type} (a : Check.addr) (st : Check.State S) : Prop :=
  (∀ a' pc, a' ≠ a → Check.goroutines st !! a' = Some pc →
     pc = Check.Start ∨ pc = Check.Done)
  ∧ Accounted (default Check.Done (Check.goroutines st !! a)) st.

(** No goroutine is under way. *)
Definition Settled {S : Type} (st : Check.State S) : Prop :=
  (∀ a pc, Check.goroutines st !! a = Some pc → pc = Check.Start ∨ pc = Check.Done)
  ∧ Accounted Check.Done st.

(** Every latest digest that a goroutine took from the cache or put there
    is the one the cache holds. *)
Definition Coherent {S : Type} (st : Check.State S) : Prop :=
  ∀ a imageName digest,
    (a, Check.CacheHit imageName digest) ∈ Check.log st
    ∨ (a, Check.CacheStore imageName digest) ∈ Check.log st →
    Check.imageDigests st !! imageName = Some digest.

(** A call that failed. *)
Definition failed (e : Check.Ev) : bool :=
  match e with
  | Check.Pulled _ false | Check.LatestDigest _ (Err _) | Check.CurrentDigest _ (Err _) => true
  | _ => false
  end.

Definition Unfailing {S : Type} (st : Check.State S) : Prop :=
  ∀ x, x ∈ Check.log st → failed x.2 = false.

(** ** Reading the update handler *)

(** What [HandleUpdate] answers once the update of the unit [name] has
    returned. *)
Definition updateResponse {S : Type} (now : Time) (name : string)
    (run : option error * World S) : Response * World S :=
  match run.1 with
  | Some err =>
      (sendErrorResponseWithDetails (createErrorResponse now "update" name err)
         http.StatusInternalServerError, run.2)
  | None =>
      (sendSuccessResponse now "update" name (name +:+ " updated successfully"), run.2)
  end.

(** The first listed container that belongs to no project and has the
    identifier [id]. *)
Definition standaloneWith (id : string) (cs : list types.Container.t)
  : option types.Container.t :=
  head (filter (λ c, types.Container.ID c = id) (standalones cs)).

(** The unit with the identifier [id] that a listing gives rise to: the
    project of that name if a listed container belongs to it, else the first
    listed container without project that has the identifier. *)
Definition listedUnit (id : string) (cs : list types.Container.t) : option ContainerGroup.t :=
  match projectMembers id cs with
  | c :: members => Some (setAllRunning (composeGroupOf id (c :: members)))
  | [] => standaloneGroupOf <$> standaloneWith id cs
  end.

(** ** Fixtures of the tests of the handlers, and of the properties below *)

Module Sample.
(** The container of TestHomeHandler, TestDetailHandler and
    TestOperationsHandlerUpdate. *)
Definition nginx : types.Container.t :=
  {| types.Container.ID := "container1";
     types.Container.Names := ["/nginx"];
     types.Container.Image := "nginx:latest";
     types.Container.State := "running";
     types.Container.Labels := Some ∅ |}.

(** The mock of the page tests. *)
Definition pages (containers : list types.Container.t) : MockClient.t unit :=
  {| MockClient.ListContainersFunc := Some (λ s, (Ok containers, s));
     MockClient.InspectContainerFunc := None;
     MockClient.PullImageFunc := Some (λ imageName s, (None, s));
     MockClient.GetImageDigestFunc := Some (λ imageName s, (Ok "sha256:digest", s));
     MockClient.StartContainerFunc := None; MockClient.StopContainerFunc := None;
     MockClient.RestartContainerFunc := None; MockClient.RemoveContainerFunc := None;
     MockClient.CreateContainerFunc := None; MockClient.ExecuteCommandFunc := None |}.

(** "successful standalone update" (TestOperationsHandlerUpdate). *)
Definition inspected : types.ContainerJSON.t :=
  {| types.ContainerJSON.Name := "/nginx";
     types.ContainerJSON.Config :=
       Some {| container.Config.Image := "nginx:latest";
               container.Config.Env := None;
               container.Config.Cmd := None;
               container.Config.Entrypoint := None;
               container.Config.Labels := None;
               container.Config.ExposedPorts := None |};
     types.ContainerJSON.HostConfig :=
       Some {| container.HostConfig.Binds := None;
               container.HostConfig.PortBindings := None;
               container.HostConfig.RestartPolicy :=
                 {| container.Name := EmptyString; container.MaximumRetryCount := 0 |};
               container.HostConfig.Resources :=
                 {| container.CPUShares := 0; container.Memory := 0;
                    container.NanoCPUs := 0 |} |};
     types.ContainerJSON.NetworkSettings := None |}.

Definition updating : MockClient.t unit :=
  {| MockClient.ListContainersFunc := Some (λ s, (Ok [nginx], s));
     MockClient.InspectContainerFunc := Some (λ id s, (Ok inspected, s));
     MockClient.PullImageFunc := Some (λ imageName s, (None, s));
     MockClient.GetImageDigestFunc := None;
     MockClient.StartContainerFunc := Some (λ id s, (None, s));
     MockClient.StopContainerFunc := Some (λ id s, (None, s));
     MockClient.RestartContainerFunc := None;
     MockClient.RemoveContainerFunc := Some (λ id s, (None, s));
     MockClient.CreateContainerFunc :=
       Some (λ config hostConfig name s, (Ok "new-container-id", s));
     MockClient.ExecuteCommandFunc := None |}.

(** "successful start" (TestOperationsHandlerStart). *)
Definition started : types.ContainerJSON.t :=
  {| types.ContainerJSON.Name := "/test-container";
     types.ContainerJSON.Config := None;
     types.ContainerJSON.HostConfig := None;
     types.ContainerJSON.NetworkSettings := None |}.

Definition starting : MockClient.t unit :=
  {| MockClient.ListContainersFunc := None;
     MockClient.InspectContainerFunc := Some (λ id s, (Ok started, s));
     MockClient.PullImageFunc := None;
     MockClient.GetImageDigestFunc := None;
     MockClient.StartContainerFunc := Some (λ id s, (None, s));
     MockClient.StopContainerFunc := None;
     MockClient.RestartContainerFunc := None; MockClient.RemoveContainerFunc := None;
     MockClient.CreateContainerFunc := None; MockClient.ExecuteCommandFunc := None |}.

(** A container of the project [app] whose labels name no working
    directory, listed before one whose labels do. *)
Definition worker : types.Container.t :=
  {| types.Container.ID := "container3";
     types.Container.Names := ["/app-worker-1"];
     types.Container.Image := "redis:latest";
     types.Container.State := "exited";
     types.Container.Labels := Some {["com.docker.compose.project" := "app"]} |}.

Definition workerFirst : MockClient.t unit :=
  {| MockClient.ListContainersFunc := Some (λ s, (Ok [worker; Fixture.web], s));
     MockClient.InspectContainerFunc := None; MockClient.PullImageFunc := None;
     MockClient.GetImageDigestFunc := None; MockClient.StartContainerFunc := None;
     MockClient.StopContainerFunc := None; MockClient.RestartContainerFunc := None;
     MockClient.RemoveContainerFunc := None; MockClient.CreateContainerFunc := None;
     MockClient.ExecuteCommandFunc := None |}.

(** A container of an image built on the host, beside one of an image from
    a registry. *)
Definition built : ContainerInfo.t :=
  {| ContainerInfo.ID := "container3";
     ContainerInfo.Name := "my-app";
     ContainerInfo.Image := "my-app:latest";
     ContainerInfo.ImageDigest := EmptyString;
     ContainerInfo.LatestDigest := EmptyString;
     ContainerInfo.State := "exited";
     ContainerInfo.HasUpdate := true;
     ContainerInfo.Labels := None |}.

Definition builtAndNginx : list ContainerGroup.t :=
  [Fixture.nginxGroup "app" [built; Fixture.nginx]].
End Sample.

(** * Properties *)

(** ** Proof automation *)

(** Unfolds the monad of the orchestrators. *)
Ltac unfold_op :=
  unfold Op.returned, Op.bind, Op.orReturn, Op.call_, Op.call, Op.lift, Op.ret, Op.ofError;
  cbn [runtime trace fst snd].

(** Case analysis on the next answer of the runtime. *)
Ltac next_answer :=
  match goal with
  | |- context [PullImage ?c ?i ?s] =>
      destruct (PullImage c i s) as [[?cause|] ?s] eqn:?
  | |- context [StopContainer ?c ?i ?s] =>
      destruct (StopContainer c i s) as [[?cause|] ?s] eqn:?
  | |- context [RemoveContainer ?c ?i ?s] =>
      destruct (RemoveContainer c i s) as [[?cause|] ?s] eqn:?
  | |- context [CreateContainer ?c ?cfg ?hc ?n ?s] =>
      destruct (CreateContainer c cfg hc n s) as [[?newContainerID|?cause] ?s] eqn:?
  | |- context [StartContainer ?c ?i ?s] =>
      destruct (StartContainer c i s) as [[?cause|] ?s] eqn:?
  end; unfold_op.

(** Inversion of the runs, down to the concrete calls. *)
Ltac invert_run :=
  match goal with
  | Hrun : StandaloneRun _ _ _ _ |- _ =>
      inversion Hrun as [|?|? ? ? ? ? ? Hrest]; clear Hrun; subst;
      [ | | inversion Hrest; clear Hrest; subst ]
  end.

(** Case analysis on an index into a concrete list of calls. *)
Ltac each_index i :=
  repeat (destruct i as [|i]; cbn in *; simplify_eq); try done.

(** Taking a concrete list of events apart at its last event. *)
Ltac last_event H :=
  apply (f_equal reverse) in H; rewrite ?reverse_app in H; cbn in H; simplify_eq.

(** ** Strings *)

Section StringFacts.
Import strings.

Lemma prefix_empty (s : string) : String.prefix EmptyString s = true.
Proof. by destruct s. Qed.

(** A one-byte separator starts a string exactly when it is its first byte. *)
Lemma prefix_byte (c d : ascii) (s : string) :
  String.prefix (String c EmptyString) (String d s) = bool_decide (c = d).
Proof.
  cbn [String.prefix]. destruct (ascii_dec c d) as [->|Hne].
  - by rewrite prefix_empty, bool_decide_eq_true_2.
  - by rewrite bool_decide_eq_false_2.
Qed.

Lemma Contains_cons (c : ascii) (s sub : string) :
  Contains (String c s) sub = String.prefix sub (String c s) || Contains s sub.
Proof. reflexivity. Qed.

Lemma Cut_cons (c : ascii) (s sep : string) :
  Cut (String c s) sep =
    if String.prefix sep (String c s)
    then Some (EmptyString,
               String.substring (String.length sep)
                 (String.length (String c s) - String.length sep) (String c s))
    else match Cut s sep with
         | Some (a, b) => Some (String c a, b)
         | None => None
         end.
Proof. reflexivity. Qed.

(** [Cut] finds a separator exactly when [Contains] sees one. *)
Lemma Cut_None (s sep : string) : Cut s sep = None ↔ Contains s sep = false.
Proof.
  induction s as [|c s IH].
  - destruct sep; cbn; split; congruence.
  - rewrite Cut_cons, Contains_cons.
    destruct (String.prefix sep (String c s)); [split; cbn; congruence|].
    cbn [orb]. rewrite <- IH. destruct (Cut s sep) as [[a b]|]; split; congruence.
Qed.

Lemma prefix_app (x a r : string) :
  String.prefix x a = true → String.prefix x (a +:+ r) = true.
Proof.
  revert x. induction a as [|c a IH]; intros [|d x] Hp;
    try apply prefix_empty; try done.
  change (String c a +:+ r) with (String c (a +:+ r)).
  cbn [String.prefix] in *. destruct (ascii_dec d c); [by apply IH | done].
Qed.

Lemma Contains_app (x a r : string) :
  Contains a x = true → Contains (a +:+ r) x = true.
Proof.
  induction a as [|c a IH].
  - cbn [Contains]. rewrite orb_false_r. intros Hp.
    destruct x; [|done].
    change (EmptyString +:+ r) with r. destruct r; cbn [Contains]; by rewrite prefix_empty.
  - change (String c a +:+ r) with (String c (a +:+ r)).
    rewrite !Contains_cons. intros [Hp| Hc]%orb_true_iff.
    + apply (prefix_app _ (String c a) r) in Hp.
      change (String c a +:+ r) with (String c (a +:+ r)) in Hp. by rewrite Hp.
    + rewrite (IH Hc). apply orb_true_r.
Qed.

(** The text before the separator is a prefix of the string. *)
Lemma Cut_before (s sep a b : string) :
  Cut s sep = Some (a, b) → ∃ r, s = a +:+ r.
Proof.
  revert a b. induction s as [|c s IH]; intros a b.
  - destruct sep; cbn; [|done]. intros [= <- _]. by exists EmptyString.
  - rewrite Cut_cons. destruct (String.prefix sep (String c s)).
    + intros [= <- _]. by exists (String c s).
    + destruct (Cut s sep) as [[a' b']|] eqn:E; [|done].
      intros [= <- <-]. destruct (IH _ _ eq_refl) as [r ->]. by exists r.
Qed.

Lemma Cut_before_Contains (s sep a b x : string) :
  Cut s sep = Some (a, b) → Contains s x = false → Contains a x = false.
Proof.
  intros [r ->]%Cut_before Hs. destruct (Contains a x) eqn:E; [|done].
  by rewrite (Contains_app _ _ r E) in Hs.
Qed.

(** When a slash comes before any colon, the text before the first colon
    holds that slash. *)
Lemma Cut_slash_before_colon (s a b a' b' : string) :
  Cut s "/" = Some (a, b) → Contains a ":" = false →
  Cut s ":" = Some (a', b') → Contains a' "/" = true.
Proof.
  revert a a'. induction s as [|c s IH]; intros a a'; [done|].
  rewrite !Cut_cons, !prefix_byte.
  case_bool_decide as Hs; case_bool_decide as Hc; subst.
  - done.
  - intros [= <- <-] _. destruct (Cut s ":") as [[x y]|]; [|done].
    intros [= <- <-]. by rewrite Contains_cons, prefix_byte, bool_decide_eq_true_2.
  - destruct (Cut s "/") as [[x y]|]; [|done]. intros [= <- <-].
    by rewrite Contains_cons, prefix_byte, bool_decide_eq_true_2.
  - destruct (Cut s "/") as [[x y]|] eqn:E1; [|done]. intros [= <- <-].
    rewrite Contains_cons, prefix_byte, bool_decide_eq_false_2 by done.
    cbn [orb]. intros Hx.
    destruct (Cut s ":") as [[x' y']|] eqn:E2; [|done]. intros [= <- <-].
    rewrite Contains_cons, (IH _ _ eq_refl Hx eq_refl). apply orb_true_r.
Qed.

(** The first piece of a split in two, and of a full split. *)
Lemma SplitN_2 (s sep : string) :
  SplitN s sep 2 = match Cut s sep with Some (a, b) => [a; b] | None => [s] end.
Proof. unfold SplitN. cbn. by destruct (Cut s sep) as [[a b]|]. Qed.

Lemma first_Split (s sep : string) :
  first (Split s sep) = match Cut s sep with Some (a, _) => a | None => s end.
Proof.
  unfold Split. destruct s as [|c s].
  - by destruct sep.
  - cbn [String.length genSplit]. by destruct (Cut (String c s) sep) as [[a b]|].
Qed.

Lemma TrimPrefix_slash (name : string) : TrimPrefix ("/" +:+ name) "/" = name.
Proof.
  unfold TrimPrefix. change ("/" +:+ name) with (String "/" name).
  rewrite prefix_byte, bool_decide_eq_true_2 by done.
  cbn [String.length String.substring].
  replace (S (String.length name) - 1) with (String.length name) by lia.
  induction name as [|c n IH]; [done|]. cbn. by rewrite IH.
Qed.

Lemma TrimPrefix_other (name : string) :
  HasPrefix name "/" = false → TrimPrefix name "/" = name.
Proof. unfold TrimPrefix, HasPrefix. by intros ->. Qed.
End StringFacts.

(** ** The local-image heuristic *)

Example isLocalImage_user_repo : isLocalImage "myuser/my-app:latest" = false.
Proof. reflexivity. Qed.

(** With a slash in the reference, the text before the first colon is never
    free of slashes once the host segment is free of colons. *)
Lemma baseNameOf_slash (imageName a b : string) :
  strings.Cut imageName "/" = Some (a, b) →
  strings.Contains a ":" = false →
  strings.Contains (baseNameOf imageName) "/" = true.
Proof.
  intros Hcut Ha. unfold baseNameOf. rewrite first_Split.
  destruct (strings.Cut imageName ":") as [[a' b']|] eqn:E.
  - eapply Cut_slash_before_colon; eauto.
  - destruct (strings.Contains imageName "/") eqn:Hc; [done|].
    apply Cut_None in Hc. congruence.
Qed.

Lemma baseNameOf_no_slash (imageName : string) :
  strings.Contains imageName "/" = false →
  strings.Contains (baseNameOf imageName) "/" = false.
Proof.
  intros Hc. unfold baseNameOf. rewrite first_Split.
  destruct (strings.Cut imageName ":") as [[a' b']|] eqn:E; [|done].
  eapply Cut_before_Contains; eauto.
Qed.

(** C8, as the specification states it, fails: a repository under a user or
    organisation name has no registry host and a hyphen in its base name, and
    is classified registry-sourced. *)
Lemma isLocalImage_spec_counterexample :
  ¬ (∀ imageName, isLocalImage_spec imageName = true → isLocalImage imageName = true).
Proof. intros Hspec. by specialize (Hspec "myuser/my-app:latest" eq_refl). Qed.

(** C8 (amended): [isLocalImage] holds exactly of the references that start
    with [sha256:], start with [localhost/] or [localhost:], or hold no slash
    at all and have a hyphen or underscore before their first colon; the five
    references of the specification are classified as it says. *)
Theorem isLocalImage_characterised :
  (∀ imageName,
     isLocalImage imageName =
       strings.HasPrefix imageName "sha256:"
       || strings.HasPrefix imageName "localhost/"
       || strings.HasPrefix imageName "localhost:"
       || negb (strings.Contains imageName "/")
          && (strings.Contains (baseNameOf imageName) "-"
              || strings.Contains (baseNameOf imageName) "_"))
  ∧ isLocalImage "sha256:deadbeef" = true
  ∧ isLocalImage "localhost/app:dev" = true
  ∧ isLocalImage "myproject-web:latest" = true
  ∧ isLocalImage "nginx:latest" = false
  ∧ isLocalImage "registry.example.com/team/app:1.0" = false.
Proof.
  split; [|by repeat split].
  intros imageName. unfold isLocalImage.
  destruct (strings.HasPrefix imageName "sha256:"); [done|].
  destruct (strings.HasPrefix imageName "localhost/"); [done|].
  destruct (strings.HasPrefix imageName "localhost:"); [done|].
  cbn [orb]. rewrite SplitN_2. fold (baseNameOf imageName).
  destruct (strings.Cut imageName "/") as [[a b]|] eqn:Hcut.
  - assert (strings.Contains imageName "/" = true) as ->.
    { destruct (strings.Contains imageName "/") eqn:Hc; [done|].
      apply Cut_None in Hc. congruence. }
    cbn. destruct (strings.Contains a "."); [done|].
    destruct (strings.Contains a ":") eqn:Ha; [done|].
    cbn. by rewrite (baseNameOf_slash _ _ _ Hcut Ha).
  - pose proof Hcut as Hc%Cut_None. rewrite Hc, (baseNameOf_no_slash _ Hc).
    cbn. by destruct (_ || _).
Qed.

(** ** Grouping *)

Section Grouping.
Context `{GoRange}.

Lemma IsComposeProject_label (c : types.Container.t) :
  IsComposeProject c =
    match composeLabel c with
    | Some p => if bool_decide (p ≠ EmptyString) then (true, p) else (false, EmptyString)
    | None => (false, EmptyString)
    end.
Proof. unfold IsComposeProject, composeLabel. by destruct (types.Container.Labels c). Qed.

Lemma membersOf_insert m st p g :
  m !! p = None →
  membersOf (<[p := g]> m, st) ≡ₚ membersOf (m, st) ++ ContainerGroup.Containers g.
Proof.
  intros Hp. unfold membersOf. cbn [fst snd].
  rewrite (map_to_list_insert _ _ _ Hp). cbn. solve_Permutation.
Qed.

Lemma membersOf_alter m st p g info :
  m !! p = Some g →
  membersOf (alter (appendContainer info) p m, st) ≡ₚ membersOf (m, st) ++ [info].
Proof.
  intros Hp. rewrite (alter_alt_Some _ _ _ _ Hp), <- insert_delete_eq.
  rewrite membersOf_insert by apply lookup_delete_eq.
  unfold membersOf. cbn [fst snd]. rewrite <- (map_to_list_delete _ _ _ Hp).
  cbn. solve_Permutation.
Qed.

Lemma grouped_nil : grouped [] (∅, []).
Proof.
  split; cbn.
  - unfold membersOf. cbn. by rewrite map_to_list_empty.
  - intros p g. by rewrite lookup_empty.
  - intros c p Hc. by apply elem_of_nil in Hc.
  - intros c Hc. by apply elem_of_nil in Hc.
  - intros g Hg. by apply elem_of_nil in Hg.
Qed.

Lemma grouped_step cs acc c :
  grouped cs acc → grouped (cs ++ [c]) (groupStep acc c).
Proof.
  destruct acc as [m st]. intros [Hmem Hkey Hcomp Halone Htype]. cbn [fst snd] in *.
  unfold groupStep. rewrite IsComposeProject_label.
  destruct (composeLabel c) as [p|] eqn:Hlabel;
    [case_bool_decide as Hp|]; cbn [fst snd].
  - (* a member of the compose project [p] *)
    destruct (m !! p) as [g|] eqn:Hm.
    + split; cbn [fst snd].
      * rewrite (membersOf_alter _ _ _ _ _ Hm), Hmem. by rewrite fmap_app.
      * intros q g'. rewrite lookup_alter. case_decide as Hq.
        -- subst q. rewrite Hm. intros [= <-]. by apply Hkey in Hm.
        -- apply Hkey.
      * intros c' q [Hc'|Hc']%elem_of_app Hl Hq.
        -- destruct (Hcomp _ _ Hc' Hl Hq) as (g' & Hg' & Hin).
           rewrite lookup_alter. case_decide as Hqp.
           ++ subst q. rewrite Hg'. eexists; split; [done|].
              cbn. apply elem_of_app. by left.
           ++ eauto.
        -- apply list_elem_of_singleton in Hc' as ->.
           rewrite Hlabel in Hl. injection Hl as <-.
           rewrite lookup_alter_eq, Hm. eexists; split; [done|].
           cbn. apply elem_of_app. right. by apply list_elem_of_singleton.
      * intros c' [Hc'|Hc']%elem_of_app Hl; [by apply Halone|].
        apply list_elem_of_singleton in Hc' as ->. rewrite Hlabel in Hl.
        destruct Hl as [|[= ->]]; done.
      * done.
    + split; cbn [fst snd].
      * rewrite (membersOf_insert _ _ _ _ Hm), Hmem. by rewrite fmap_app.
      * intros q g'. rewrite lookup_insert. case_decide as Hq.
        -- subst q. by intros [= <-].
        -- apply Hkey.
      * intros c' q [Hc'|Hc']%elem_of_app Hl Hq.
        -- destruct (Hcomp _ _ Hc' Hl Hq) as (g' & Hg' & Hin).
           rewrite lookup_insert. case_decide as Hqp; [congruence|eauto].
        -- apply list_elem_of_singleton in Hc' as ->.
           rewrite Hlabel in Hl. injection Hl as <-.
           rewrite lookup_insert_eq. eexists; split; [done|].
           by apply list_elem_of_singleton.
      * intros c' [Hc'|Hc']%elem_of_app Hl; [by apply Halone|].
        apply list_elem_of_singleton in Hc' as ->. rewrite Hlabel in Hl.
        destruct Hl as [|[= ->]]; done.
      * done.
  - (* an empty label: a unit of its own *)
    subst p. split; cbn [fst snd].
    + unfold membersOf in *. cbn [fst snd] in *.
      rewrite bind_app, (assoc (++)), Hmem, fmap_app. by cbn.
    + done.
    + intros c' q [Hc'|Hc']%elem_of_app Hl Hq; [eauto|].
      apply list_elem_of_singleton in Hc' as ->. congruence.
    + intros c' [Hc'|Hc']%elem_of_app Hl; apply elem_of_app; [left; eauto|].
      apply list_elem_of_singleton in Hc' as ->. right.
      by apply list_elem_of_singleton.
    + intros g [Hg|Hg]%elem_of_app; [eauto|].
      by apply list_elem_of_singleton in Hg as ->.
  - (* no label: a unit of its own *)
    split; cbn [fst snd].
    + unfold membersOf in *. cbn [fst snd] in *.
      rewrite bind_app, (assoc (++)), Hmem, fmap_app. by cbn.
    + done.
    + intros c' q [Hc'|Hc']%elem_of_app Hl Hq; [eauto|].
      apply list_elem_of_singleton in Hc' as ->. congruence.
    + intros c' [Hc'|Hc']%elem_of_app Hl; apply elem_of_app; [left; eauto|].
      apply list_elem_of_singleton in Hc' as ->. right.
      by apply list_elem_of_singleton.
    + intros g [Hg|Hg]%elem_of_app; [eauto|].
      by apply list_elem_of_singleton in Hg as ->.
Qed.

Lemma grouped_fold cs0 acc cs :
  grouped cs0 acc → grouped (cs0 ++ cs) (fold_left groupStep cs acc).
Proof.
  revert cs0 acc. induction cs as [|c cs IH]; intros cs0 acc Hacc; cbn.
  - by rewrite app_nil_r.
  - rewrite (cons_middle c cs0 cs), (assoc (++)). by apply IH, grouped_step.
Qed.

Lemma groupContainers_grouped cs : grouped cs (groupContainers cs).
Proof. apply (grouped_fold [] _ cs), grouped_nil. Qed.
End Grouping.

Lemma setAllRunning_members (l : list (string * ContainerGroup.t)) :
  ((λ kv, setAllRunning kv.2) <$> l) ≫= ContainerGroup.Containers
  = l.*2 ≫= ContainerGroup.Containers.
Proof. induction l as [|kv l IH]; [done|]. cbn. by rewrite IH. Qed.

Lemma listedAs_containerInfoOf (c : types.Container.t) : listedAs c (containerInfoOf c).
Proof. by repeat split. Qed.

Lemma listedAs_all (cs : list types.Container.t) :
  Forall2 listedAs cs (containerInfoOf <$> cs).
Proof.
  apply Forall2_fmap_r, Forall_Forall2_diag, Forall_forall.
  intros c _. apply listedAs_containerInfoOf.
Qed.

(** C6: the members of the groups of [GetContainerGroups], taken together,
    are the listed instances, each once: member for instance, they carry
    the instance's identifier, name, image, state and labels.  An instance
    with a non-empty grouping label is a member of the one compose unit
    whose identifier is the label's value; an instance without the label,
    or with an empty one, is the single member of a standalone unit whose
    identifier is the instance's. *)
Theorem GetContainerGroups_partition `{GoRange} {S : Type} (client : DockerClient S)
    (s s' : S) (containers : list types.Container.t) :
  ListContainers client s = (Ok containers, s') →
  ∃ groups,
    GetContainerGroups client s = (Ok groups, s')
    ∧ (∃ members,
         groups ≫= ContainerGroup.Containers ≡ₚ members
         ∧ Forall2 listedAs containers members)
    ∧ (∀ c p, c ∈ containers → composeLabel c = Some p → p ≠ EmptyString →
         ∃ g info, g ∈ groups
                   ∧ ContainerGroup.ID g = p
                   ∧ ContainerGroup.Type_ g = GroupTypeCompose
                   ∧ info ∈ ContainerGroup.Containers g
                   ∧ listedAs c info
                   ∧ ∀ g', g' ∈ groups → ContainerGroup.Type_ g' = GroupTypeCompose →
                           ContainerGroup.ID g' = p → g' = g)
    ∧ (∀ c, c ∈ containers →
         composeLabel c = None ∨ composeLabel c = Some EmptyString →
         ∃ g info, g ∈ groups
                   ∧ ContainerGroup.ID g = types.Container.ID c
                   ∧ ContainerGroup.Type_ g = GroupTypeStandalone
                   ∧ ContainerGroup.Containers g = [info]
                   ∧ listedAs c info).
Proof.
  intros Hlist. unfold GetContainerGroups. rewrite Hlist.
  pose proof (groupContainers_grouped containers) as [Hmem Hkey Hcomp Halone Htype].
  destruct (groupContainers containers) as [m st]. cbn [fst snd] in *.
  eexists. split; [done|]. split; [|split].
  - exists (containerInfoOf <$> containers). split; [|apply listedAs_all].
    rewrite bind_app, setAllRunning_members, range_order_perm. apply Hmem.
  - intros c p Hc Hl Hp. destruct (Hcomp c p Hc Hl Hp) as (g & Hg & Hin).
    destruct (Hkey _ _ Hg) as [Hid Hty].
    exists (setAllRunning g), (containerInfoOf c).
    split; [|split; [done|split; [done|split; [done|split]]]].
    + apply elem_of_app. left. apply list_elem_of_fmap. exists (p, g). split; [done|].
      rewrite range_order_perm. by apply elem_of_map_to_list.
    + apply listedAs_containerInfoOf.
    + intros g' [Hg'|Hg']%elem_of_app Hty' Hid'.
      * apply list_elem_of_fmap in Hg' as ([q g0] & -> & Hq).
        rewrite range_order_perm in Hq. apply elem_of_map_to_list in Hq.
        cbn in *. destruct (Hkey _ _ Hq) as [Hq' _]. congruence.
      * apply Htype in Hg'. congruence.
  - intros c Hc Hl. exists (standaloneGroupOf c), (containerInfoOf c).
    split; [|split; [done|split; [done|split; [done|]]]].
    + apply elem_of_app. right. by apply Halone.
    + apply listedAs_containerInfoOf.
Qed.

Lemma GetContainerGroups_partition_witness :
  let containers := [Sample.worker; Fixture.standalone; Fixture.web] in
  let client := MockClient.client (Sample.pages containers) in
  ListContainers client tt = (Ok containers, tt)
  ∧ ∃ groups,
      @GetContainerGroups listingOrder _ client tt = (Ok groups, tt)
      ∧ (∃ members,
           groups ≫= ContainerGroup.Containers ≡ₚ members
           ∧ Forall2 listedAs containers members)
      ∧ (∀ c p, c ∈ containers → composeLabel c = Some p → p ≠ EmptyString →
           ∃ g info, g ∈ groups
                     ∧ ContainerGroup.ID g = p
                     ∧ ContainerGroup.Type_ g = GroupTypeCompose
                     ∧ info ∈ ContainerGroup.Containers g
                     ∧ listedAs c info
                     ∧ ∀ g', g' ∈ groups → ContainerGroup.Type_ g' = GroupTypeCompose →
                             ContainerGroup.ID g' = p → g' = g)
      ∧ (∀ c, c ∈ containers →
           composeLabel c = None ∨ composeLabel c = Some EmptyString →
           ∃ g info, g ∈ groups
                     ∧ ContainerGroup.ID g = types.Container.ID c
                     ∧ ContainerGroup.Type_ g = GroupTypeStandalone
                     ∧ ContainerGroup.Containers g = [info]
                     ∧ listedAs c info).
Proof.
  cbv zeta. split; [reflexivity|].
  apply (@GetContainerGroups_partition listingOrder unit
           (MockClient.client (Sample.pages [Sample.worker; Fixture.standalone; Fixture.web]))
           tt tt [Sample.worker; Fixture.standalone; Fixture.web]).
  reflexivity.
Defined.

(** ** Configuration capture *)

Section Capture.
Context `{GoRange}.

Lemma range_order_NoDup {V : Type} (m : gmap string V) : NoDup (range_order m).*1.
Proof. rewrite range_order_perm. apply NoDup_fst_map_to_list. Qed.

Lemma foldl_insert {V W : Type} (f : V → W) (l : list (string * V)) :
  NoDup l.*1 →
  foldl (λ dst kv, <[kv.1 := f kv.2]> dst) (∅ : gmap string W) l
  = list_to_map (prod_map id f <$> l).
Proof.
  induction l as [|[k v] l IH] using rev_ind; [done|].
  rewrite fmap_app, NoDup_app. intros (Hl & Hk & _).
  rewrite foldl_app, fmap_app. cbn. rewrite (IH Hl), list_to_map_snoc; [done|].
  rewrite <- list_fmap_compose. intros Hin. apply (Hk k Hin).
  by apply list_elem_of_singleton.
Qed.

(** Copying a map entry by entry yields the map, whatever the order. *)
Lemma copyMap_fmap {V W : Type} (f : V → W) (m : gmap string V) : copyMap f m = f <$> m.
Proof.
  unfold copyMap. rewrite foldl_insert by apply range_order_NoDup.
  rewrite <- (list_to_map_to_list m) at 2. rewrite <- list_to_map_fmap.
  apply list_to_map_proper.
  - rewrite <- list_fmap_compose. apply range_order_NoDup.
  - by rewrite range_order_perm.
Qed.

Lemma copyMap_id {V : Type} (m : gmap string V) : copyMap id m = m.
Proof. rewrite copyMap_fmap. apply map_fmap_id. Qed.

Lemma rangeKeys_perm {V : Type} (m : gmap string V) : rangeKeys m ≡ₚ (map_to_list m).*1.
Proof. unfold rangeKeys. by rewrite range_order_perm. Qed.
End Capture.

(** C5: [ExtractContainerParams] returns an error, and with it no snapshot,
    exactly when the primary or the host configuration is missing; otherwise
    it returns a snapshot whose port bindings, binds and network names are
    collections that exist, empty where the record has none, whose name is the
    record's without its leading slash, and whose other fields are the
    record's. *)
Theorem ExtractContainerParams_total `{GoRange} (containerJSON : types.ContainerJSON.t) :
  ((∃ err, ExtractContainerParams containerJSON = Err err)
     ↔ types.ContainerJSON.Config containerJSON = None
       ∨ types.ContainerJSON.HostConfig containerJSON = None)
  ∧ (∀ config hostConfig,
       types.ContainerJSON.Config containerJSON = Some config →
       types.ContainerJSON.HostConfig containerJSON = Some hostConfig →
       ∃ params networks,
         ExtractContainerParams containerJSON = Ok params
         ∧ ContainerParams.Name params
             = strings.TrimPrefix (types.ContainerJSON.Name containerJSON) "/"
         ∧ (∀ name, types.ContainerJSON.Name containerJSON = "/" +:+ name →
              ContainerParams.Name params = name)
         ∧ (strings.HasPrefix (types.ContainerJSON.Name containerJSON) "/" = false →
              ContainerParams.Name params = types.ContainerJSON.Name containerJSON)
         ∧ ContainerParams.PortBindings params
             = Some (default ∅ (container.HostConfig.PortBindings hostConfig))
         ∧ ContainerParams.Binds params
             = Some (default [] (container.HostConfig.Binds hostConfig))
         ∧ ContainerParams.Networks params = Some networks
         ∧ networks ≡ₚ (map_to_list (networksOf containerJSON)).*1
         ∧ ContainerParams.Image params = container.Config.Image config
         ∧ ContainerParams.Env params = container.Config.Env config
         ∧ ContainerParams.Cmd params = container.Config.Cmd config
         ∧ ContainerParams.Entrypoint params = container.Config.Entrypoint config
         ∧ ContainerParams.Labels params = container.Config.Labels config
         ∧ ContainerParams.RestartPolicy params = container.HostConfig.RestartPolicy hostConfig
         ∧ ContainerParams.Resources params = container.HostConfig.Resources hostConfig).
Proof.
  unfold ExtractContainerParams. split.
  - destruct (types.ContainerJSON.Config containerJSON) as [config|];
      [destruct (types.ContainerJSON.HostConfig containerJSON) as [hostConfig|]|].
    + split; [by intros [err ?]|by intros [|]].
    + split; eauto.
    + split; eauto.
  - intros config hostConfig -> ->. eexists _, _. split; [done|]. cbn.
    repeat split.
    + intros name ->. apply TrimPrefix_slash.
  + apply TrimPrefix_other.
    + destruct (container.HostConfig.PortBindings hostConfig); cbn; [|done].
      by rewrite copyMap_id.
    + unfold networksOf.
      destruct (types.ContainerJSON.NetworkSettings containerJSON) as [settings|]; cbn;
        [|by rewrite map_to_list_empty].
      destruct (types.NetworkSettings.Networks settings) as [nets|]; cbn;
        [|by rewrite map_to_list_empty].
      apply rangeKeys_perm.
Qed.

(** ** The standalone update *)

Lemma UpdateStandaloneContainer_runs `{GoRange} {S : Type} (client : DockerClient S)
    (containerID : string) (w : World S) :
  ∃ events,
    trace (UpdateStandaloneContainer client containerID w).2 = trace w ++ events
    ∧ StandaloneRun containerID (InspectContainer client containerID (runtime w)).1
        (UpdateStandaloneContainer client containerID w).1 events.
Proof.
  unfold UpdateStandaloneContainer. unfold_op.
  destruct (InspectContainer client containerID (runtime w)) as [[containerJSON|cause] s1];
    unfold_op.
  2: { eexists. split; [done|]. by constructor. }
  destruct (ExtractContainerParams containerJSON) as [params|cause] eqn:Hparams; unfold_op.
  2: { eexists. split; [done|]. by econstructor. }
  assert (∀ r (called : list Event),
            (∃ events, called = (trace w ++ [InspectContainerCall containerID true])
                                  ++ events
                       ∧ RecreateRun containerID params r events) →
            ∃ events, called = trace w ++ events
                      ∧ StandaloneRun containerID (Ok containerJSON) r events) as Hrest.
  { intros r called (events & -> & Hrun). eexists. rewrite <- (assoc (++)). split; [done|].
    by econstructor. }
  repeat next_answer.
  all: apply Hrest; eexists; (split; [rewrite <- !(assoc (++)); cbn; reflexivity|]).
  all: econstructor; constructor.
Qed.

(** The update whose calls the runtime all answers without error: the six
    calls are made, each in the state the one before left, the container
    started being the one the runtime created. *)
Lemma UpdateStandaloneContainer_completes `{GoRange} {S : Type} (client : DockerClient S)
    (containerID : string) (w : World S) (containerJSON : types.ContainerJSON.t)
    (params : ContainerParams.t) (config : container.Config.t)
    (hostConfig : container.HostConfig.t) (newContainerID : string) (s1 s2 s3 s4 s5 s6 : S) :
  InspectContainer client containerID (runtime w) = (Ok containerJSON, s1) →
  ExtractContainerParams containerJSON = Ok params →
  PullImage client (ContainerParams.Image params) s1 = (None, s2) →
  StopContainer client containerID s2 = (None, s3) →
  RemoveContainer client containerID s3 = (None, s4) →
  recreates params config hostConfig →
  CreateContainer client config hostConfig (ContainerParams.Name params) s4
    = (Ok newContainerID, s5) →
  StartContainer client newContainerID s5 = (None, s6) →
  UpdateStandaloneContainer client containerID w
  = (None,
     {| runtime := s6;
        trace := trace w ++ [InspectContainerCall containerID true;
                             PullImageCall (ContainerParams.Image params) true;
                             StopContainerCall containerID true;
                             RemoveContainerCall containerID true;
                             CreateContainerCall config hostConfig
                               (ContainerParams.Name params) true;
                             StartContainerCall newContainerID true] |}).
Proof.
  intros Hinspect Hparams Hpull Hstop Hremove Hrecreates Hcreate Hstart.
  destruct Hrecreates. unfold UpdateStandaloneContainer. unfold_op.
  rewrite Hinspect. unfold_op. rewrite Hparams. unfold_op.
  rewrite Hpull. unfold_op. rewrite Hstop. unfold_op. rewrite Hremove. unfold_op.
  rewrite Hcreate. unfold_op. rewrite Hstart. unfold_op.
  by rewrite <- !(assoc (++)).
Qed.

(** C2: the calls of [UpdateStandaloneContainer] are an initial part of
    inspect, pull, stop, remove, create, start, in this order (the snapshot
    is extracted between inspect and pull); a call that fails is the last one
    made and the error returned names its step and its target; an error
    after calls that all succeeded is that of the extraction, which then
    failed on the inspected record after the inspection alone; without error
    all six calls were made; when the runtime answers every call without
    error and the extraction succeeds, the six calls are made and no error
    is returned; the container inspected, stopped and removed is the one
    asked for, the image pulled is the snapshot's, and the container is
    created under the snapshot's name from the snapshot's configuration.
    So: no create after a failed pull, a successful stop before every
    remove, a successful remove before every create. *)
Theorem UpdateStandaloneContainer_sequence `{GoRange} {S : Type} (client : DockerClient S)
    (containerID : string) (w : World S) :
  let result := (UpdateStandaloneContainer client containerID w).1 in
  ∃ events,
    trace (UpdateStandaloneContainer client containerID w).2 = trace w ++ events
    ∧ stepOf <$> events `prefix_of` updateSteps
    ∧ (∀ i e, events !! i = Some e → succeeded e = false →
         length events = i + 1 ∧ ∃ cause, result = Some (standaloneFailure e cause))
    ∧ (∀ err, result = Some err → Forall (λ e, succeeded e = true) events →
         events = [InspectContainerCall containerID true]
         ∧ ∃ containerJSON cause,
             (InspectContainer client containerID (runtime w)).1 = Ok containerJSON
             ∧ ExtractContainerParams containerJSON = Err cause
             ∧ err = "failed to extract container parameters for "
                       +:+ containerID +:+ ": " +:+ cause)
    ∧ (result = None →
         stepOf <$> events = updateSteps ∧ Forall (λ e, succeeded e = true) events)
    ∧ (∀ containerJSON params config hostConfig newContainerID s1 s2 s3 s4 s5 s6,
         InspectContainer client containerID (runtime w) = (Ok containerJSON, s1) →
         ExtractContainerParams containerJSON = Ok params →
         PullImage client (ContainerParams.Image params) s1 = (None, s2) →
         StopContainer client containerID s2 = (None, s3) →
         RemoveContainer client containerID s3 = (None, s4) →
         recreates params config hostConfig →
         CreateContainer client config hostConfig (ContainerParams.Name params) s4
           = (Ok newContainerID, s5) →
         StartContainer client newContainerID s5 = (None, s6) →
         result = None
         ∧ runtime (UpdateStandaloneContainer client containerID w).2 = s6
         ∧ events = [InspectContainerCall containerID true;
                     PullImageCall (ContainerParams.Image params) true;
                     StopContainerCall containerID true;
                     RemoveContainerCall containerID true;
                     CreateContainerCall config hostConfig (ContainerParams.Name params) true;
                     StartContainerCall newContainerID true])
    ∧ (∀ e, e ∈ events →
         match e with
         | InspectContainerCall id _ | StopContainerCall id _ | RemoveContainerCall id _ =>
             id = containerID
         | _ => True
         end)
    ∧ (∀ image, PullImageCall image false ∈ events →
         ∀ e, e ∈ events → stepOf e ≠ Create)
    ∧ (∀ j e, events !! j = Some e → stepOf e = Remove →
         ∃ i, i < j ∧ events !! i = Some (StopContainerCall containerID true))
    ∧ (∀ j e, events !! j = Some e → stepOf e = Create →
         ∃ i, i < j ∧ events !! i = Some (RemoveContainerCall containerID true))
    ∧ (∀ e, e ∈ events → stepOf e = PullLatest ∨ stepOf e = Create →
         ∃ containerJSON params,
           (InspectContainer client containerID (runtime w)).1 = Ok containerJSON
           ∧ ExtractContainerParams containerJSON = Ok params
           ∧ match e with
             | PullImageCall image _ => image = ContainerParams.Image params
             | CreateContainerCall config hostConfig name _ =>
                 name = ContainerParams.Name params ∧ recreates params config hostConfig
             | _ => True
             end).
Proof.
  intros result. subst result.
  destruct (UpdateStandaloneContainer_runs client containerID w) as (events & Htrace & Hrun).
  exists events. split; [done|].
  pose proof (UpdateStandaloneContainer_completes client containerID w) as Hcompletes.
  destruct (UpdateStandaloneContainer client containerID w) as [result w'].
  cbn [fst snd] in *.
  assert (∀ containerJSON params config hostConfig newContainerID s1 s2 s3 s4 s5 s6,
            InspectContainer client containerID (runtime w) = (Ok containerJSON, s1) →
            ExtractContainerParams containerJSON = Ok params →
            PullImage client (ContainerParams.Image params) s1 = (None, s2) →
            StopContainer client containerID s2 = (None, s3) →
            RemoveContainer client containerID s3 = (None, s4) →
            recreates params config hostConfig →
            CreateContainer client config hostConfig (ContainerParams.Name params) s4
              = (Ok newContainerID, s5) →
            StartContainer client newContainerID s5 = (None, s6) →
            result = None
            ∧ runtime w' = s6
            ∧ events = [InspectContainerCall containerID true;
                        PullImageCall (ContainerParams.Image params) true;
                        StopContainerCall containerID true;
                        RemoveContainerCall containerID true;
                        CreateContainerCall config hostConfig
                          (ContainerParams.Name params) true;
                        StartContainerCall newContainerID true]) as Hhappy.
  { intros containerJSON params config hostConfig newContainerID s1 s2 s3 s4 s5 s6
      Hinspect Hparams Hpull Hstop Hremove Hrecreates Hcreate Hstart.
    specialize (Hcompletes _ _ _ _ _ _ _ _ _ _ _ Hinspect Hparams Hpull Hstop Hremove
                  Hrecreates Hcreate Hstart).
    injection Hcompletes as -> ->. cbn [runtime trace] in Htrace.
    split; [done|]. split; [done|]. by apply app_inv_head in Htrace. }
  clear Htrace Hcompletes. revert Hhappy.
  invert_run; cbn [fmap list_fmap stepOf]; intros Hhappy.
  all: split; [by eexists|].
  all: split; [solve [intros idx ev Hi Hev; each_index idx;
                      (split; [done|eexists; reflexivity])]|].
  all: split; [solve [intros err Herr Hall; simplify_eq;
                      repeat (apply Forall_cons in Hall as [? Hall]; try done);
                      (split; [done|]); eexists _, _;
                      (split; [eassumption|]); (split; [eassumption|reflexivity])]|].
  all: split; [solve [intros Hnone; simplify_eq; (split; [done|by repeat constructor])]|].
  all: split; [exact Hhappy|]; clear Hhappy.
  all: split; [solve [intros ev Hev;
                      repeat (apply elem_of_cons in Hev as [->|Hev]; [done|]);
                      by apply elem_of_nil in Hev]|].
  all: split; [solve [intros image Hp ev Hev;
                      repeat (apply elem_of_cons in Hp as [Hp|Hp]; [by simplify_eq|]);
                      try (by apply elem_of_nil in Hp);
                      repeat (apply elem_of_cons in Hev as [->|Hev]; [done|]);
                      by apply elem_of_nil in Hev]|].
  all: split; [solve [intros idx ev Hi Hev; each_index idx; exists 2; (split; [lia|done])]|].
  all: split; [solve [intros idx ev Hi Hev; each_index idx; exists 3; (split; [lia|done])]|].
  all: intros ev Hev [Hstep|Hstep];
    repeat (apply elem_of_cons in Hev as [->|Hev]; [try discriminate Hstep|]);
    try (by apply elem_of_nil in Hev).
  all: eexists _, _; (split; [eassumption|]); (split; [eassumption|]); by cbn.
Qed.

Lemma exposedPortsOf_fmap `{GoRange} (portBindings : nat_.PortMap) :
  exposedPortsOf portBindings = (λ _, tt) <$> default ∅ portBindings.
Proof.
  destruct portBindings as [bindings|]; cbn.
  - apply copyMap_fmap.
  - by rewrite fmap_empty.
Qed.

(** C10: whenever [UpdateStandaloneContainer] calls [CreateContainer], the
    snapshot extracted from the inspected record supplies the name and, field
    by field, both records of the call: image, environment, command,
    entrypoint and labels, the port bindings, binds, restart policy and
    resources; the exposed ports are the keys of the port bindings.  No field
    is taken from the snapshot's network names: with other network names the
    call would be the same. *)
Theorem UpdateStandaloneContainer_creates `{GoRange} {S : Type} (client : DockerClient S)
    (containerID : string) (w : World S) :
  ∃ events,
    trace (UpdateStandaloneContainer client containerID w).2 = trace w ++ events
    ∧ ∀ config hostConfig name ok,
        CreateContainerCall config hostConfig name ok ∈ events →
        ∃ containerJSON params,
          (InspectContainer client containerID (runtime w)).1 = Ok containerJSON
          ∧ ExtractContainerParams containerJSON = Ok params
          ∧ name = ContainerParams.Name params
          ∧ container.Config.Image config = ContainerParams.Image params
          ∧ container.Config.Env config = ContainerParams.Env params
          ∧ container.Config.Cmd config = ContainerParams.Cmd params
          ∧ container.Config.Entrypoint config = ContainerParams.Entrypoint params
          ∧ container.Config.Labels config = ContainerParams.Labels params
          ∧ container.Config.ExposedPorts config
              = Some ((λ _, tt) <$> default ∅ (ContainerParams.PortBindings params))
          ∧ container.HostConfig.Binds hostConfig = ContainerParams.Binds params
          ∧ container.HostConfig.PortBindings hostConfig = ContainerParams.PortBindings params
          ∧ container.HostConfig.RestartPolicy hostConfig = ContainerParams.RestartPolicy params
          ∧ container.HostConfig.Resources hostConfig = ContainerParams.Resources params
          ∧ ∀ networks, recreates (withNetworks networks params) config hostConfig.
Proof.
  destruct (UpdateStandaloneContainer_runs client containerID w) as (events & Htrace & Hrun).
  exists events. split; [done|].
  destruct (UpdateStandaloneContainer client containerID w) as [result w'].
  cbn [fst snd] in *. clear Htrace.
  intros config hostConfig name ok Hcreate.
  assert (∀ params config' hostConfig' ok',
            recreates params config' hostConfig' →
            CreateContainerCall config hostConfig name ok
              = CreateContainerCall config' hostConfig' (ContainerParams.Name params) ok' →
            name = ContainerParams.Name params
            ∧ container.Config.Image config = ContainerParams.Image params
            ∧ container.Config.Env config = ContainerParams.Env params
            ∧ container.Config.Cmd config = ContainerParams.Cmd params
            ∧ container.Config.Entrypoint config = ContainerParams.Entrypoint params
            ∧ container.Config.Labels config = ContainerParams.Labels params
            ∧ container.Config.ExposedPorts config
                = Some ((λ _, tt) <$> default ∅ (ContainerParams.PortBindings params))
            ∧ container.HostConfig.Binds hostConfig = ContainerParams.Binds params
            ∧ container.HostConfig.PortBindings hostConfig
                = ContainerParams.PortBindings params
            ∧ container.HostConfig.RestartPolicy hostConfig
                = ContainerParams.RestartPolicy params
            ∧ container.HostConfig.Resources hostConfig = ContainerParams.Resources params
            ∧ ∀ networks, recreates (withNetworks networks params) config hostConfig)
    as Hfields.
  { intros params config' hostConfig' ok' Hrec [= -> -> -> _]. destruct Hrec. cbn.
    rewrite exposedPortsOf_fmap. repeat split. intros networks.
    rewrite <- exposedPortsOf_fmap. apply (recreates_intro (withNetworks networks params)). }
  invert_run.
  all: repeat (apply elem_of_cons in Hcreate as [Hcreate|Hcreate]; [try done|]).
  all: try (by apply elem_of_nil in Hcreate).
  all: eexists _, _; split; [done|]; split; [done|]; eapply Hfields; [eassumption|exact Hcreate].
Qed.

(** The successful update and the failed pull of the tests, call by call. *)
Example UpdateStandaloneContainer_successful_update :
  @UpdateStandaloneContainer listingOrder unit (MockClient.client (Fixture.updating None))
     "container123" Fixture.fresh
  = (None,
     {| runtime := tt;
        trace := [InspectContainerCall "container123" true;
                  PullImageCall "nginx:latest" true;
                  StopContainerCall "container123" true;
                  RemoveContainerCall "container123" true;
                  CreateContainerCall Fixture.recreatedConfig Fixture.recreatedHostConfig
                    "test-container" true;
                  StartContainerCall "new-container-id" true] |}).
Proof. by vm_compute. Qed.

Example UpdateStandaloneContainer_pull_fails :
  @UpdateStandaloneContainer listingOrder unit
     (MockClient.client (Fixture.updating (Some "failed to pull image")))
     "container123" Fixture.fresh
  = (Some "failed to pull latest image nginx:latest: failed to pull image",
     {| runtime := tt;
        trace := [InspectContainerCall "container123" true;
                  PullImageCall "nginx:latest" false] |}).
Proof. by vm_compute. Qed.

(** ** The compose update *)

Section Compose.
Context {S : Type} (client : DockerClient S) (CombinedOutput : Launcher S).

(** The loop of pulls either pulls every image, or stops at the first
    image whose pull fails. *)
Lemma pullImages_runs (projectName : string) (containerImages : list string)
    (w : World S) :
  let r := pullImages client projectName containerImages w in
  (r.1 = Ok tt
   ∧ trace r.2 = trace w ++ (pullCall <$> ((λ image, (image, true)) <$> containerImages)))
  ∨ (∃ before image after cause,
       containerImages = before ++ image :: after
       ∧ r.1 = Err (composePullFailure projectName image cause)
       ∧ trace r.2 = trace w ++ (pullCall <$> (((λ image, (image, true)) <$> before)
                                             ++ [(image, false)]))).
Proof.
  revert w. induction containerImages as [|image images IH]; intros w; cbn.
  { left. by rewrite app_nil_r. }
  unfold_op. destruct (PullImage client image (runtime w)) as [[cause|] s1]; unfold_op.
  - right. by exists [], image, images, cause.
  - match goal with |- context [pullImages _ _ _ ?w1] => destruct (IH w1) as [[Hr Ht]|Hfail] end.
    + left. split; [done|]. rewrite Ht. cbn. by rewrite <- (assoc (++)).
    + destruct Hfail as (before & image' & after & cause & -> & Hr & Ht).
      right. exists (image :: before), image', after, cause. split; [done|].
      split; [done|]. rewrite Ht. cbn. by rewrite <- (assoc (++)).
Qed.

End Compose.

(** A tear-down that fails: the captured output is in the error, and the
    bring-up is not run.  Without a working directory nothing is called. *)
Example UpdateComposeProject_down_fails :
  UpdateComposeProject (MockClient.client MockClient.zero) Fixture.downFails
    "myapp" "/home/user/app" ["nginx:latest"] Fixture.fresh
  = (Some ("failed to execute 'docker compose down' for project myapp: exit status 1"
             +:+ LF +:+ "Output: no configuration file provided"),
     {| runtime := tt;
        trace := [PullImageCall "nginx:latest" true;
                  CombinedOutputCall (composeDown "/home/user/app") false] |}).
Proof. by vm_compute. Qed.

Example UpdateComposeProject_missing_working_directory :
  UpdateComposeProject (MockClient.client MockClient.zero) Fixture.downFails
    "myapp" EmptyString ["nginx:latest"] Fixture.fresh
  = (Some "working directory is required for compose project myapp", Fixture.fresh).
Proof. by vm_compute. Qed.

(** ** Update detection *)

Section Detection.
Context {S : Type} (client : DockerClient S).

Implicit Types (a : Check.addr) (st : Check.State S) (gs : list ContainerGroup.t).

(** *** Reading and writing through a pointer *)

Lemma deref_assign_eq f a gs : Check.deref (Check.assign f a gs) a = f <$> Check.deref gs a.
Proof.
  unfold Check.deref, Check.assign. rewrite list_lookup_alter_eq.
  destruct (gs !! a.1) as [g|]; cbn; [|done]. by rewrite list_lookup_alter_eq.
Qed.

Lemma deref_assign_ne f a a' gs :
  a ≠ a' → Check.deref (Check.assign f a' gs) a = Check.deref gs a.
Proof.
  intros Hne. unfold Check.deref, Check.assign.
  destruct (decide (a'.1 = a.1)) as [Heq|Hne1].
  - rewrite Heq, list_lookup_alter_eq. destruct (gs !! a.1) as [g|]; cbn; [|done].
    apply list_lookup_alter_ne. intros Heq2. apply Hne.
    destruct a, a'; cbn in *; congruence.
  - by rewrite list_lookup_alter_ne.
Qed.

Lemma own_app a l1 l2 : Check.own a (l1 ++ l2) = Check.own a l1 ++ Check.own a l2.
Proof. unfold Check.own. by rewrite filter_app, fmap_app. Qed.

Lemma own_mine a (evs : list Check.Ev) : Check.own a ((λ e, (a, e)) <$> evs) = evs.
Proof.
  unfold Check.own. induction evs as [|e evs IH]; [done|].
  rewrite fmap_cons, filter_cons_True by done. by rewrite fmap_cons, IH.
Qed.

Lemma own_other a a' (evs : list Check.Ev) :
  a ≠ a' → Check.own a ((λ e, (a', e)) <$> evs) = [].
Proof.
  intros Hne. unfold Check.own. induction evs as [|e evs IH]; [done|].
  by rewrite fmap_cons, filter_cons_False by (cbn; congruence).
Qed.

(** *** One step of a goroutine *)

(** A step of the goroutine at [a] changes its own program counter and
    container and adds its own events, in keeping with [Progress]. *)
Lemma stepAt_progress a pc c c0 h st :
  Progress c0 pc c h → pc ≠ Check.Done →
  ∃ pc' f evs,
    Check.goroutines (Check.stepAt client a pc c st) = <[a := pc']> (Check.goroutines st)
    ∧ Check.groups (Check.stepAt client a pc c st) = Check.assign f a (Check.groups st)
    ∧ Check.log (Check.stepAt client a pc c st) = Check.log st ++ ((λ e, (a, e)) <$> evs)
    ∧ Progress c0 pc' (f c) (h ++ evs).
Proof.
  intros Hp Hpc. inversion Hp; subst; try done; cbn [Check.stepAt].
  - (* Start *)
    destruct (isLocalImage (ContainerInfo.Image c)) eqn:Hlocal.
    + eexists _, _, _. repeat split. by constructor.
    + destruct (Check.imageDigests st !! ContainerInfo.Image c) as [latestDigest|].
      * eexists _, _, _. repeat split. constructor. by left.
      * eexists _, _, _. repeat split. constructor.
  - (* Pull *)
    destruct (PullImage client _ _) as [[err|] s'];
      eexists _, _, _; repeat split; constructor.
  - (* GetLatest *)
    destruct (GetImageDigest client _ _) as [[digest|err] s'];
      eexists _, _, _; repeat split; constructor.
  - (* Store *)
    eexists _, _, _. repeat split. constructor. by right.
  - (* GetCurrent *)
    destruct (GetImageDigest client _ _) as [[currentDigest|err] s'];
      eexists _, _, _; repeat split; by econstructor.
  - (* Write *)
    eexists _, _, _. repeat split. rewrite app_nil_r. by constructor.
Qed.

(** The shape of a step, whatever the goroutine's past. *)
Lemma stepAt_shape a pc c st :
  pc ≠ Check.Done →
  ∃ pc' f evs,
    Check.goroutines (Check.stepAt client a pc c st) = <[a := pc']> (Check.goroutines st)
    ∧ Check.groups (Check.stepAt client a pc c st) = Check.assign f a (Check.groups st)
    ∧ Check.log (Check.stepAt client a pc c st) = Check.log st ++ ((λ e, (a, e)) <$> evs)
    ∧ remaining pc' < remaining pc.
Proof.
  intros Hpc. destruct pc; try done; cbn [Check.stepAt].
  - destruct (isLocalImage _); [|destruct (Check.imageDigests st !! _)];
      eexists _, _, _; repeat split; cbn; lia.
  - destruct (PullImage client _ _) as [[err|] s'];
      eexists _, _, _; repeat split; cbn; lia.
  - destruct (GetImageDigest client _ _) as [[digest|err] s'];
      eexists _, _, _; repeat split; cbn; lia.
  - eexists _, _, _; repeat split; cbn; lia.
  - destruct (GetImageDigest client _ _) as [[digest|err] s'];
      eexists _, _, _; repeat split; cbn; lia.
  - eexists _, _, _; repeat split; cbn; lia.
Qed.

(** A step leaves the other goroutines where they are. *)
Lemma step_goroutines_ne st a a' :
  a ≠ a' → Check.goroutines (Check.step client st a') !! a = Check.goroutines st !! a.
Proof.
  intros Hne. unfold Check.step.
  destruct (Check.goroutines st !! a') as [pc|]; [|done].
  destruct (Check.deref (Check.groups st) a') as [c|]; [|done].
  destruct (decide (pc = Check.Done)) as [->|Hpc]; [done|].
  destruct (stepAt_shape a' pc c st Hpc) as (pc' & f & evs & -> & _).
  by rewrite lookup_insert_ne.
Qed.

Lemma step_Done st a a' :
  Check.goroutines st !! a = Some Check.Done →
  Check.goroutines (Check.step client st a') !! a = Some Check.Done.
Proof.
  intros Hdone. destruct (decide (a = a')) as [<-|Hne].
  - unfold Check.step. rewrite Hdone. by destruct (Check.deref _ _).
  - by rewrite step_goroutines_ne.
Qed.

(** *** The invariant *)

Lemma addresses_deref gs a : a ∈ Check.addresses gs ↔ is_Some (Check.deref gs a).
Proof.
  unfold Check.addresses, Check.deref. rewrite list_elem_of_join. split.
  - intros (l & Ha & Hl). apply elem_of_lookup_imap in Hl as (i & g & -> & Hg).
    apply list_elem_of_fmap in Ha as (j & -> & Hj). apply elem_of_seq in Hj.
    cbn. rewrite Hg. cbn. apply lookup_lt_is_Some. lia.
  - destruct a as [i j]. cbn. destruct (gs !! i) as [g|] eqn:Hg; cbn; [|by intros [? ?]].
    intros Hj%lookup_lt_is_Some.
    exists ((λ j, (i, j)) <$> seq 0 (length (ContainerGroup.Containers g))). split.
    + apply list_elem_of_fmap. exists j. split; [done|]. apply elem_of_seq. lia.
    + apply elem_of_lookup_imap. by exists i, g.
Qed.

Lemma Consistent_init (s : S) gs : Consistent gs (Check.init s gs).
Proof.
  intros a. cbn.
  destruct (list_to_map _ !! a) as [pc|] eqn:Hpc.
  - apply elem_of_list_to_map_2, list_elem_of_fmap in Hpc as (a' & [= <- ->] & Ha).
    apply addresses_deref in Ha as [c Hc]. exists c, c. repeat split; try done. constructor.
  - apply not_elem_of_list_to_map in Hpc. rewrite <- list_fmap_compose in Hpc.
    cbn in Hpc. rewrite list_fmap_id in Hpc.
    destruct (Check.deref gs a) eqn:Hc; [|done].
    exfalso. apply Hpc, addresses_deref. by rewrite Hc.
Qed.

Lemma Consistent_step gs0 st a' :
  Consistent gs0 st → Consistent gs0 (Check.step client st a').
Proof.
  intros Hinv. unfold Check.step.
  destruct (Check.goroutines st !! a') as [pc|] eqn:Hpc; [|done].
  destruct (Check.deref (Check.groups st) a') as [c|] eqn:Hc; [|done].
  destruct (decide (pc = Check.Done)) as [->|Hnd]; [done|].
  pose proof (Hinv a') as Ha'. rewrite Hpc in Ha'.
  destruct Ha' as (c0 & c1 & Hc0 & Hc1 & Hprog). rewrite Hc in Hc1. injection Hc1 as <-.
  destruct (stepAt_progress a' pc c c0 _ st Hprog Hnd)
    as (pc' & f & evs & Hg & Hgs & Hlog & Hprog').
  intros a. rewrite Hg, Hgs, Hlog, own_app.
  destruct (decide (a = a')) as [->|Hne].
  - rewrite lookup_insert_eq, deref_assign_eq, Hc, own_mine. by exists c0, (f c).
  - rewrite lookup_insert_ne, deref_assign_ne, own_other, app_nil_r by done. apply Hinv.
Qed.

Lemma Consistent_run gs0 schedule st :
  Consistent gs0 st → Consistent gs0 (Check.run client schedule st).
Proof.
  revert st. induction schedule as [|a schedule IH]; intros st Hinv; [done|].
  cbn. by apply IH, Consistent_step.
Qed.

(** *** Every goroutine returns *)

Lemma step_remaining gs0 st a pc :
  Consistent gs0 st → Check.goroutines st !! a = Some pc →
  ∃ pc', Check.goroutines (Check.step client st a) !! a = Some pc'
         ∧ (remaining pc' ≤ pred (remaining pc))%nat.
Proof.
  intros Hinv Hpc. pose proof (Hinv a) as Ha. rewrite Hpc in Ha.
  destruct Ha as (c0 & c & _ & Hc & _). unfold Check.step. rewrite Hpc, Hc.
  destruct (decide (pc = Check.Done)) as [->|Hnd]; [by exists Check.Done|].
  destruct (stepAt_shape a pc c st Hnd) as (pc' & f & evs & -> & _ & _ & Hlt).
  exists pc'. rewrite lookup_insert_eq. split; [done|lia].
Qed.

Lemma run_replicate gs0 n st a pc :
  Consistent gs0 st → Check.goroutines st !! a = Some pc → (remaining pc ≤ n)%nat →
  Check.goroutines (Check.run client (replicate n a) st) !! a = Some Check.Done.
Proof.
  revert st pc. induction n as [|n IH]; intros st pc Hinv Hpc Hn.
  - cbn. destruct pc; cbn in Hn; by try lia.
  - cbn. destruct (step_remaining gs0 st a pc Hinv Hpc) as (pc' & Hpc' & Hle).
    eapply IH; [by apply Consistent_step|done|lia].
Qed.

Lemma run_Done schedule st a :
  Check.goroutines st !! a = Some Check.Done →
  Check.goroutines (Check.run client schedule st) !! a = Some Check.Done.
Proof.
  revert st. induction schedule as [|a' schedule IH]; intros st Hdone; [done|].
  cbn. by apply IH, step_Done.
Qed.

Lemma run_app schedule1 schedule2 st :
  Check.run client (schedule1 ++ schedule2) st
  = Check.run client schedule2 (Check.run client schedule1 st).
Proof. apply foldl_app. Qed.

Lemma run_each gs0 (todo : list Check.addr) st :
  Consistent gs0 st →
  (∀ a, a ∈ todo → is_Some (Check.deref gs0 a)) →
  ∀ a, a ∈ todo →
    Check.goroutines (Check.run client (todo ≫= replicate 6) st) !! a = Some Check.Done.
Proof.
  revert st. induction todo as [|a0 todo IH]; intros st Hinv Htodo a Ha.
  { by apply elem_of_nil in Ha. }
  change ((a0 :: todo) ≫= replicate 6) with (replicate 6 a0 ++ (todo ≫= replicate 6)).
  rewrite run_app.
  assert (Check.goroutines (Check.run client (replicate 6 a0) st) !! a0 = Some Check.Done)
    as Hdone.
  { destruct (Htodo a0) as [c0 Hc0]; [by left|].
    pose proof (Hinv a0) as Ha0.
    destruct (Check.goroutines st !! a0) as [pc|] eqn:Hpc; [|congruence].
    eapply run_replicate; [done..|]. destruct pc; cbn; lia. }
  apply elem_of_cons in Ha as [->|Ha].
  - by apply run_Done.
  - apply IH; [by apply Consistent_run| |done].
    intros a' Ha'. apply Htodo. by right.
Qed.

(** Under the sequential schedule every goroutine has returned. *)
Lemma sequential_allDone (s : S) gs :
  Check.allDone (Check.run client (sequential gs) (Check.init s gs)) = true.
Proof.
  apply bool_decide_eq_true_2. intros a pc Hpc.
  pose proof (Consistent_run gs (sequential gs) _ (Consistent_init s gs) a) as Ha.
  rewrite Hpc in Ha. destruct Ha as (c0 & c & Hc0 & _).
  assert (a ∈ Check.addresses gs) as Hin by (apply addresses_deref; by rewrite Hc0).
  pose proof (run_each gs (Check.addresses gs) _ (Consistent_init s gs)
                (λ a, proj1 (addresses_deref gs a)) a Hin) as Hdone.
  unfold sequential in Hpc. congruence.
Qed.

Lemma deref_rollUp gs a : Check.deref (Check.rollUp <$> gs) a = Check.deref gs a.
Proof.
  unfold Check.deref. rewrite list_lookup_fmap. by destruct (gs !! a.1).
Qed.

(** What [CheckUpdates] returns, and how each container fared: the common
    ground of the properties below. *)
Lemma CheckUpdates_outcome schedule (s s' : S) gs gs' err :
  CheckUpdates schedule client s gs = Some (err, gs', s') →
  let st := Check.run client schedule (Check.init s gs) in
  err = None
  ∧ gs' = Check.rollUp <$> Check.groups st
  ∧ ∀ a c0, Check.deref gs a = Some c0 →
      ∃ c', Check.deref gs' a = Some c' ∧ Progress c0 Check.Done c' (Check.own a (Check.log st)).
Proof.
  intros Hret st. unfold CheckUpdates in Hret. fold st in Hret. cbn zeta in Hret.
  destruct (Check.allDone st) eqn:Hdone; [|done]. injection Hret as <- <- <-.
  split; [done|]. split; [done|]. intros a c0 Hc0.
  pose proof (Consistent_run gs schedule _ (Consistent_init s gs) a) as Ha. fold st in Ha.
  apply bool_decide_eq_true_1 in Hdone.
  destruct (Check.goroutines st !! a) as [pc|] eqn:Hpc; [|congruence].
  apply Hdone in Hpc as ->. destruct Ha as (c0' & c & Hc0' & Hc & Hprog).
  rewrite Hc0 in Hc0'. injection Hc0' as <-. exists c. by rewrite deref_rollUp.
Qed.
End Detection.

Lemma resolvedLatest_not_failed imageName latestDigest h :
  resolvedLatest imageName latestDigest h → ¬ failedCheck imageName h.
Proof.
  intros [->| ->] [Hf|[[err Hf]|[err Hf]]];
    repeat (apply elem_of_cons in Hf as [Hf|Hf]; [done|]); by apply elem_of_nil in Hf.
Qed.

Lemma resolvedLatest_unique imageName latest1 latest2 h :
  resolvedLatest imageName latest1 h → resolvedLatest imageName latest2 h → latest1 = latest2.
Proof. intros [->| ->] [?|?]; by simplify_eq. Qed.

Lemma anyUpdate_existsb cs :
  Check.anyUpdate cs = existsb ContainerInfo.HasUpdate cs.
Proof.
  unfold Check.anyUpdate.
  assert (∀ b, foldl (λ hasUpdates c, if ContainerInfo.HasUpdate c then true else hasUpdates)
                 b cs = b || existsb ContainerInfo.HasUpdate cs) as Hfold.
  { induction cs as [|c cs IH]; intros b; cbn; [by rewrite orb_false_r|].
    rewrite IH. by destruct (ContainerInfo.HasUpdate c), b. }
  apply Hfold.
Qed.

(** C7: when [CheckUpdates] has returned, the update flag of every group is
    set exactly when the flag of one of its members is; a group without
    members has it cleared. *)
Theorem CheckUpdates_rolls_up {S : Type} (client : DockerClient S)
    (schedule : list Check.addr) (s s' : S) (groups groups' : list ContainerGroup.t)
    (err : option error) :
  CheckUpdates schedule client s groups = Some (err, groups', s') →
  ∀ g, g ∈ groups' →
    (ContainerGroup.HasUpdates g = true
       ↔ ∃ c, c ∈ ContainerGroup.Containers g ∧ ContainerInfo.HasUpdate c = true)
    ∧ (ContainerGroup.Containers g = [] → ContainerGroup.HasUpdates g = false).
Proof.
  intros Hret g Hg.
  destruct (CheckUpdates_outcome client _ _ _ _ _ _ Hret) as (_ & -> & _).
  apply list_elem_of_fmap in Hg as (g0 & -> & _). cbn. rewrite anyUpdate_existsb. split.
  - rewrite existsb_exists. split; intros (c & Hc & Hu); exists c;
      (split; [by apply list_elem_of_In|done]).
  - by intros ->.
Qed.

Lemma CheckUpdates_rolls_up_witness :
  let client := MockClient.client Fixture.counting in
  let groups := Fixture.withEmpty in
  ∃ groups' s',
    CheckUpdates (sequential groups) client ∅ groups = Some (None, groups', s')
    ∧ ∀ g, g ∈ groups' →
        (ContainerGroup.HasUpdates g = true
           ↔ ∃ c, c ∈ ContainerGroup.Containers g ∧ ContainerInfo.HasUpdate c = true)
        ∧ (ContainerGroup.Containers g = [] → ContainerGroup.HasUpdates g = false).
Proof.
  cbv zeta. eexists _, _. split; [reflexivity|].
  exact (CheckUpdates_rolls_up (MockClient.client Fixture.counting)
           (sequential Fixture.withEmpty) ∅ _ Fixture.withEmpty _ None eq_refl).
Defined.

(** What the comparison compares.  In every execution of [CheckUpdates], for
    every container whose image is not local, the update flag is set exactly
    when the goroutine obtained the latest digest (read from the cache, or
    pulled, resolved and stored in it), then asked the runtime, in a later
    call of its own and by the same reference, for the digest of the
    container's image, and the two answers differ; and whenever that last call
    succeeded, the container holds both answers and the flag tells whether
    they differ. *)
Theorem CheckUpdates_compares {S : Type} (client : DockerClient S)
    (schedule : list Check.addr) (s s' : S) (groups groups' : list ContainerGroup.t)
    (err : option error) :
  CheckUpdates schedule client s groups = Some (err, groups', s') →
  let l := Check.log (Check.run client schedule (Check.init s groups)) in
  ∀ a c0, Check.deref groups a = Some c0 →
    isLocalImage (ContainerInfo.Image c0) = false →
    ∃ c', Check.deref groups' a = Some c'
      ∧ (ContainerInfo.HasUpdate c' = true
           ↔ ∃ currentDigest latestDigest h,
               Check.own a l
                 = h ++ [Check.CurrentDigest (ContainerInfo.Image c0) (Ok currentDigest)]
               ∧ resolvedLatest (ContainerInfo.Image c0) latestDigest h
               ∧ currentDigest ≠ latestDigest)
      ∧ (∀ currentDigest h,
           Check.own a l
             = h ++ [Check.CurrentDigest (ContainerInfo.Image c0) (Ok currentDigest)] →
           ∃ latestDigest,
             resolvedLatest (ContainerInfo.Image c0) latestDigest h
             ∧ ContainerInfo.ImageDigest c' = currentDigest
             ∧ ContainerInfo.LatestDigest c' = latestDigest
             ∧ ContainerInfo.HasUpdate c' = bool_decide (currentDigest ≠ latestDigest)).
Proof.
  intros Hret l a c0 Hc0 Hreg.
  destruct (CheckUpdates_outcome client _ _ _ _ _ _ Hret) as (_ & _ & Hout).
  destruct (Hout a c0 Hc0) as (c' & Hc' & Hprog). fold l in Hprog.
  exists c'. split; [done|].
  remember (Check.own a l) as own_a eqn:Hh.
  remember Check.Done as pc eqn:Hpc.
  destruct Hprog as [| | | | | |Hlocal| |e|latest h e Hres|cur latest h Hres];
    try discriminate Hpc; [congruence|..]; clear Hpc.
  - (* the pull failed *)
    split; [split; [done|]|].
    + intros (cur & latest & h & Hown & _). last_event Hown.
    + intros cur h Hown. last_event Hown.
  - (* the latest digest could not be resolved *)
    split; [split; [done|]|].
    + intros (cur & latest & h & Hown & _). last_event Hown.
    + intros cur h Hown. last_event Hown.
  - (* the current digest could not be resolved *)
    split; [split; [done|]|].
    + intros (cur & latest' & h' & Hown & _).
      by apply app_inj_tail in Hown as [_ ?].
    + intros cur h' Hown. by apply app_inj_tail in Hown as [_ ?].
  - (* both digests are known *)
    split; [split|].
    + cbn. intros Hdiff%bool_decide_eq_true_1. by exists cur, latest, h.
    + intros (cur' & latest' & h' & Hown & Hres' & Hdiff).
      apply app_inj_tail in Hown as [-> [= ->]].
      rewrite (resolvedLatest_unique _ _ _ _ Hres Hres'). cbn.
      by apply bool_decide_eq_true_2.
    + intros cur' h' Hown. apply app_inj_tail in Hown as [-> [= ->]]. by exists latest.
Qed.

Example CheckUpdates_compares_update_available :
  let client := MockClient.client Fixture.counting in
  let groups := Fixture.oneNginx in
  let l := Check.log (Check.run client (sequential groups) (Check.init ∅ groups)) in
  ∃ groups' s',
    CheckUpdates (sequential groups) client ∅ groups = Some (None, groups', s')
    ∧ Check.deref groups (0, 0) = Some Fixture.nginx
    ∧ isLocalImage (ContainerInfo.Image Fixture.nginx) = false
    ∧ ∃ c', Check.deref groups' (0, 0) = Some c'
        ∧ (ContainerInfo.HasUpdate c' = true
             ↔ ∃ currentDigest latestDigest h,
                 Check.own (0, 0) l
                   = h ++ [Check.CurrentDigest "nginx:latest" (Ok currentDigest)]
                 ∧ resolvedLatest "nginx:latest" latestDigest h
                 ∧ currentDigest ≠ latestDigest)
        ∧ (∀ currentDigest h,
             Check.own (0, 0) l
               = h ++ [Check.CurrentDigest "nginx:latest" (Ok currentDigest)] →
             ∃ latestDigest,
               resolvedLatest "nginx:latest" latestDigest h
               ∧ ContainerInfo.ImageDigest c' = currentDigest
               ∧ ContainerInfo.LatestDigest c' = latestDigest
               ∧ ContainerInfo.HasUpdate c' = bool_decide (currentDigest ≠ latestDigest)).
Proof.
  cbv zeta. eexists _, _. split; [reflexivity|]. split; [reflexivity|].
  split; [reflexivity|].
  exact (CheckUpdates_compares (MockClient.client Fixture.counting)
           (sequential Fixture.oneNginx) ∅ _ Fixture.oneNginx _ None
           eq_refl (0, 0) Fixture.nginx eq_refl eq_refl).
Qed.

(** C1 (the code departs from it): the digest [CheckUpdates] takes for the
    instance's current one is asked for after the pull and by the pulled
    reference.  With a runtime that keeps images by reference, an instance
    whose image has digest [sha256:aaa], the registry serving [sha256:bbb], is
    left with [sha256:bbb] as current and as latest digest, and without update
    flag.  With the mock of the tests, whose first answer is meant to be the
    current digest and whose second the latest, the container ends with the
    two the other way round. *)
Theorem CheckUpdates_misses_update :
  (let client := MockClient.client Fixture.imageStore in
   (GetImageDigest client "nginx:latest" Fixture.pulledBefore).1 = Ok "sha256:aaa"
   ∧ Fixture.registry !! "nginx:latest" = Some "sha256:bbb"
   ∧ ∃ groups' s' c',
       CheckUpdates (sequential Fixture.oneNginx) client Fixture.pulledBefore Fixture.oneNginx
         = Some (None, groups', s')
       ∧ Check.deref groups' (0, 0) = Some c'
       ∧ ContainerInfo.ImageDigest c' = "sha256:bbb"
       ∧ ContainerInfo.LatestDigest c' = "sha256:bbb"
       ∧ ContainerInfo.HasUpdate c' = false)
  ∧ (let client := MockClient.client Fixture.counting in
     ∃ groups' s' c',
       CheckUpdates (sequential Fixture.oneNginx) client ∅ Fixture.oneNginx
         = Some (None, groups', s')
       ∧ Check.deref groups' (0, 0) = Some c'
       ∧ ContainerInfo.ImageDigest c' = "sha256:new-digest"
       ∧ ContainerInfo.LatestDigest c' = "sha256:old-digest").
Proof.
  split; cbv zeta.
  - split; [by vm_compute|]. split; [by vm_compute|].
    eexists _, _, _. split; [vm_compute; reflexivity|]. by vm_compute.
  - eexists _, _, _. split; [vm_compute; reflexivity|]. by vm_compute.
Qed.

Lemma failedCheck_compared imageName latestDigest currentDigest h :
  resolvedLatest imageName latestDigest h →
  ¬ failedCheck imageName (h ++ [Check.CurrentDigest imageName (Ok currentDigest)]).
Proof.
  intros Hres Hf. apply (resolvedLatest_not_failed _ _ _ Hres).
  destruct Hf as [Hf|[[err Hf]|[err Hf]]]; apply elem_of_app in Hf as [Hf|Hf];
    try (by apply list_elem_of_singleton in Hf).
  - by left.
  - right. left. by exists err.
  - right. right. by exists err.
Qed.

(** C4: whatever the runtime answers, [CheckUpdates] has an execution in
    which every goroutine returns (a goroutine takes six steps at most), and
    no execution returns an error.  In every execution, a container whose
    pull or digest resolution failed is returned with the update flag
    cleared, its digests and everything else as they were; every other
    container with a registry image has had its digests compared, whatever
    failed elsewhere: it holds the two digests its goroutine obtained and
    its flag tells whether they differ. *)
Theorem CheckUpdates_absorbs_failures {S : Type} (client : DockerClient S) :
  (∀ (s : S) groups,
     ∃ groups' s', CheckUpdates (sequential groups) client s groups = Some (None, groups', s'))
  ∧ (∀ schedule (s s' : S) groups groups' err,
       CheckUpdates schedule client s groups = Some (err, groups', s') →
       let l := Check.log (Check.run client schedule (Check.init s groups)) in
       err = None
       ∧ ∀ a c0, Check.deref groups a = Some c0 →
           ∃ c', Check.deref groups' a = Some c'
             ∧ sameInstance c0 c'
             ∧ (failedCheck (ContainerInfo.Image c0) (Check.own a l) →
                  ContainerInfo.HasUpdate c' = false
                  ∧ ContainerInfo.ImageDigest c' = ContainerInfo.ImageDigest c0
                  ∧ ContainerInfo.LatestDigest c' = ContainerInfo.LatestDigest c0)
             ∧ (¬ failedCheck (ContainerInfo.Image c0) (Check.own a l) →
                isLocalImage (ContainerInfo.Image c0) = false →
                  ∃ currentDigest latestDigest h,
                    Check.own a l
                      = h ++ [Check.CurrentDigest (ContainerInfo.Image c0) (Ok currentDigest)]
                    ∧ resolvedLatest (ContainerInfo.Image c0) latestDigest h
                    ∧ ContainerInfo.ImageDigest c' = currentDigest
                    ∧ ContainerInfo.LatestDigest c' = latestDigest
                    ∧ ContainerInfo.HasUpdate c' = bool_decide (currentDigest ≠ latestDigest))).
Proof.
  split.
  { intros s groups. unfold CheckUpdates. rewrite sequential_allDone. by eexists _, _. }
  intros schedule s s' groups groups' err Hret l.
  destruct (CheckUpdates_outcome client _ _ _ _ _ _ Hret) as (-> & _ & Hout).
  split; [done|]. intros a c0 Hc0.
  destruct (Hout a c0 Hc0) as (c' & Hc' & Hprog). fold l in Hprog.
  exists c'. split; [done|].
  remember (Check.own a l) as own_a eqn:Hh.
  remember Check.Done as pc eqn:Hpc.
  destruct Hprog as [| | | | | |Hlocal| |e|latest h e Hres|cur latest h Hres];
    try discriminate Hpc; clear Hpc; (split; [done|]).
  - split; [done|]. congruence.
  - split; [done|]. intros Hnot. destruct Hnot. left.
    apply elem_of_cons. right. by apply list_elem_of_singleton.
  - split; [done|]. intros Hnot. destruct Hnot. right. left. exists e.
    do 2 (apply elem_of_cons; right). by apply list_elem_of_singleton.
  - split; [done|]. intros Hnot. destruct Hnot. right. right. exists e.
    apply elem_of_app. right. by apply list_elem_of_singleton.
  - split.
    + intros Hf. by apply (failedCheck_compared _ latest) in Hf.
    + intros _ _. by exists cur, latest, h.
Qed.

(** One failing image beside a healthy one: the cycle returns without error,
    the first container has its flag cleared, the second its digests
    compared. *)
Example CheckUpdates_one_failure :
  let client := MockClient.client Fixture.withoutRedis in
  let groups := Fixture.redisAndNginx in
  ∃ s', CheckUpdates (sequential groups) client ∅ groups
        = Some (None,
                [Check.rollUp
                   (Check.withContainers
                      [Check.setHasUpdate false Fixture.redis;
                       Check.setDigests "sha256:new-digest" "sha256:old-digest" Fixture.nginx]
                      (Fixture.nginxGroup "app" []))],
                s').
Proof. cbv zeta. eexists. vm_compute. reflexivity. Qed.

(** C9 (the code departs from it): two containers of one image, both
    goroutines reading the cache before either has stored into it, make two
    pulls and two resolutions of the latest digest; so do two goroutines that
    run one after the other when the pull fails, as nothing is stored then. *)
Theorem CheckUpdates_pulls_twice :
  (let st := Check.run (MockClient.client Fixture.counting) Fixture.alternating
               (Check.init ∅ Fixture.twoNginx) in
   Check.allDone st = true
   ∧ Check.pulls "nginx:latest" (Check.log st) = 2
   ∧ Check.resolutions "nginx:latest" (Check.log st) = 2)
  ∧ (let st := Check.run (MockClient.client Fixture.failing) (sequential Fixture.twoNginx)
                 (Check.init tt Fixture.twoNginx) in
     Check.allDone st = true
     ∧ Check.pulls "nginx:latest" (Check.log st) = 2).
Proof. by vm_compute. Qed.

(** * Further properties *)

(** ** The groups of a listing, in its order *)

Section Listing.
Context `{GoRange}.

Lemma groupedAs_nil : groupedAs [] (∅, []).
Proof. split; [intros p; apply lookup_empty|done]. Qed.

Lemma groupedAs_step cs acc c :
  groupedAs cs acc → groupedAs (cs ++ [c]) (groupStep acc c).
Proof.
  destruct acc as [m st]. intros [Hm Hst]. cbn [fst snd] in *.
  unfold groupedAs, groupStep, standalones, projectMembers in *.
  pose proof (eq_refl (projectOf c)) as Hc. unfold projectOf at 2 in Hc.
  destruct (IsComposeProject c) as [[] q]; split; cbn [fst snd].
  - intros p. rewrite filter_app. destruct (decide (p = q)) as [->|Hne].
    + rewrite (filter_cons_True _ c) by done. rewrite filter_nil.
      specialize (Hm q). destruct (m !! q) as [g|] eqn:Hq; cbn [fst snd].
      * rewrite lookup_alter_eq, Hq.
        destruct (filter _ cs) as [|c1 ms]; [done|]. injection Hm as ->.
        cbn. unfold appendContainer, composeGroupOf. cbn. by rewrite fmap_app.
      * rewrite lookup_insert_eq. by destruct (filter _ cs).
    + rewrite (filter_cons_False _ c) by congruence. rewrite filter_nil, app_nil_r.
      destruct (m !! q); cbn [fst snd];
        [rewrite lookup_alter_ne by done|rewrite lookup_insert_ne by done]; apply Hm.
  - destruct (m !! q); cbn [fst snd]; rewrite filter_app, (filter_cons_False _ c) by congruence;
      by rewrite filter_nil, app_nil_r.
  - intros p. rewrite filter_app, (filter_cons_False _ c) by congruence.
    rewrite filter_nil, app_nil_r. apply Hm.
  - rewrite filter_app, (filter_cons_True _ c) by done. rewrite filter_nil, fmap_app.
    by rewrite Hst.
Qed.

Lemma groupedAs_fold cs0 acc cs :
  groupedAs cs0 acc → groupedAs (cs0 ++ cs) (fold_left groupStep cs acc).
Proof.
  revert cs0 acc. induction cs as [|c cs IH]; intros cs0 acc Hacc; cbn.
  - by rewrite app_nil_r.
  - rewrite (cons_middle c cs0 cs), (assoc (++)). by apply IH, groupedAs_step.
Qed.

Lemma groupContainers_groupedAs cs : groupedAs cs (groupContainers cs).
Proof. apply (groupedAs_fold [] _ cs), groupedAs_nil. Qed.

Lemma projectMembers_nonempty p cs :
  projectMembers p cs ≠ [] ↔ ∃ c, c ∈ cs ∧ projectOf c = Some p.
Proof.
  unfold projectMembers. split.
  - destruct (filter _ cs) as [|c ms] eqn:Hf; [done|]. intros _.
    assert (c ∈ filter (λ c, projectOf c = Some p) cs) as Hc by (rewrite Hf; left).
    apply list_elem_of_filter in Hc as [? ?]. eauto.
  - intros (c & Hc & Hp) Hnil.
    assert (c ∈ filter (λ c, projectOf c = Some p) cs) as Hin by by apply list_elem_of_filter.
    rewrite Hnil in Hin. by apply elem_of_nil in Hin.
Qed.

(** The groups of a listing, unit by unit. *)
Lemma GetContainerGroups_units {S : Type} (client : DockerClient S) (s s' : S)
    (containers : list types.Container.t) :
  ListContainers client s = (Ok containers, s') →
  ∃ projects,
    NoDup projects
    ∧ (∀ p, p ∈ projects ↔ ∃ c, c ∈ containers ∧ projectOf c = Some p)
    ∧ GetContainerGroups client s
      = (Ok (((λ p, setAllRunning (composeGroupOf p (projectMembers p containers)))
                <$> projects)
             ++ (standaloneGroupOf <$> standalones containers)), s').
Proof.
  intros Hlist. unfold GetContainerGroups. rewrite Hlist.
  pose proof (groupContainers_groupedAs containers) as [Hm Hst].
  destruct (groupContainers containers) as [m st]. cbn [fst snd] in *.
  exists (range_order m).*1. split; [apply range_order_NoDup|]. split.
  - intros p. rewrite <- projectMembers_nonempty. specialize (Hm p).
    rewrite range_order_perm. rewrite list_elem_of_fmap. split.
    + intros ([q g] & -> & Hq). apply elem_of_map_to_list in Hq. cbn in *.
      rewrite Hq in Hm. by destruct (projectMembers q containers).
    + intros Hne. destruct (projectMembers p containers) as [|c ms] eqn:Hp; [done|].
      eexists (p, _). split; [done|]. by apply elem_of_map_to_list.
  - rewrite Hst. do 3 f_equal. rewrite <- list_fmap_compose.
    apply Forall_fmap_ext, Forall_forall. intros [q g] Hq. cbn.
    rewrite range_order_perm in Hq. apply elem_of_map_to_list in Hq.
    specialize (Hm q). rewrite Hq in Hm.
    destruct (projectMembers q containers); [done|]. by injection Hm as ->.
Qed.
End Listing.

Lemma filter_none {A : Type} (P : A → Prop) `{∀ x, Decision (P x)} (l : list A) :
  (∀ x, x ∈ l → ¬ P x) → filter P l = [].
Proof.
  induction l as [|x l IH]; intros Hl; [done|].
  rewrite filter_cons_False by (apply Hl; left). apply IH. intros y Hy. apply Hl. by right.
Qed.

Lemma filter_all {A : Type} (P : A → Prop) `{∀ x, Decision (P x)} (l : list A) :
  (∀ x, x ∈ l → P x) → filter P l = l.
Proof.
  induction l as [|x l IH]; intros Hl; [done|].
  rewrite filter_cons_True by (apply Hl; left). f_equal. apply IH.
  intros y Hy. apply Hl. by right.
Qed.

Lemma GetContainerGroups_Ok `{GoRange} {S : Type} (client : DockerClient S) (s s' : S)
    (groups : list ContainerGroup.t) :
  GetContainerGroups client s = (Ok groups, s') →
  ∃ containers, ListContainers client s = (Ok containers, s').
Proof.
  unfold GetContainerGroups.
  destruct (ListContainers client s) as [[containers|cause] s1]; [|done].
  destruct (groupContainers containers). intros [= _ <-]. by exists containers.
Qed.

Lemma areAllContainersRunning_spec (cs : list ContainerInfo.t) :
  areAllContainersRunning cs = true
  ↔ cs ≠ [] ∧ ∀ c, c ∈ cs → ContainerInfo.State c = "running".
Proof.
  unfold areAllContainersRunning. destruct cs as [|c0 cs]; [by split; [|intros [? _]]|].
  rewrite forallb_forall. split.
  - intros Hall. split; [done|]. intros c Hc%list_elem_of_In. apply Hall in Hc.
    by apply bool_decide_eq_true_1 in Hc.
  - intros [_ Hall] c Hc%list_elem_of_In. apply bool_decide_eq_true_2. by apply Hall.
Qed.

Lemma listedAlone_standaloneGroupOf (c : types.Container.t) :
  listedAlone c (standaloneGroupOf c).
Proof.
  split; [done|]. split; [done|]. split; [|done].
  exists (containerInfoOf c). split; [done|]. split; [apply listedAs_containerInfoOf|done].
Qed.

(** X1: the groups that [GetContainerGroups] returns follow the listing.  The
    members of a compose unit are the listed containers of its project in
    the order of the listing, member for container with the container's
    identifier, name, image, state and labels, and its working directory is
    the one the first of them is labelled with, whatever the labels of the
    others.  The standalone units are those of the listed containers
    without project, in the order of the listing, each with the container
    as its single member, and they come after all compose units. *)
Theorem GetContainerGroups_listing_order `{GoRange} {S : Type} (client : DockerClient S)
    (s s' : S) (containers : list types.Container.t) :
  ListContainers client s = (Ok containers, s') →
  ∃ groups,
    GetContainerGroups client s = (Ok groups, s')
    ∧ (∀ g, g ∈ groups → ContainerGroup.Type_ g = GroupTypeCompose →
         ∃ c members,
           projectMembers (ContainerGroup.ID g) containers = c :: members
           ∧ Forall2 listedAs (c :: members) (ContainerGroup.Containers g)
           ∧ ContainerGroup.WorkingDir g
             = index (types.Container.Labels c) "com.docker.compose.project.working_dir")
    ∧ Forall2 listedAlone (standalones containers)
        (filter (λ g, ContainerGroup.Type_ g = GroupTypeStandalone) groups)
    ∧ (∀ i j g g', groups !! i = Some g → groups !! j = Some g' →
         ContainerGroup.Type_ g = GroupTypeCompose →
         ContainerGroup.Type_ g' = GroupTypeStandalone → i < j).
Proof.
  intros Hlist.
  destruct (GetContainerGroups_units client _ _ _ Hlist) as (projects & _ & Hin & ->).
  eexists. split; [done|].
  set (unit := λ p, setAllRunning (composeGroupOf p (projectMembers p containers))).
  assert (∀ g, g ∈ unit <$> projects → ContainerGroup.Type_ g = GroupTypeCompose) as Hcompose.
  { by intros g (p & -> & _)%list_elem_of_fmap. }
  assert (∀ g, g ∈ standaloneGroupOf <$> standalones containers →
               ContainerGroup.Type_ g = GroupTypeStandalone) as Halone.
  { by intros g (c & -> & _)%list_elem_of_fmap. }
  split; [|split].
  - intros g [Hg|Hg]%elem_of_app Hty; [|apply Halone in Hg; congruence].
    apply list_elem_of_fmap in Hg as (p & -> & Hp). cbn.
    apply Hin, projectMembers_nonempty in Hp.
    destruct (projectMembers p containers) as [|c members]; [done|].
    exists c, members. split; [done|]. split; [|done].
    apply (listedAs_all (c :: members)).
  - rewrite filter_app.
    rewrite filter_none by (intros g Hg%Hcompose; congruence).
    rewrite filter_all by done. cbn [app].
    apply Forall2_fmap_r, Forall_Forall2_diag, Forall_forall.
    intros c _. apply listedAlone_standaloneGroupOf.
  - intros i j g g' Hi Hj Hty Hty'.
    apply lookup_app_Some in Hi as [Hi|[_ Hi]].
    2: { apply list_elem_of_lookup_2, Halone in Hi. congruence. }
    apply lookup_app_Some in Hj as [Hj|[Hj _]].
    { apply list_elem_of_lookup_2, Hcompose in Hj. congruence. }
    apply lookup_lt_Some in Hi. lia.
Qed.

Lemma GetContainerGroups_listing_order_witness :
  let containers := [Sample.worker; Fixture.standalone; Fixture.web] in
  let client := MockClient.client (Sample.pages containers) in
  ListContainers client tt = (Ok containers, tt)
  ∧ ∃ groups,
      @GetContainerGroups listingOrder _ client tt = (Ok groups, tt)
      ∧ (∀ g, g ∈ groups → ContainerGroup.Type_ g = GroupTypeCompose →
           ∃ c members,
             projectMembers (ContainerGroup.ID g) containers = c :: members
             ∧ Forall2 listedAs (c :: members) (ContainerGroup.Containers g)
             ∧ ContainerGroup.WorkingDir g
               = index (types.Container.Labels c) "com.docker.compose.project.working_dir")
      ∧ Forall2 listedAlone (standalones containers)
          (filter (λ g, ContainerGroup.Type_ g = GroupTypeStandalone) groups)
      ∧ (∀ i j g g', groups !! i = Some g → groups !! j = Some g' →
           ContainerGroup.Type_ g = GroupTypeCompose →
           ContainerGroup.Type_ g' = GroupTypeStandalone → i < j).
Proof.
  cbv zeta. split; [reflexivity|].
  exact (@GetContainerGroups_listing_order listingOrder unit
           (MockClient.client (Sample.pages [Sample.worker; Fixture.standalone; Fixture.web]))
           tt tt [Sample.worker; Fixture.standalone; Fixture.web] eq_refl).
Defined.

(** X2: every group that [GetContainerGroups] returns has a member, and
    carries no update information yet: its update flag and those of its
    members are cleared, the digests empty.  The running flag of a compose
    unit is set exactly when all its members are running; a standalone unit
    has one member and is returned with the flag cleared, whatever the
    container's state. *)
Theorem GetContainerGroups_fresh_units `{GoRange} {S : Type} (client : DockerClient S)
    (s s' : S) (groups : list ContainerGroup.t) :
  GetContainerGroups client s = (Ok groups, s') →
  ∀ g, g ∈ groups →
    ContainerGroup.Containers g ≠ []
    ∧ ContainerGroup.HasUpdates g = false
    ∧ (∀ c, c ∈ ContainerGroup.Containers g →
         ContainerInfo.HasUpdate c = false
         ∧ ContainerInfo.ImageDigest c = EmptyString
         ∧ ContainerInfo.LatestDigest c = EmptyString)
    ∧ match ContainerGroup.Type_ g with
      | GroupTypeCompose =>
          ContainerGroup.AllRunning g = true
          ↔ ∀ c, c ∈ ContainerGroup.Containers g → ContainerInfo.State c = "running"
      | GroupTypeStandalone =>
          ContainerGroup.AllRunning g = false ∧ length (ContainerGroup.Containers g) = 1
      end.
Proof.
  intros Hgroups. destruct (GetContainerGroups_Ok client _ _ _ Hgroups) as [containers Hlist].
  destruct (GetContainerGroups_units client _ _ _ Hlist) as (projects & _ & Hin & Hunits).
  rewrite Hgroups in Hunits. injection Hunits as ->.
  intros g [Hg|Hg]%elem_of_app.
  - apply list_elem_of_fmap in Hg as (p & -> & Hp). cbn.
    apply Hin, projectMembers_nonempty in Hp.
    destruct (projectMembers p containers) as [|c members] eqn:Hm; [done|].
    split; [done|]. split; [done|]. split.
    + by intros c' (c0 & -> & _)%list_elem_of_fmap.
    + rewrite areAllContainersRunning_spec. split; [by intros [_ ?]|done].
  - apply list_elem_of_fmap in Hg as (c & -> & _). cbn.
    split; [done|]. split; [done|]. split; [|done].
    by intros c' ->%list_elem_of_singleton.
Qed.

Lemma GetContainerGroups_fresh_units_witness :
  let client := MockClient.client Fixture.listing in
  ∃ groups,
    @GetContainerGroups listingOrder _ client tt = (Ok groups, tt)
    ∧ ∀ g, g ∈ groups →
        ContainerGroup.Containers g ≠ []
        ∧ ContainerGroup.HasUpdates g = false
        ∧ (∀ c, c ∈ ContainerGroup.Containers g →
             ContainerInfo.HasUpdate c = false
             ∧ ContainerInfo.ImageDigest c = EmptyString
             ∧ ContainerInfo.LatestDigest c = EmptyString)
        ∧ match ContainerGroup.Type_ g with
          | GroupTypeCompose =>
              ContainerGroup.AllRunning g = true
              ↔ ∀ c, c ∈ ContainerGroup.Containers g → ContainerInfo.State c = "running"
          | GroupTypeStandalone =>
              ContainerGroup.AllRunning g = false
              ∧ length (ContainerGroup.Containers g) = 1
          end.
Proof.
  cbv zeta. eexists. split; [vm_compute; reflexivity|].
  refine (@GetContainerGroups_fresh_units listingOrder unit
            (MockClient.client Fixture.listing) tt tt _ _).
  vm_compute. reflexivity.
Defined.

(** ** What a detection cycle leaves as it was *)

Section Frame.
Context {S : Type} (client : DockerClient S).

Lemma sameInstance_refl (c : ContainerInfo.t) : sameInstance c c.
Proof. done. Qed.

Lemma sameInstance_trans (c1 c2 c3 : ContainerInfo.t) :
  sameInstance c1 c2 → sameInstance c2 c3 → sameInstance c1 c3.
Proof. intros (? & ? & ? & ? & ?) (? & ? & ? & ? & ?). repeat split; congruence. Qed.

Lemma sameUnit_refl (g : ContainerGroup.t) : sameUnit g g.
Proof. repeat split. apply Forall_Forall2_diag, Forall_forall. by intros c _. Qed.

Lemma sameUnit_trans (g1 g2 g3 : ContainerGroup.t) :
  sameUnit g1 g2 → sameUnit g2 g3 → sameUnit g1 g3.
Proof.
  intros (? & ? & ? & ? & H12) (? & ? & ? & ? & H23).
  repeat split; try congruence.
  eapply Forall2_trans; [apply sameInstance_trans|done..].
Qed.

Lemma sameUnits_refl (gs : list ContainerGroup.t) : Forall2 sameUnit gs gs.
Proof. apply Forall_Forall2_diag, Forall_forall. intros g _. apply sameUnit_refl. Qed.

Lemma sameUnits_trans (gs1 gs2 gs3 : list ContainerGroup.t) :
  Forall2 sameUnit gs1 gs2 → Forall2 sameUnit gs2 gs3 → Forall2 sameUnit gs1 gs3.
Proof. apply Forall2_trans, sameUnit_trans. Qed.

Lemma sameUnit_assign (f : ContainerInfo.t → ContainerInfo.t) (a : Check.addr)
    (gs : list ContainerGroup.t) :
  (∀ c, sameInstance c (f c)) → Forall2 sameUnit gs (Check.assign f a gs).
Proof.
  intros Hf. apply Forall2_same_length_lookup. unfold Check.assign.
  split; [by rewrite length_alter|].
  intros i g g' Hg. destruct (decide (a.1 = i)) as [<-|Hne].
  - rewrite list_lookup_alter_eq, Hg. intros [= <-]. repeat split. cbn.
    apply Forall2_same_length_lookup. split; [by rewrite length_alter|].
    intros j c c' Hc. destruct (decide (a.2 = j)) as [<-|Hnej].
    + rewrite list_lookup_alter_eq, Hc. intros [= <-]. apply Hf.
    + rewrite list_lookup_alter_ne, Hc by done. intros [= <-]. apply sameInstance_refl.
  - rewrite list_lookup_alter_ne, Hg by done. intros [= <-]. apply sameUnit_refl.
Qed.

Lemma sameUnit_stepAt a pc c (st : Check.State S) :
  Forall2 sameUnit (Check.groups st) (Check.groups (Check.stepAt client a pc c st)).
Proof.
  destruct pc; cbn [Check.stepAt];
    repeat match goal with
           | |- context [if ?b then _ else _] => destruct b
           | |- context [match ?x with _ => _ end] => destruct x
           end;
    cbn [Check.groups]; try apply sameUnits_refl; by apply sameUnit_assign.
Qed.

Lemma sameUnit_run schedule (st : Check.State S) :
  Forall2 sameUnit (Check.groups st) (Check.groups (Check.run client schedule st)).
Proof.
  revert st. induction schedule as [|a schedule IH]; intros st; [apply sameUnits_refl|].
  cbn. eapply sameUnits_trans; [|apply IH]. unfold Check.step.
  destruct (Check.goroutines st !! a); [|apply sameUnits_refl].
  destruct (Check.deref (Check.groups st) a); [|apply sameUnits_refl].
  apply sameUnit_stepAt.
Qed.

Lemma sameUnit_rollUp (gs : list ContainerGroup.t) : Forall2 sameUnit gs (Check.rollUp <$> gs).
Proof.
  apply Forall2_fmap_r, Forall_Forall2_diag, Forall_forall. intros g _.
  repeat split. cbn. apply Forall_Forall2_diag, Forall_forall. by intros c _.
Qed.

Lemma CheckUpdates_sameUnit schedule (s s' : S) gs gs' err :
  CheckUpdates schedule client s gs = Some (err, gs', s') → Forall2 sameUnit gs gs'.
Proof.
  unfold CheckUpdates. cbn zeta. destruct (Check.allDone _); [|done]. intros [= _ <- _].
  eapply sameUnits_trans; [apply (sameUnit_run schedule (Check.init s gs))|].
  apply sameUnit_rollUp.
Qed.

Lemma areAllContainersRunning_same (cs cs' : list ContainerInfo.t) :
  Forall2 sameInstance cs cs' → areAllContainersRunning cs = areAllContainersRunning cs'.
Proof.
  intros Hsame. destruct Hsame as [|c c' cs cs' Hc Hcs]; [done|].
  unfold areAllContainersRunning.
  assert (Forall2 sameInstance (c :: cs) (c' :: cs')) as Hall by by constructor.
  clear Hc Hcs. induction Hall as [|? ? ? ? (_ & _ & _ & Hst & _) _ IH]; [done|].
  cbn. by rewrite Hst, IH.
Qed.
End Frame.

(** X3: [CheckUpdates] changes nothing but digests and flags: it returns as
    many groups, each with the identifier, name, type and working directory
    it had and as many containers, each with the identifier, name, image
    reference, state and labels it had. *)
Theorem CheckUpdates_keeps_units {S : Type} (client : DockerClient S)
    (schedule : list Check.addr) (s s' : S) (groups groups' : list ContainerGroup.t)
    (err : option error) :
  CheckUpdates schedule client s groups = Some (err, groups', s') →
  length groups' = length groups
  ∧ ∀ i g g', groups !! i = Some g → groups' !! i = Some g' →
      ContainerGroup.ID g' = ContainerGroup.ID g
      ∧ ContainerGroup.Name g' = ContainerGroup.Name g
      ∧ ContainerGroup.Type_ g' = ContainerGroup.Type_ g
      ∧ ContainerGroup.WorkingDir g' = ContainerGroup.WorkingDir g
      ∧ length (ContainerGroup.Containers g') = length (ContainerGroup.Containers g)
      ∧ ∀ j c c', ContainerGroup.Containers g !! j = Some c →
          ContainerGroup.Containers g' !! j = Some c' →
          sameInstance c c'.
Proof.
  intros Hsame%CheckUpdates_sameUnit. apply Forall2_same_length_lookup in Hsame as [Hlen Hsame].
  split; [done|]. intros i g g' Hg Hg'.
  destruct (Hsame i g g' Hg Hg') as (-> & -> & -> & -> & Hcs).
  apply Forall2_same_length_lookup in Hcs as [Hlen' Hcs].
  repeat (split; [done|]). intros j c c' Hc Hc'. by eapply Hcs.
Qed.

Lemma CheckUpdates_keeps_units_witness :
  let client := MockClient.client Fixture.counting in
  let groups := Fixture.withEmpty in
  ∃ groups' s',
    CheckUpdates (sequential groups) client ∅ groups = Some (None, groups', s')
    ∧ length groups' = length groups
    ∧ ∀ i g g', groups !! i = Some g → groups' !! i = Some g' →
        ContainerGroup.ID g' = ContainerGroup.ID g
        ∧ ContainerGroup.Name g' = ContainerGroup.Name g
        ∧ ContainerGroup.Type_ g' = ContainerGroup.Type_ g
        ∧ ContainerGroup.WorkingDir g' = ContainerGroup.WorkingDir g
        ∧ length (ContainerGroup.Containers g') = length (ContainerGroup.Containers g)
        ∧ ∀ j c c', ContainerGroup.Containers g !! j = Some c →
            ContainerGroup.Containers g' !! j = Some c' →
            sameInstance c c'.
Proof.
  cbv zeta. eexists _, _. split; [vm_compute; reflexivity|].
  refine (CheckUpdates_keeps_units (MockClient.client Fixture.counting)
            (sequential Fixture.withEmpty) ∅ _ Fixture.withEmpty _ None _).
  vm_compute. reflexivity.
Defined.

(** X4: when [CheckUpdates] has returned, the running flag of every group,
    compose or standalone, is set exactly when the group has a member and
    the state of every member is [running]. *)
Theorem CheckUpdates_all_running {S : Type} (client : DockerClient S)
    (schedule : list Check.addr) (s s' : S) (groups groups' : list ContainerGroup.t)
    (err : option error) :
  CheckUpdates schedule client s groups = Some (err, groups', s') →
  ∀ i g g', groups !! i = Some g → groups' !! i = Some g' →
    ContainerGroup.AllRunning g' = true
    ↔ ContainerGroup.Containers g ≠ []
      ∧ ∀ c, c ∈ ContainerGroup.Containers g → ContainerInfo.State c = "running".
Proof.
  intros Hret i g g' Hg Hg'. pose proof (CheckUpdates_sameUnit client _ _ _ _ _ _ Hret) as Hsame.
  apply Forall2_same_length_lookup in Hsame as [_ Hsame].
  destruct (Hsame i g g' Hg Hg') as (_ & _ & _ & _ & Hcs).
  rewrite <- areAllContainersRunning_spec, (areAllContainersRunning_same _ _ Hcs).
  destruct (CheckUpdates_outcome client _ _ _ _ _ _ Hret) as (_ & -> & _).
  rewrite list_lookup_fmap in Hg'. destruct (Check.groups _ !! i) as [g1|]; [|done].
  by injection Hg' as <-.
Qed.

Lemma CheckUpdates_all_running_witness :
  let client := MockClient.client Fixture.counting in
  let groups := Sample.builtAndNginx in
  ∃ groups' s',
    CheckUpdates (sequential groups) client ∅ groups = Some (None, groups', s')
    ∧ ∀ i g g', groups !! i = Some g → groups' !! i = Some g' →
        ContainerGroup.AllRunning g' = true
        ↔ ContainerGroup.Containers g ≠ []
          ∧ ∀ c, c ∈ ContainerGroup.Containers g → ContainerInfo.State c = "running".
Proof.
  cbv zeta. eexists _, _. split; [vm_compute; reflexivity|].
  refine (CheckUpdates_all_running (MockClient.client Fixture.counting)
            (sequential Sample.builtAndNginx) ∅ _ Sample.builtAndNginx _ None _).
  vm_compute. reflexivity.
Defined.

(** ** Local images *)

Section Local.
Context {S : Type} (client : DockerClient S).

Implicit Types (a : Check.addr) (st : Check.State S) (gs : list ContainerGroup.t).

Lemma step_own_ne st a a' :
  a ≠ a' → Check.own a (Check.log (Check.step client st a')) = Check.own a (Check.log st).
Proof.
  intros Hne. unfold Check.step.
  destruct (Check.goroutines st !! a') as [pc|]; [|done].
  destruct (Check.deref (Check.groups st) a') as [c|]; [|done].
  destruct (decide (pc = Check.Done)) as [->|Hpc]; [done|].
  destruct (stepAt_shape client a' pc c st Hpc) as (pc' & f & evs & _ & _ & -> & _).
  by rewrite own_app, own_other, app_nil_r.
Qed.

(** The step of a goroutine whose image is local: no call, no event. *)
Lemma step_local gs0 st a c0 :
  Consistent gs0 st → Quiet gs0 st →
  Check.deref gs0 a = Some c0 → isLocalImage (ContainerInfo.Image c0) = true →
  Check.daemon (Check.step client st a) = Check.daemon st
  ∧ Check.log (Check.step client st a) = Check.log st
  ∧ Check.goroutines (Check.step client st a) !! a = Some Check.Done.
Proof.
  intros Hinv Hquiet Hc0 Hlocal. pose proof (Hinv a) as Ha.
  destruct (Hquiet a c0 Hc0 Hlocal) as [_ [Hpc|Hpc]]; rewrite Hpc in Ha;
    destruct Ha as (c0' & c & Hc0' & Hc & Hprog); unfold Check.step; rewrite Hpc, Hc.
  - inversion Hprog; subst. rewrite Hc0 in Hc0'. injection Hc0' as <-.
    cbn [Check.stepAt]. rewrite Hlocal. cbn. by rewrite app_nil_r, lookup_insert_eq.
  - done.
Qed.

Lemma Quiet_init (s : S) gs : Quiet gs (Check.init s gs).
Proof.
  intros a c0 Hc0 _. split; [done|]. left.
  pose proof (Consistent_init s gs a) as Ha.
  destruct (Check.goroutines (Check.init s gs) !! a) as [pc|] eqn:Hpc; [|congruence].
  cbn in Hpc. apply elem_of_list_to_map_2, list_elem_of_fmap in Hpc as (a' & [= <- ->] & _).
  done.
Qed.

Lemma Quiet_step gs0 st a' :
  Consistent gs0 st → Quiet gs0 st → Quiet gs0 (Check.step client st a').
Proof.
  intros Hinv Hquiet a c0 Hc0 Hlocal. destruct (Hquiet a c0 Hc0 Hlocal) as [Hown Hpc].
  destruct (decide (a = a')) as [<-|Hne].
  - destruct (step_local gs0 st a c0 Hinv Hquiet Hc0 Hlocal) as (_ & -> & ->). eauto.
  - by rewrite step_own_ne, step_goroutines_ne.
Qed.

Lemma Quiet_run gs0 schedule st :
  Consistent gs0 st → Quiet gs0 st → Quiet gs0 (Check.run client schedule st).
Proof.
  revert st. induction schedule as [|a schedule IH]; intros st Hinv Hquiet; [done|].
  cbn. apply IH; [by apply Consistent_step|by apply Quiet_step].
Qed.

(** When every image is local, no step calls the runtime. *)
Lemma run_all_local gs0 schedule st :
  (∀ a c0, Check.deref gs0 a = Some c0 → isLocalImage (ContainerInfo.Image c0) = true) →
  Consistent gs0 st → Quiet gs0 st →
  Check.daemon (Check.run client schedule st) = Check.daemon st
  ∧ Check.log (Check.run client schedule st) = Check.log st.
Proof.
  intros Hall. revert st. induction schedule as [|a schedule IH]; intros st Hinv Hquiet; [done|].
  change (Check.run client (a :: schedule) st)
    with (Check.run client schedule (Check.step client st a)).
  destruct (IH (Check.step client st a)) as [-> ->];
    [by apply Consistent_step|by apply Quiet_step|].
  pose proof (Hinv a) as Ha.
  destruct (Check.goroutines st !! a) as [pc|] eqn:Hpc.
  - destruct Ha as (c0 & c & Hc0 & _).
    destruct (step_local gs0 st a c0 Hinv Hquiet Hc0 (Hall _ _ Hc0)) as (-> & -> & _). done.
  - unfold Check.step. by rewrite Hpc.
Qed.
End Local.

(** X5: [CheckUpdates] makes no call for a container whose image is local: in
    every execution its goroutine neither pulls nor asks for a digest, the
    container is returned with its update flag cleared, even if it was set
    before, and with the digests and everything else as they were.  When
    every image is local the runtime is returned in the state it was given
    in. *)
Theorem CheckUpdates_skips_local {S : Type} (client : DockerClient S)
    (schedule : list Check.addr) (s s' : S) (groups groups' : list ContainerGroup.t)
    (err : option error) :
  CheckUpdates schedule client s groups = Some (err, groups', s') →
  let st := Check.run client schedule (Check.init s groups) in
  (∀ a c0, Check.deref groups a = Some c0 →
     isLocalImage (ContainerInfo.Image c0) = true →
     Check.own a (Check.log st) = []
     ∧ ∃ c', Check.deref groups' a = Some c'
             ∧ ContainerInfo.HasUpdate c' = false
             ∧ ContainerInfo.ImageDigest c' = ContainerInfo.ImageDigest c0
             ∧ ContainerInfo.LatestDigest c' = ContainerInfo.LatestDigest c0
             ∧ sameInstance c0 c')
  ∧ ((∀ a c0, Check.deref groups a = Some c0 →
        isLocalImage (ContainerInfo.Image c0) = true) →
     s' = s ∧ Check.log st = []).
Proof.
  intros Hret st.
  destruct (CheckUpdates_outcome client _ _ _ _ _ _ Hret) as (_ & _ & Hall).
  fold st in Hall.
  pose proof (Quiet_run client groups schedule _ (Consistent_init s groups)
                (Quiet_init s groups)) as Hquiet. fold st in Hquiet.
  split.
  - intros a c0 Hc0 Hlocal. destruct (Hquiet a c0 Hc0 Hlocal) as [Hown _].
    split; [done|]. destruct (Hall a c0 Hc0) as (c' & Hc' & Hprog).
    exists c'. split; [done|].
    rewrite Hown in Hprog. remember [] as h eqn:Hh. remember Check.Done as pc eqn:Hpc.
    destruct Hprog; try done; try (by destruct h).
  - intros Hlocal.
    destruct (run_all_local client groups schedule _ Hlocal (Consistent_init s groups)
                (Quiet_init s groups)) as [Hd Hl].
    split; [|done]. unfold CheckUpdates in Hret. cbn zeta in Hret.
    destruct (Check.allDone _); [|done]. injection Hret as _ _ <-. done.
Qed.

Lemma CheckUpdates_skips_local_witness :
  let client := MockClient.client Fixture.counting in
  let groups := Sample.builtAndNginx in
  ∃ groups' s',
    CheckUpdates (sequential groups) client ∅ groups = Some (None, groups', s')
    ∧ isLocalImage (ContainerInfo.Image Sample.built) = true
    ∧ ContainerInfo.HasUpdate Sample.built = true
    ∧ Check.own (0, 0) (Check.log (Check.run client (sequential groups) (Check.init ∅ groups)))
      = []
    ∧ ∃ c', Check.deref groups' (0, 0) = Some c'
            ∧ ContainerInfo.HasUpdate c' = false
            ∧ ContainerInfo.ImageDigest c' = ContainerInfo.ImageDigest Sample.built
            ∧ ContainerInfo.LatestDigest c' = ContainerInfo.LatestDigest Sample.built
            ∧ sameInstance Sample.built c'.
Proof.
  cbv zeta. eexists _, _. split; [vm_compute; reflexivity|]. split; [reflexivity|].
  split; [reflexivity|].
  refine (proj1 (CheckUpdates_skips_local (MockClient.client Fixture.counting)
                   (sequential Sample.builtAndNginx) ∅ _ Sample.builtAndNginx _ None _)
            (0, 0) Sample.built eq_refl eq_refl).
  vm_compute. reflexivity.
Defined.

(** ** Counting the pulls of a cycle *)

Section Counting.
Context {S : Type} (client : DockerClient S).
Local Open Scope nat_scope.

Implicit Types (a : Check.addr) (st : Check.State S) (gs : list ContainerGroup.t).

Lemma sum_list_zero {A : Type} (l : list A) : sum_list ((λ _, 0) <$> l) = 0.
Proof. induction l as [|x l IH]; [done|]. by cbn. Qed.

Lemma sum_list_le {A : Type} (f g : A → nat) (l : list A) :
  (∀ x, x ∈ l → f x ≤ g x) → sum_list (f <$> l) ≤ sum_list (g <$> l).
Proof.
  induction l as [|x l IH]; intros Hle; [done|]. cbn.
  pose proof (Hle x (list_elem_of_here _ _)).
  assert (sum_list (f <$> l) ≤ sum_list (g <$> l)); [|lia].
  apply IH. intros y Hy. apply Hle. by right.
Qed.

Lemma sum_list_indicator {A : Type} (P : A → Prop) `{∀ x, Decision (P x)} (l : list A) :
  sum_list ((λ x, if bool_decide (P x) then 1 else 0) <$> l) = length (filter P l).
Proof.
  induction l as [|x l IH]; [done|]. rewrite fmap_cons. destruct (decide (P x)).
  - rewrite filter_cons_True, bool_decide_eq_true_2 by done.
    change (sum_list (1 :: ?k)) with (Datatypes.S (sum_list k)). by rewrite IH.
  - rewrite filter_cons_False, bool_decide_eq_false_2 by done.
    change (sum_list (0 :: ?k)) with (sum_list k). by rewrite IH.
Qed.

Lemma sum_list_bump (a0 : Check.addr) (k : nat) (f : Check.addr → nat)
    (addrs : list Check.addr) :
  NoDup addrs →
  sum_list ((λ a, (if decide (a0 = a) then k else 0) + f a) <$> addrs)
  = (if decide (a0 ∈ addrs) then k else 0) + sum_list (f <$> addrs).
Proof.
  induction 1 as [|a addrs Hnotin Hnodup IH]; [done|]. cbn. rewrite IH.
  pose proof (elem_of_cons addrs a0 a) as Hcons.
  repeat case_decide; subst; try lia; tauto.
Qed.

(** The pulls of a cycle are those of its goroutines. *)
Lemma pulls_by_owner (imageName : string) (addrs : list Check.addr)
    (l : list (Check.addr * Check.Ev)) :
  NoDup addrs → (∀ x, x ∈ l → x.1 ∈ addrs) →
  Check.pulls imageName l
  = sum_list ((λ a, pullsIn imageName (Check.own a l)) <$> addrs).
Proof.
  intros Hnodup. induction l as [|[a0 e] l IH]; intros Hin.
  { unfold pullsIn, Check.own. cbn. by rewrite sum_list_zero. }
  assert (a0 ∈ addrs) as Ha0 by (apply (Hin (a0, e)); left).
  assert (Check.pulls imageName ((a0, e) :: l)
          = (if Check.isPull imageName e then 1 else 0) + Check.pulls imageName l) as ->.
  { unfold Check.pulls. cbn. by destruct (Check.isPull imageName e). }
  rewrite IH by (intros x Hx; apply Hin; by right).
  rewrite <- (decide_True (P := a0 ∈ addrs) (A := nat)
                (if Check.isPull imageName e then 1 else 0) 0 Ha0) at 1.
  rewrite <- sum_list_bump by done. f_equal. apply list_fmap_ext. intros _ a _.
  unfold pullsIn, Check.own. destruct (decide (a0 = a)) as [->|Hne].
  - rewrite filter_cons_True by done. cbn. by destruct (Check.isPull imageName e).
  - by rewrite filter_cons_False by done.
Qed.

Lemma addresses_snoc gs g :
  Check.addresses (gs ++ [g])
  = Check.addresses gs
    ++ ((λ j, (length gs, j)) <$> seq 0 (length (ContainerGroup.Containers g))).
Proof.
  unfold Check.addresses. rewrite imap_app, join_app. cbn.
  by rewrite app_nil_r, Nat.add_0_r.
Qed.

Lemma addresses_lt gs a : a ∈ Check.addresses gs → a.1 < length gs.
Proof.
  intros [c Hc]%addresses_deref. unfold Check.deref in Hc.
  destruct (gs !! a.1) as [g|] eqn:Hg; [|done]. by apply lookup_lt_Some in Hg.
Qed.

Lemma addresses_NoDup gs : NoDup (Check.addresses gs).
Proof.
  induction gs as [|g gs IH] using rev_ind; [constructor|].
  rewrite addresses_snoc. apply NoDup_app. split; [done|]. split.
  - intros a Ha%addresses_lt (j & -> & _)%list_elem_of_fmap. cbn in Ha. lia.
  - apply NoDup_fmap_2; [|apply NoDup_seq]. by intros j1 j2 [= ->].
Qed.

Lemma lookup_all {A : Type} (l : list A) :
  (λ j, l !! j) <$> seq 0 (length l) = Some <$> l.
Proof.
  apply list_eq. intros i. rewrite !list_lookup_fmap.
  destruct (l !! i) as [x|] eqn:Hx.
  - rewrite lookup_seq_lt by by eapply lookup_lt_Some. cbn. by rewrite Hx.
  - apply lookup_ge_None in Hx. by rewrite lookup_seq_ge.
Qed.

(** The goroutines' containers are the containers of the groups. *)
Lemma deref_addresses gs :
  Check.deref gs <$> Check.addresses gs = Some <$> (gs ≫= ContainerGroup.Containers).
Proof.
  induction gs as [|g gs IH] using rev_ind; [done|].
  rewrite addresses_snoc, bind_app, !fmap_app. f_equal.
  - rewrite <- IH. apply Forall_fmap_ext, Forall_forall. intros a Ha%addresses_lt.
    unfold Check.deref. by rewrite lookup_app_l.
  - cbn. rewrite app_nil_r, <- lookup_all, <- list_fmap_compose.
    apply list_fmap_ext. intros _ j _. unfold Check.deref. cbn.
    by rewrite list_lookup_middle.
Qed.

Lemma log_owners gs0 schedule st :
  Consistent gs0 st →
  (∀ x, x ∈ Check.log st → x.1 ∈ Check.addresses gs0) →
  ∀ x, x ∈ Check.log (Check.run client schedule st) → x.1 ∈ Check.addresses gs0.
Proof.
  revert st. induction schedule as [|a schedule IH]; intros st Hinv Hlog; [done|].
  cbn. apply IH; [by apply Consistent_step|]. unfold Check.step.
  pose proof (Hinv a) as Ha.
  destruct (Check.goroutines st !! a) as [pc|]; [|done].
  destruct Ha as (c0 & c & Hc0 & -> & _).
  destruct (decide (pc = Check.Done)) as [->|Hpc]; [done|].
  destruct (stepAt_shape client a pc c st Hpc) as (pc' & f & evs & _ & _ & -> & _).
  intros x [Hx|Hx]%elem_of_app; [by apply Hlog|].
  apply list_elem_of_fmap in Hx as (e & -> & _). cbn. apply addresses_deref. by rewrite Hc0.
Qed.

(** A goroutine pulls at most once, and only its container's image. *)
Lemma Progress_pulls (imageName : string) c0 pc c h :
  Progress c0 pc c h →
  pullsIn imageName h ≤ if bool_decide (ContainerInfo.Image c0 = imageName) then 1 else 0.
Proof.
  unfold pullsIn.
  assert (∀ latestDigest h', resolvedLatest (ContainerInfo.Image c0) latestDigest h' →
            ∀ e, match e with Check.CurrentDigest _ _ => True | _ => False end →
            length (List.filter (Check.isPull imageName) (h' ++ [e]))
            ≤ if bool_decide (ContainerInfo.Image c0 = imageName) then 1 else 0) as Hres.
  { intros latestDigest h' [->| ->] [] He; try done; cbn; case_bool_decide; cbn; lia. }
  destruct 1;
    try (cbn; case_bool_decide; cbn; lia);
    try (by eapply Hres).
  - rewrite <- (app_nil_r h). 
    match goal with Hr : resolvedLatest _ _ _ |- _ => destruct Hr as [->| ->] end;
      cbn; case_bool_decide; cbn; lia.
Qed.
End Counting.

(** X6: in every execution of [CheckUpdates] an image reference is pulled at
    most once for each container that runs it, and a reference of a local
    image is never pulled. *)
Theorem CheckUpdates_pull_bound {S : Type} (client : DockerClient S)
    (schedule : list Check.addr) (s s' : S) (groups groups' : list ContainerGroup.t)
    (err : option error) :
  CheckUpdates schedule client s groups = Some (err, groups', s') →
  let st := Check.run client schedule (Check.init s groups) in
  ∀ imageName,
    (Check.pulls imageName (Check.log st)
     ≤ length (filter (λ c, ContainerInfo.Image c = imageName)
                 (groups ≫= ContainerGroup.Containers)))%nat
    ∧ (isLocalImage imageName = true → Check.pulls imageName (Check.log st) = 0).
Proof.
  intros Hret st imageName.
  destruct (CheckUpdates_outcome client _ _ _ _ _ _ Hret) as (_ & _ & Hall). fold st in Hall.
  pose proof (Quiet_run client groups schedule _ (Consistent_init s groups)
                (Quiet_init s groups)) as Hquiet. fold st in Hquiet.
  assert (∀ x, x ∈ Check.log st → x.1 ∈ Check.addresses groups) as Hown.
  { apply log_owners; [apply Consistent_init|]. intros x Hx. by apply elem_of_nil in Hx. }
  rewrite (pulls_by_owner imageName (Check.addresses groups) _ (addresses_NoDup groups) Hown).
  split.
  - rewrite <- sum_list_indicator.
    set (w := λ o : option ContainerInfo.t,
                match o with
                | Some c => if bool_decide (ContainerInfo.Image c = imageName) then 1 else 0
                | None => 0
                end).
    assert (sum_list ((λ c, if bool_decide (ContainerInfo.Image c = imageName)
                            then 1 else 0) <$> (groups ≫= ContainerGroup.Containers))
            = sum_list (w <$> (Check.deref groups <$> Check.addresses groups))) as ->.
    { by rewrite deref_addresses, <- list_fmap_compose. }
    rewrite <- list_fmap_compose. apply sum_list_le.
    intros a [c0 Hc0]%addresses_deref. cbn. rewrite Hc0.
    destruct (Hall a c0 Hc0) as (c' & _ & Hprog). by eapply Progress_pulls.
  - intros Hlocal.
    assert (sum_list ((λ a, pullsIn imageName (Check.own a (Check.log st)))
                        <$> Check.addresses groups)
            ≤ sum_list ((λ _, 0) <$> Check.addresses groups))%nat as Hle;
      [|rewrite sum_list_zero in Hle; lia].
    apply sum_list_le. intros a [c0 Hc0]%addresses_deref.
    destruct (decide (ContainerInfo.Image c0 = imageName)) as [Heq|Hne].
    + rewrite <- Heq in Hlocal. destruct (Hquiet a c0 Hc0 Hlocal) as [-> _]. done.
    + destruct (Hall a c0 Hc0) as (c' & _ & Hprog).
      pose proof (Progress_pulls imageName _ _ _ _ Hprog) as Hp.
      by rewrite bool_decide_eq_false_2 in Hp.
Qed.

Lemma CheckUpdates_pull_bound_witness :
  let client := MockClient.client Fixture.counting in
  let groups := Fixture.twoNginx in
  ∃ groups' s',
    CheckUpdates Fixture.alternating client ∅ groups = Some (None, groups', s')
    ∧ ∀ imageName,
        (Check.pulls imageName
           (Check.log (Check.run client Fixture.alternating (Check.init ∅ groups)))
         ≤ length (filter (λ c, ContainerInfo.Image c = imageName)
                     (groups ≫= ContainerGroup.Containers)))%nat
        ∧ (isLocalImage imageName = true →
           Check.pulls imageName
             (Check.log (Check.run client Fixture.alternating (Check.init ∅ groups))) = 0).
Proof.
  cbv zeta. eexists _, _. split; [vm_compute; reflexivity|].
  refine (CheckUpdates_pull_bound (MockClient.client Fixture.counting)
            Fixture.alternating ∅ _ Fixture.twoNginx _ None _).
  vm_compute. reflexivity.
Defined.

(** ** One goroutine after the other *)

Section Sequential.
Context {S : Type} (client : DockerClient S).
Local Open Scope nat_scope.

Implicit Types (a : Check.addr) (st : Check.State S).

Lemma pulls_app (imageName : string) (l1 l2 : list (Check.addr * Check.Ev)) :
  Check.pulls imageName (l1 ++ l2) = Check.pulls imageName l1 + Check.pulls imageName l2.
Proof. unfold Check.pulls. by rewrite List.filter_app, length_app. Qed.

Lemma cached_insert (i imageName digest : string) (cache : gmap string string) :
  cache !! imageName = None →
  cached i (<[imageName := digest]> cache)
  = cached i cache + (if bool_decide (i = imageName) then 1 else 0).
Proof.
  intros Hnone. unfold cached. destruct (decide (i = imageName)) as [->|Hne].
  - rewrite lookup_insert_eq, Hnone, bool_decide_eq_true_2 by done.
    rewrite (bool_decide_eq_false_2 (is_Some None)) by by intros [? ?].
    by rewrite bool_decide_eq_true_2.
  - rewrite lookup_insert_ne, (bool_decide_eq_false_2 (i = imageName)) by done. lia.
Qed.

(** The pulls after a step, from the account before it. *)
Ltac account Hacc :=
  cbn [Accounted Check.log Check.imageDigests]; try (split; [done|]);
  let i := fresh "i" in
  intros i; rewrite pulls_app, Hacc; unfold Check.pulls; cbn; try lia.

Lemma Turn_step a st : reliable client → Turn a st → Turn a (Check.step client st a).
Proof.
  intros [Hpull Hdigest] [Hothers Hacc]. unfold Check.step.
  destruct (Check.goroutines st !! a) as [pc|] eqn:Hpc; [|by split; [|rewrite Hpc]].
  destruct (Check.deref (Check.groups st) a) as [c|]; [|by split; [|rewrite Hpc]].
  cbn [default from_option] in Hacc. unfold id in Hacc.
  assert (∀ pc' (s' : S) cache f evs,
            Accounted pc' {| Check.daemon := s'; Check.imageDigests := cache;
                             Check.groups := Check.assign f a (Check.groups st);
                             Check.goroutines := <[a := pc']> (Check.goroutines st);
                             Check.log := Check.log st ++ ((λ e, (a, e)) <$> evs) |} →
            Turn a {| Check.daemon := s'; Check.imageDigests := cache;
                      Check.groups := Check.assign f a (Check.groups st);
                      Check.goroutines := <[a := pc']> (Check.goroutines st);
                      Check.log := Check.log st ++ ((λ e, (a, e)) <$> evs) |}) as Hturn.
  { intros pc' s' cache f evs Hacc'. split; cbn [Check.goroutines].
    - intros a' pc0 Hne. rewrite lookup_insert_ne by done. by apply Hothers.
    - by rewrite lookup_insert_eq. }
  destruct pc; cbn [Check.stepAt Accounted] in *.
  - (* Start *)
    destruct (isLocalImage (ContainerInfo.Image c)).
    + apply Hturn. account Hacc.
    + destruct (Check.imageDigests st !! ContainerInfo.Image c) as [latestDigest|] eqn:Hc;
        apply Hturn; account Hacc.
  - (* Pull *)
    destruct Hacc as [Hnone Hacc]. specialize (Hpull imageName (Check.daemon st)).
    destruct (PullImage client imageName (Check.daemon st)) as [[cause|] s1]; [done|].
    apply Hturn. account Hacc. repeat case_bool_decide; cbn; congruence.
  - (* GetLatest *)
    destruct Hacc as [Hnone Hacc].
    destruct (Hdigest imageName (Check.daemon st)) as [digest Hd].
    destruct (GetImageDigest client imageName (Check.daemon st)) as [[digest'|cause] s1];
      [|done].
    apply Hturn. account Hacc.
  - (* Store *)
    destruct Hacc as [Hnone Hacc]. apply Hturn.
    cbn [Accounted Check.log Check.imageDigests]. intros i.
    rewrite pulls_app, Hacc, cached_insert by done. unfold Check.pulls. cbn. lia.
  - (* GetCurrent *)
    destruct (GetImageDigest client _ _) as [[currentDigest|cause] s1];
      apply Hturn; account Hacc.
  - (* Write *)
    apply Hturn. account Hacc.
  - (* Done *)
    split; [done|]. by rewrite Hpc.
Qed.

Lemma Turn_replicate n a st :
  reliable client → Turn a st → Turn a (Check.run client (replicate n a) st).
Proof.
  intros Hrel. revert st. induction n as [|n IH]; intros st Hturn; [done|].
  cbn. by apply IH, Turn_step.
Qed.

Lemma Settled_Turn a st : Settled st → Turn a st.
Proof.
  intros [Hidle Hacc]. split; [intros a' pc _; apply Hidle|].
  destruct (Check.goroutines st !! a) as [pc|] eqn:Hpc; [|done].
  by destruct (Hidle a pc Hpc) as [-> | ->].
Qed.

Lemma run_absent n a st :
  Check.goroutines st !! a = None → Check.run client (replicate n a) st = st.
Proof.
  intros Hnone. induction n as [|n IH]; [done|]. cbn. unfold Check.step at 2.
  by rewrite Hnone.
Qed.

Lemma Settled_turn gs0 a st :
  reliable client → Consistent gs0 st → Settled st →
  Settled (Check.run client (replicate 6 a) st).
Proof.
  intros Hrel Hinv Hsettled.
  destruct (Check.goroutines st !! a) as [pc|] eqn:Hpc; [|by rewrite run_absent].
  pose proof (Turn_replicate 6 a st Hrel (Settled_Turn a st Hsettled)) as [Hothers Hacc].
  assert (remaining pc ≤ 6) as Hle by (destruct pc; cbn; lia).
  pose proof (run_replicate client gs0 6 st a pc Hinv Hpc Hle) as Hdone.
  rewrite Hdone in Hacc. split; [|done]. intros a' pc'.
  destruct (decide (a' = a)) as [->|Hne]; [|by apply Hothers].
  rewrite Hdone. intros [= <-]. by right.
Qed.

Lemma Settled_sequential gs0 (todo : list Check.addr) st :
  reliable client → Consistent gs0 st → Settled st →
  Settled (Check.run client (todo ≫= replicate 6) st).
Proof.
  intros Hrel. revert st. induction todo as [|a todo IH]; intros st Hinv Hsettled; [done|].
  change ((a :: todo) ≫= replicate 6) with (replicate 6 a ++ (todo ≫= replicate 6)).
  rewrite run_app. apply IH; [by apply Consistent_run|by eapply Settled_turn].
Qed.

Lemma Settled_init (s : S) gs : Settled (Check.init s gs).
Proof.
  split.
  - intros a pc Hpc. cbn in Hpc.
    apply elem_of_list_to_map_2, list_elem_of_fmap in Hpc as (a' & [= <- ->] & _). by left.
  - intros i. cbn. unfold cached. by rewrite lookup_empty, bool_decide_eq_false_2 by by intros [? ?].
Qed.

(** The cache is written once for an image, and read after that. *)
Lemma Coherent_step a st : Turn a st → Coherent st → Coherent (Check.step client st a).
Proof.
  intros [_ Hacc] Hcoh. unfold Check.step.
  destruct (Check.goroutines st !! a) as [pc|] eqn:Hpc; [|done].
  destruct (Check.deref (Check.groups st) a) as [c|]; [|done].
  cbn [default from_option] in Hacc. unfold id in Hacc.
  assert (∀ pc' (s' : S) f evs,
            (∀ e, e ∈ evs →
               match e with
               | Check.CacheHit imageName digest =>
                   Check.imageDigests st !! imageName = Some digest
               | Check.CacheStore _ _ => False
               | _ => True
               end) →
            Coherent {| Check.daemon := s'; Check.imageDigests := Check.imageDigests st;
                        Check.groups := Check.assign f a (Check.groups st);
                        Check.goroutines := <[a := pc']> (Check.goroutines st);
                        Check.log := Check.log st ++ ((λ e, (a, e)) <$> evs) |}) as Hkeep.
  { intros pc' s' f evs Hevs a' imageName digest. cbn [Check.log Check.imageDigests].
    rewrite !elem_of_app.
    intros [[Hin|Hin]|[Hin|Hin]]; try (apply (Hcoh a'); by auto).
    all: apply list_elem_of_fmap in Hin as (e & [= -> <-] & He); by apply Hevs in He. }
  destruct pc; cbn [Check.stepAt Accounted] in *.
  - destruct (isLocalImage (ContainerInfo.Image c)).
    + apply Hkeep. by intros e He%elem_of_nil.
    + destruct (Check.imageDigests st !! ContainerInfo.Image c) as [latestDigest|] eqn:Hc;
        apply Hkeep; by intros e ->%list_elem_of_singleton.
  - destruct (PullImage client imageName (Check.daemon st)) as [[cause|] s1];
      apply Hkeep; by intros e ->%list_elem_of_singleton.
  - destruct (GetImageDigest client imageName (Check.daemon st)) as [[digest'|cause] s1];
      apply Hkeep; by intros e ->%list_elem_of_singleton.
  - destruct Hacc as [Hnone _]. intros a' i d. cbn [Check.log Check.imageDigests].
    rewrite !elem_of_app.
    intros [[Hin|Hin]|[Hin|Hin]].
    + assert (Check.imageDigests st !! i = Some d) as Hi by (apply (Hcoh a'); by left).
      rewrite lookup_insert_ne; [done|congruence].
    + by apply list_elem_of_singleton in Hin.
    + assert (Check.imageDigests st !! i = Some d) as Hi by (apply (Hcoh a'); by right).
      rewrite lookup_insert_ne; [done|congruence].
    + apply list_elem_of_singleton in Hin. injection Hin as -> -> ->.
      by rewrite lookup_insert_eq.
  - destruct (GetImageDigest client _ _) as [[currentDigest|cause] s1];
      apply Hkeep; by intros e ->%list_elem_of_singleton.
  - apply Hkeep. by intros e He%elem_of_nil.
  - done.
Qed.

Lemma Coherent_replicate n a st :
  reliable client → Turn a st → Coherent st →
  Coherent (Check.run client (replicate n a) st).
Proof.
  intros Hrel. revert st. induction n as [|n IH]; intros st Hturn Hcoh; [done|].
  cbn. apply IH; [by apply Turn_step|by apply Coherent_step].
Qed.

Lemma Coherent_sequential gs0 (todo : list Check.addr) st :
  reliable client → Consistent gs0 st → Settled st → Coherent st →
  Coherent (Check.run client (todo ≫= replicate 6) st).
Proof.
  intros Hrel. revert st.
  induction todo as [|a todo IH]; intros st Hinv Hsettled Hcoh; [done|].
  change ((a :: todo) ≫= replicate 6) with (replicate 6 a ++ (todo ≫= replicate 6)).
  rewrite run_app. apply IH; [by apply Consistent_run|by eapply Settled_turn|].
  apply Coherent_replicate; [done|by apply Settled_Turn|done].
Qed.

(** With a runtime whose calls succeed no goroutine meets a failure. *)
Lemma Unfailing_step a st :
  reliable client → Unfailing st → Unfailing (Check.step client st a).
Proof.
  intros [Hpull Hdigest] Hlog. unfold Check.step.
  destruct (Check.goroutines st !! a) as [pc|]; [|done].
  destruct (Check.deref (Check.groups st) a) as [c|]; [|done].
  assert (∀ pc' (s' : S) cache f evs,
            (∀ e, e ∈ evs → failed e = false) →
            Unfailing {| Check.daemon := s'; Check.imageDigests := cache;
                         Check.groups := Check.assign f a (Check.groups st);
                         Check.goroutines := <[a := pc']> (Check.goroutines st);
                         Check.log := Check.log st ++ ((λ e, (a, e)) <$> evs) |}) as Hkeep.
  { intros pc' s' cache f evs Hevs x. cbn [Check.log]. rewrite elem_of_app.
    intros [Hin|Hin]; [by apply Hlog|].
    apply list_elem_of_fmap in Hin as (e & -> & He). by apply Hevs. }
  destruct pc; cbn [Check.stepAt].
  - destruct (isLocalImage (ContainerInfo.Image c)).
    + apply Hkeep. by intros e He%elem_of_nil.
    + destruct (Check.imageDigests st !! ContainerInfo.Image c) as [latestDigest|];
        apply Hkeep; by intros e ->%list_elem_of_singleton.
  - specialize (Hpull imageName (Check.daemon st)).
    destruct (PullImage client imageName (Check.daemon st)) as [[cause|] s1]; [done|].
    apply Hkeep. by intros e ->%list_elem_of_singleton.
  - destruct (Hdigest imageName (Check.daemon st)) as [digest Hd].
    destruct (GetImageDigest client imageName (Check.daemon st)) as [[digest'|cause] s1];
      [|done].
    apply Hkeep. by intros e ->%list_elem_of_singleton.
  - apply Hkeep. by intros e ->%list_elem_of_singleton.
  - destruct (Hdigest (ContainerInfo.Image c) (Check.daemon st)) as [digest Hd].
    destruct (GetImageDigest client _ _) as [[currentDigest|cause] s1]; [|done].
    apply Hkeep. by intros e ->%list_elem_of_singleton.
  - apply Hkeep. by intros e He%elem_of_nil.
  - done.
Qed.

Lemma Unfailing_run schedule st :
  reliable client → Unfailing st → Unfailing (Check.run client schedule st).
Proof.
  intros Hrel. revert st. induction schedule as [|a schedule IH]; intros st Hlog; [done|].
  cbn. by apply IH, Unfailing_step.
Qed.

Lemma own_elem_of a (e : Check.Ev) (l : list (Check.addr * Check.Ev)) :
  e ∈ Check.own a l → (a, e) ∈ l.
Proof.
  unfold Check.own. intros ([a' e'] & -> & Hin)%list_elem_of_fmap.
  apply list_elem_of_filter in Hin as [Ha Hin]. cbn in Ha. by subst a'.
Qed.

(** How a container whose image is not local fares when nothing fails and
    the goroutines take their turns: it is compared, with the latest digest
    that the cache holds for its image. *)
Lemma Progress_compared st c0 c' a :
  Unfailing st → Coherent st →
  isLocalImage (ContainerInfo.Image c0) = false →
  Progress c0 Check.Done c' (Check.own a (Check.log st)) →
  ∃ currentDigest latestDigest,
    c' = Check.setDigests currentDigest latestDigest c0
    ∧ Check.imageDigests st !! ContainerInfo.Image c0 = Some latestDigest.
Proof.
  intros Hlog Hcoh Hlocal Hprog.
  assert (∀ e, e ∈ Check.own a (Check.log st) → failed e = false) as Hok.
  { intros e He%own_elem_of. by apply Hlog in He. }
  remember (Check.own a (Check.log st)) as h eqn:Hh.
  remember Check.Done as pc eqn:Hpc.
  destruct Hprog as [| | | | | | | | |latestDigest h err Hres
                     |currentDigest latestDigest h Hres]; try done.
  - congruence.
  - exfalso. specialize (Hok (Check.Pulled (ContainerInfo.Image c0) false)).
    cbn in Hok. assert (true = false); [|done]. apply Hok. right. left.
  - exfalso. specialize (Hok (Check.LatestDigest (ContainerInfo.Image c0) (Err err))).
    cbn in Hok. assert (true = false); [|done]. apply Hok. right. right. left.
  - exfalso. specialize (Hok (Check.CurrentDigest (ContainerInfo.Image c0) (Err err))).
    cbn in Hok. assert (true = false); [|done]. apply Hok, elem_of_app. right. left.
  - exists currentDigest, latestDigest. split; [done|].
    apply (Hcoh a). destruct Hres as [->| ->].
    + left. apply own_elem_of. rewrite <- Hh. left.
    + right. apply own_elem_of. rewrite <- Hh. do 3 right. left.
Qed.
End Sequential.

(** X7: when the goroutines of [CheckUpdates] run one after the other and no
    pull and no digest lookup fails, the cache of latest digests does what it
    is there for: every goroutine returns, and no image reference is pulled
    more than once, however many containers run it. *)
Theorem CheckUpdates_sequential_pulls_once {S : Type} (client : DockerClient S) (s : S)
    (groups : list ContainerGroup.t) :
  reliable client →
  let st := Check.run client (sequential groups) (Check.init s groups) in
  (∃ groups', CheckUpdates (sequential groups) client s groups
              = Some (None, groups', Check.daemon st))
  ∧ ∀ imageName, (Check.pulls imageName (Check.log st) ≤ 1)%nat.
Proof.
  intros Hrel st. split.
  - unfold CheckUpdates. cbn zeta. rewrite sequential_allDone. by eexists.
  - intros imageName.
    destruct (Settled_sequential client groups (Check.addresses groups) _ Hrel
                (Consistent_init s groups) (Settled_init s groups)) as [_ Hacc].
    fold (sequential groups) in Hacc. fold st in Hacc. cbn in Hacc. rewrite Hacc.
    unfold cached. case_bool_decide; lia.
Qed.

Lemma CheckUpdates_sequential_pulls_once_witness :
  let client := MockClient.client Fixture.counting in
  let groups := Fixture.twoNginx in
  reliable client
  ∧ (∃ groups', CheckUpdates (sequential groups) client ∅ groups
                = Some (None, groups',
                        Check.daemon (Check.run client (sequential groups)
                                        (Check.init ∅ groups))))
  ∧ ∀ imageName,
      (Check.pulls imageName
         (Check.log (Check.run client (sequential groups) (Check.init ∅ groups))) ≤ 1)%nat.
Proof.
  cbv zeta.
  assert (reliable (MockClient.client Fixture.counting)) as Hreliable.
  { split; intros imageName s; [reflexivity|eexists; reflexivity]. }
  split; [exact Hreliable|].
  exact (CheckUpdates_sequential_pulls_once (MockClient.client Fixture.counting) ∅
           Fixture.twoNginx Hreliable).
Defined.

(** X8: when the goroutines of [CheckUpdates] run one after the other and no
    pull and no digest lookup fails, the containers of one image are
    compared with one and the same latest digest: two containers whose image
    reference is the same, and not local, end with the same latest digest. *)
Theorem CheckUpdates_sequential_agrees {S : Type} (client : DockerClient S) (s s' : S)
    (groups groups' : list ContainerGroup.t) (err : option error) :
  reliable client →
  CheckUpdates (sequential groups) client s groups = Some (err, groups', s') →
  ∀ a1 a2 c1 c2,
    Check.deref groups a1 = Some c1 → Check.deref groups a2 = Some c2 →
    ContainerInfo.Image c1 = ContainerInfo.Image c2 →
    isLocalImage (ContainerInfo.Image c1) = false →
    ∃ c1' c2',
      Check.deref groups' a1 = Some c1' ∧ Check.deref groups' a2 = Some c2'
      ∧ ContainerInfo.LatestDigest c1' = ContainerInfo.LatestDigest c2'.
Proof.
  intros Hrel Hret a1 a2 c1 c2 Hc1 Hc2 Himage Hlocal.
  destruct (CheckUpdates_outcome client _ _ _ _ _ _ Hret) as (_ & _ & Hall).
  set (st := Check.run client (sequential groups) (Check.init s groups)) in *.
  assert (Unfailing st) as Hlog.
  { apply Unfailing_run; [done|]. by intros x Hx%elem_of_nil. }
  assert (Coherent st) as Hcoh.
  { apply (Coherent_sequential client groups); [done|apply Consistent_init|apply Settled_init|].
    intros a i d [Hin|Hin]; by apply elem_of_nil in Hin. }
  destruct (Hall a1 c1 Hc1) as (c1' & Hc1' & Hp1).
  destruct (Hall a2 c2 Hc2) as (c2' & Hc2' & Hp2).
  destruct (Progress_compared st c1 c1' a1 Hlog Hcoh Hlocal Hp1)
    as (cur1 & lat1 & -> & Hlat1).
  rewrite Himage in Hlocal.
  destruct (Progress_compared st c2 c2' a2 Hlog Hcoh Hlocal Hp2)
    as (cur2 & lat2 & -> & Hlat2).
  eexists _, _. split; [done|]. split; [done|]. cbn. congruence.
Qed.

Lemma CheckUpdates_sequential_agrees_witness :
  let client := MockClient.client Fixture.counting in
  let groups := Fixture.twoNginx in
  reliable client
  ∧ ∃ groups' s',
      CheckUpdates (sequential groups) client ∅ groups = Some (None, groups', s')
      ∧ Check.deref groups (0, 0) = Some Fixture.nginx
      ∧ Check.deref groups (1, 0) = Some Fixture.nginx
      ∧ isLocalImage (ContainerInfo.Image Fixture.nginx) = false
      ∧ ∃ c1' c2',
          Check.deref groups' (0, 0) = Some c1' ∧ Check.deref groups' (1, 0) = Some c2'
          ∧ ContainerInfo.LatestDigest c1' = ContainerInfo.LatestDigest c2'.
Proof.
  cbv zeta.
  assert (reliable (MockClient.client Fixture.counting)) as Hreliable.
  { split; intros imageName s; [reflexivity|eexists; reflexivity]. }
  split; [exact Hreliable|].
  eexists _, _. split; [vm_compute; reflexivity|].
  split; [reflexivity|]. split; [reflexivity|]. split; [reflexivity|].
  refine (CheckUpdates_sequential_agrees (MockClient.client Fixture.counting) ∅ _
            Fixture.twoNginx _ None Hreliable _ (0, 0) (1, 0) Fixture.nginx Fixture.nginx
            eq_refl eq_refl eq_refl eq_refl).
  vm_compute. reflexivity.
Defined.

(** ** The standalone update, from the inspected record to the created
    container *)

(** X9: the container that a standalone update creates is the inspected one
    over again: the image reference, environment, command, entrypoint,
    labels, restart policy and resources of the inspected record, its binds
    and port bindings (an absent list or map becoming an empty one), and its
    name without the leading slash.  The exposed ports are not carried over:
    the new container exposes exactly the ports that have a binding. *)
Theorem UpdateStandaloneContainer_recreates_inspected `{GoRange} {S : Type}
    (client : DockerClient S) (containerID : string) (w : World S) :
  ∃ events,
    trace (UpdateStandaloneContainer client containerID w).2 = trace w ++ events
    ∧ ∀ config hostConfig name ok,
        CreateContainerCall config hostConfig name ok ∈ events →
        ∃ containerJSON config0 hostConfig0,
          (InspectContainer client containerID (runtime w)).1 = Ok containerJSON
          ∧ types.ContainerJSON.Config containerJSON = Some config0
          ∧ types.ContainerJSON.HostConfig containerJSON = Some hostConfig0
          ∧ name = strings.TrimPrefix (types.ContainerJSON.Name containerJSON) "/"
          ∧ container.Config.Image config = container.Config.Image config0
          ∧ container.Config.Env config = container.Config.Env config0
          ∧ container.Config.Cmd config = container.Config.Cmd config0
          ∧ container.Config.Entrypoint config = container.Config.Entrypoint config0
          ∧ container.Config.Labels config = container.Config.Labels config0
          ∧ container.Config.ExposedPorts config
            = Some ((λ _, tt) <$> default ∅ (container.HostConfig.PortBindings hostConfig0))
          ∧ container.HostConfig.Binds hostConfig
            = Some (default [] (container.HostConfig.Binds hostConfig0))
          ∧ container.HostConfig.PortBindings hostConfig
            = Some (default ∅ (container.HostConfig.PortBindings hostConfig0))
          ∧ container.HostConfig.RestartPolicy hostConfig
            = container.HostConfig.RestartPolicy hostConfig0
          ∧ container.HostConfig.Resources hostConfig
            = container.HostConfig.Resources hostConfig0.
Proof.
  destruct (UpdateStandaloneContainer_runs client containerID w) as (events & Htrace & Hrun).
  exists events. split; [done|].
  destruct (UpdateStandaloneContainer client containerID w) as [result w'].
  cbn [fst snd] in *. clear Htrace.
  intros config hostConfig name ok Hcreate.
  assert (∀ containerJSON params config' hostConfig' ok',
            ExtractContainerParams containerJSON = Ok params →
            recreates params config' hostConfig' →
            CreateContainerCall config hostConfig name ok
              = CreateContainerCall config' hostConfig' (ContainerParams.Name params) ok' →
            ∃ config0 hostConfig0,
              types.ContainerJSON.Config containerJSON = Some config0
              ∧ types.ContainerJSON.HostConfig containerJSON = Some hostConfig0
              ∧ name = strings.TrimPrefix (types.ContainerJSON.Name containerJSON) "/"
              ∧ container.Config.Image config = container.Config.Image config0
              ∧ container.Config.Env config = container.Config.Env config0
              ∧ container.Config.Cmd config = container.Config.Cmd config0
              ∧ container.Config.Entrypoint config = container.Config.Entrypoint config0
              ∧ container.Config.Labels config = container.Config.Labels config0
              ∧ container.Config.ExposedPorts config
                = Some ((λ _, tt) <$> default ∅ (container.HostConfig.PortBindings hostConfig0))
              ∧ container.HostConfig.Binds hostConfig
                = Some (default [] (container.HostConfig.Binds hostConfig0))
              ∧ container.HostConfig.PortBindings hostConfig
                = Some (default ∅ (container.HostConfig.PortBindings hostConfig0))
              ∧ container.HostConfig.RestartPolicy hostConfig
                = container.HostConfig.RestartPolicy hostConfig0
              ∧ container.HostConfig.Resources hostConfig
                = container.HostConfig.Resources hostConfig0) as Hfields.
  { intros containerJSON params config' hostConfig' ok' Hparams Hrec [= -> -> -> _].
    destruct Hrec. unfold ExtractContainerParams in Hparams.
    destruct (types.ContainerJSON.Config containerJSON) as [config0|]; [|done].
    destruct (types.ContainerJSON.HostConfig containerJSON) as [hostConfig0|]; [|done].
    injection Hparams as <-. exists config0, hostConfig0. cbn -[exposedPortsOf copyMap].
    rewrite exposedPortsOf_fmap.
    destruct (container.HostConfig.PortBindings hostConfig0) as [bindings|];
      destruct (container.HostConfig.Binds hostConfig0) as [binds|];
      cbn -[copyMap]; rewrite ?copyMap_id; by repeat split. }
  invert_run.
  all: repeat (apply elem_of_cons in Hcreate as [Hcreate|Hcreate]; [try done|]).
  all: try (by apply elem_of_nil in Hcreate).
  all: match goal with
       | Hins : _ = Ok ?cj, Hext : ExtractContainerParams ?cj = Ok ?params,
         Hrec : recreates ?params _ _ |- _ =>
           destruct (Hfields cj params _ _ _ Hext Hrec Hcreate)
             as (inspectedConfig & inspectedHostConfig & Hall);
           exists cj, inspectedConfig, inspectedHostConfig; (split; [done|exact Hall])
       end.
Qed.

(** ** Error messages *)

(** Membership in a list that is written out. *)
Ltac listed :=
  solve [repeat first [apply list_elem_of_here | apply list_elem_of_further]].

Section Messages.
Import strings.

Lemma Contains_app_r (x a r : string) :
  Contains r x = true → Contains (a +:+ r) x = true.
Proof.
  intros Hr. induction a as [|c a IH]; [done|].
  change (String c a +:+ r) with (String c (a +:+ r)).
  rewrite Contains_cons, IH. apply orb_true_r.
Qed.

Lemma formatErrorMessage_pull (errMsg : string) :
  Contains errMsg "failed to pull" = true →
  formatErrorMessage errMsg ∈ pullMessages.
Proof.
  intros Hpull. unfold formatErrorMessage, pullMessages. cbn zeta. rewrite Hpull. cbn [orb]. clear Hpull.
  repeat (destruct (Contains errMsg _); cbv iota; [listed|]). listed.
Qed.

(** An error in which one of the tests finds its text is not shown as it
    is. *)
Lemma formatErrorMessage_user (errMsg : string) :
  Contains errMsg "failed to pull" = true
  ∨ Contains errMsg "working directory" = true
  ∨ Contains errMsg "docker compose" = true →
  formatErrorMessage errMsg ∈ userMessages.
Proof.
  intros Hfound. unfold formatErrorMessage, userMessages, pullMessages. cbn [app].
  repeat match goal with
         | |- context [if Contains errMsg ?p then _ else _] =>
             destruct (Contains errMsg p) eqn:?; cbv iota; [listed|]
         | |- context [Contains errMsg ?p || _] =>
             destruct (Contains errMsg p) eqn:?; cbn [orb]; cbv iota; [listed|]
         | |- context [Contains errMsg ?p && _] =>
             destruct (Contains errMsg p) eqn:?; cbn [andb]
         end.
  all: destruct Hfound as [?|[?|?]]; congruence.
Qed.
End Messages.

(** X10: whatever error a compose update returns (no working directory, a
    failed pull, a failed command with its captured output),
    [formatErrorMessage] shows one of its prepared messages for it: the
    error's own text, with the cause and the output of the command, is not
    what the client is told. *)
Theorem UpdateComposeProject_error_message {S : Type} (client : DockerClient S)
    (CombinedOutput : Launcher S) (projectName workDir : string)
    (containerImages : list string) (w : World S) (err : error) :
  (UpdateComposeProject client CombinedOutput projectName workDir containerImages w).1
    = Some err →
  formatErrorMessage err ∈ userMessages.
Proof.
  unfold UpdateComposeProject. case_bool_decide as Hdir.
  { cbn. intros [= <-]. apply formatErrorMessage_user. right. left.
    by apply (Contains_app "working directory"
                "working directory is required for compose project " projectName). }
  unfold_op.
  pose proof (pullImages_runs client projectName containerImages w) as Hpull.
  cbn zeta in Hpull.
  destruct (pullImages client projectName containerImages w) as [r w1].
  cbn [fst snd] in Hpull.
  destruct Hpull as [[-> _]|(before & image & after & cause & _ & -> & _)].
  - unfold runCommand. cbn [runtime trace].
    destruct (CombinedOutput _ (runtime w1)) as [[output [cause|]] s2]; cbn.
    + intros [= <-]. apply formatErrorMessage_user. right. right.
      apply (Contains_app_r "docker compose" "failed to execute '").
      by apply (Contains_app "docker compose" "docker compose down").
    + destruct (CombinedOutput _ s2) as [[output' [cause|]] s3]; cbn; [|done].
      intros [= <-]. apply formatErrorMessage_user. right. right.
      apply (Contains_app_r "docker compose" "failed to execute '").
      by apply (Contains_app "docker compose" "docker compose up -d --build").
  - cbn. intros [= <-]. apply formatErrorMessage_user. left.
    by apply (Contains_app "failed to pull" "failed to pull image ").
Qed.

Lemma UpdateComposeProject_error_message_witness :
  let err := "failed to execute 'docker compose down' for project myapp: exit status 1"
               +:+ LF +:+ "Output: no configuration file provided" in
  (UpdateComposeProject (MockClient.client MockClient.zero) Fixture.downFails
     "myapp" "/home/user/app" ["nginx:latest"] Fixture.fresh).1 = Some err
  ∧ formatErrorMessage err ∈ userMessages.
Proof.
  cbv zeta. split; [reflexivity|].
  exact (UpdateComposeProject_error_message (MockClient.client MockClient.zero)
           Fixture.downFails "myapp" "/home/user/app" ["nginx:latest"] Fixture.fresh _
           eq_refl).
Defined.

(** X11: when the pull of a standalone update fails, the message shown for the
    error is the one for a failed pull, or one of the four that
    [formatErrorMessage] tests before it, whatever the cause: a pull that
    timed out or was denied is not reported as a timeout or as a matter of
    permissions. *)
Theorem UpdateStandaloneContainer_pull_failure_message `{GoRange} {S : Type}
    (client : DockerClient S) (containerID : string) (w : World S) :
  let run := UpdateStandaloneContainer client containerID w in
  ∃ events,
    trace run.2 = trace w ++ events
    ∧ ∀ image, PullImageCall image false ∈ events →
        ∃ err, run.1 = Some err ∧ formatErrorMessage err ∈ pullMessages.
Proof.
  intros run. subst run.
  destruct (UpdateStandaloneContainer_runs client containerID w) as (events & Htrace & Hrun).
  exists events. split; [done|].
  destruct (UpdateStandaloneContainer client containerID w) as [result w'].
  cbn [fst snd] in *. clear Htrace. intros image Hpull.
  invert_run.
  all: repeat (apply elem_of_cons in Hpull as [Hpull|Hpull]; [try done|]).
  all: try (by apply elem_of_nil in Hpull).
  eexists. split; [done|]. cbn. apply formatErrorMessage_pull.
  by apply (Contains_app "failed to pull" "failed to pull latest image ").
Qed.

(** ** The update handler *)

Section Update.
Context `{GoRange} {S : Type} (client : DockerClient S) (CombinedOutput : Launcher S)
        (now : Time).

Lemma findGroup_app id (gs1 gs2 : list ContainerGroup.t) :
  findGroup id (gs1 ++ gs2)
  = match findGroup id gs1 with
    | Some g => Some g
    | None => findGroup id gs2
    end.
Proof. induction gs1 as [|g gs1 IH]; [done|]. cbn. by case_bool_decide. Qed.

Lemma findGroup_Some id gs g :
  findGroup id gs = Some g → g ∈ gs ∧ ContainerGroup.ID g = id.
Proof.
  induction gs as [|g0 gs IH]; [done|]. cbn. case_bool_decide as Hid.
  - intros [= <-]. split; [left|done].
  - intros [Hin Hg]%IH. split; [by right|done].
Qed.

Lemma findGroup_None id gs :
  findGroup id gs = None ↔ ∀ g, g ∈ gs → ContainerGroup.ID g ≠ id.
Proof.
  induction gs as [|g0 gs IH]; cbn.
  - split; [|done]. intros _ g Hg. by apply elem_of_nil in Hg.
  - case_bool_decide as Hid.
    + split; [done|]. intros Hall. destruct (Hall g0); [left|done].
    + rewrite IH. split.
      * intros Hall g [->|Hg]%elem_of_cons; [done|by apply Hall].
      * intros Hall g Hg. apply Hall. by right.
Qed.

(** Among the units of projects, the one of the project [id]. *)
Lemma findGroup_projects id (unit : string → ContainerGroup.t) (projects : list string) :
  (∀ p, ContainerGroup.ID (unit p) = p) →
  findGroup id (unit <$> projects) = if decide (id ∈ projects) then Some (unit id) else None.
Proof.
  intros Hid. induction projects as [|p projects IH]; [done|]. cbn. rewrite Hid, IH.
  pose proof (elem_of_cons projects id p) as Hcons.
  case_bool_decide; repeat case_decide; subst; try done; exfalso; intuition congruence.
Qed.

Lemma findGroup_standalones id (cs : list types.Container.t) :
  findGroup id (standaloneGroupOf <$> cs)
  = standaloneGroupOf <$> head (filter (λ c, types.Container.ID c = id) cs).
Proof.
  induction cs as [|c cs IH]; [done|]. rewrite fmap_cons.
  cbn [findGroup standaloneGroupOf ContainerGroup.ID]. case_bool_decide as Hid.
  - by rewrite filter_cons_True.
  - by rewrite filter_cons_False.
Qed.

Lemma projectOf_nonempty (c : types.Container.t) (p : string) :
  projectOf c = Some p → p ≠ EmptyString.
Proof.
  unfold projectOf. rewrite IsComposeProject_label.
  destruct (composeLabel c) as [q|]; [|done]. case_bool_decide; [|done]. by intros [= <-].
Qed.

(** The unit with the identifier [id] among the groups of a listing. *)
Lemma findGroup_listing (s s1 : S) (containers : list types.Container.t)
    (groups : list ContainerGroup.t) (id : string) :
  ListContainers client s = (Ok containers, s1) →
  GetContainerGroups client s = (Ok groups, s1) →
  findGroup id groups = listedUnit id containers.
Proof.
  intros Hlist Hgroups. unfold listedUnit.
  destruct (GetContainerGroups_units client _ _ _ Hlist) as (projects & _ & Hin & Hunits).
  rewrite Hgroups in Hunits. injection Hunits as ->.
  rewrite findGroup_app, findGroup_projects by done.
  destruct (decide (id ∈ projects)) as [Hp|Hp].
  - apply Hin, projectMembers_nonempty in Hp.
    by destruct (projectMembers id containers) as [|c members] eqn:Hm.
  - destruct (projectMembers id containers) as [|c members] eqn:Hm.
    2: { exfalso. apply Hp, Hin, projectMembers_nonempty. by rewrite Hm. }
    apply findGroup_standalones.
Qed.

Lemma listedUnit_None (id : string) (containers : list types.Container.t) :
  listedUnit id containers = None
  ↔ projectMembers id containers = [] ∧ standaloneWith id containers = None.
Proof.
  unfold listedUnit. destruct (projectMembers id containers) as [|c members].
  - destruct (standaloneWith id containers); cbn; split; try done. by intros [_ ?].
  - split; [done|]. by intros [? _].
Qed.

(** The unit that [HandleUpdate] updates, from the listing: the project of
    the name [id] if a listed container belongs to it, else the first listed
    container without project whose identifier is [id]. *)
Lemma HandleUpdate_listed (id : string) (w : World S) (containers : list types.Container.t)
    (s1 : S) :
  id ≠ EmptyString →
  ListContainers client (runtime w) = (Ok containers, s1) →
  let w1 := {| runtime := s1; trace := trace w |} in
  HandleUpdate client CombinedOutput now id w
  = match projectMembers id containers with
    | c :: members =>
        updateResponse now id
          (UpdateComposeProject client CombinedOutput id
             (index (types.Container.Labels c) "com.docker.compose.project.working_dir")
             (types.Container.Image <$> c :: members) w1)
    | [] =>
        match standaloneWith id containers with
        | Some c =>
            updateResponse now (getContainerName (types.Container.Names c))
              (UpdateStandaloneContainer client id w1)
        | None =>
            (sendErrorResponse now "update" id "Container not found" http.StatusNotFound, w1)
        end
    end.
Proof.
  intros Hid Hlist w1. unfold HandleUpdate. rewrite bool_decide_eq_false_2 by done.
  destruct (GetContainerGroups_units client _ _ _ Hlist) as (projects & _ & _ & Hgroups).
  rewrite Hgroups, (findGroup_listing _ _ _ _ id Hlist Hgroups). fold w1. unfold listedUnit.
  destruct (projectMembers id containers) as [|c members].
  - destruct (standaloneWith id containers) as [c|] eqn:Hc; [|done].
    cbn [fmap option_fmap option_map].
    assert (types.Container.ID c = id) as Hcid.
    { apply head_Some_elem_of, list_elem_of_filter in Hc. by destruct Hc. }
    cbn [standaloneGroupOf ContainerGroup.Type_ ContainerGroup.Name ContainerGroup.ID].
    rewrite bool_decide_eq_false_2 by done. rewrite Hcid. unfold updateResponse.
    by destruct (UpdateStandaloneContainer _ _ _) as [[err|] w2].
  - cbn [setAllRunning composeGroupOf ContainerGroup.Type_ ContainerGroup.Name
         ContainerGroup.WorkingDir ContainerGroup.Containers ContainerGroup.ID].
    rewrite bool_decide_eq_true_2 by done. rewrite <- list_fmap_compose.
    unfold updateResponse.
    by destruct (UpdateComposeProject _ _ _ _ _ _) as [[err|] w2].
Qed.
End Update.

(** X12: an update request whose id is the name of a compose project of the
    listing updates that project (also when a container without project has
    the id as its identifier): the images pulled are those of the project's
    containers in the order of the listing, and the commands run in the
    working directory that the first of them is labelled with. *)
Theorem HandleUpdate_compose `{GoRange} {S : Type} (client : DockerClient S)
    (CombinedOutput : Launcher S) (now : Time) (id : string) (w : World S)
    (containers : list types.Container.t) (s1 : S) (c : types.Container.t)
    (members : list types.Container.t) :
  ListContainers client (runtime w) = (Ok containers, s1) →
  projectMembers id containers = c :: members →
  HandleUpdate client CombinedOutput now id w
  = updateResponse now id
      (UpdateComposeProject client CombinedOutput id
         (index (types.Container.Labels c) "com.docker.compose.project.working_dir")
         (types.Container.Image <$> c :: members)
         {| runtime := s1; trace := trace w |}).
Proof.
  intros Hlist Hmembers.
  assert (id ≠ EmptyString) as Hid.
  { apply (projectOf_nonempty c).
    assert (c ∈ projectMembers id containers) as Hc by (rewrite Hmembers; left).
    apply list_elem_of_filter in Hc. by destruct Hc. }
  rewrite (HandleUpdate_listed client CombinedOutput now id w containers s1 Hid Hlist).
  by rewrite Hmembers.
Qed.

Lemma HandleUpdate_compose_witness :
  let client := MockClient.client Fixture.listing in
  ListContainers client (runtime Fixture.fresh) = (Ok [Fixture.web; Fixture.standalone], tt)
  ∧ projectMembers "app" [Fixture.web; Fixture.standalone] = [Fixture.web]
  ∧ @HandleUpdate listingOrder _ client Fixture.downFails 0%Z "app" Fixture.fresh
    = updateResponse 0%Z "app"
        (UpdateComposeProject client Fixture.downFails "app" "/home/user/app"
           ["nginx:latest"] Fixture.fresh).
Proof.
  cbv zeta. split; [reflexivity|]. split; [reflexivity|].
  exact (@HandleUpdate_compose listingOrder unit (MockClient.client Fixture.listing)
           Fixture.downFails 0%Z "app" Fixture.fresh [Fixture.web; Fixture.standalone] tt
           Fixture.web [] eq_refl eq_refl).
Defined.

(** X13: an update request whose id names no compose project of the listing
    and is the identifier of a listed container without project runs the
    standalone update on that identifier, and answers under the container's
    name. *)
Theorem HandleUpdate_standalone `{GoRange} {S : Type} (client : DockerClient S)
    (CombinedOutput : Launcher S) (now : Time) (id : string) (w : World S)
    (containers : list types.Container.t) (s1 : S) (c : types.Container.t) :
  id ≠ EmptyString →
  ListContainers client (runtime w) = (Ok containers, s1) →
  projectMembers id containers = [] →
  standaloneWith id containers = Some c →
  HandleUpdate client CombinedOutput now id w
  = updateResponse now (getContainerName (types.Container.Names c))
      (UpdateStandaloneContainer client id {| runtime := s1; trace := trace w |}).
Proof.
  intros Hid Hlist Hmembers Hc.
  rewrite (HandleUpdate_listed client CombinedOutput now id w containers s1 Hid Hlist).
  by rewrite Hmembers, Hc.
Qed.

Lemma HandleUpdate_standalone_witness :
  let client := MockClient.client Sample.updating in
  "container1" ≠ EmptyString
  ∧ ListContainers client (runtime Fixture.fresh) = (Ok [Sample.nginx], tt)
  ∧ projectMembers "container1" [Sample.nginx] = []
  ∧ standaloneWith "container1" [Sample.nginx] = Some Sample.nginx
  ∧ @HandleUpdate listingOrder _ client Fixture.downFails 0%Z "container1" Fixture.fresh
    = updateResponse 0%Z "nginx"
        (@UpdateStandaloneContainer listingOrder _ client "container1" Fixture.fresh).
Proof.
  cbv zeta. split; [done|]. split; [reflexivity|]. split; [reflexivity|].
  split; [reflexivity|].
  refine (@HandleUpdate_standalone listingOrder unit (MockClient.client Sample.updating)
            Fixture.downFails 0%Z "container1" Fixture.fresh [Sample.nginx] tt
            Sample.nginx _ eq_refl eq_refl eq_refl).
  done.
Defined.

(** X14: [HandleUpdate] answers 400 exactly when the id is empty, and 404
    exactly when the listing succeeds and gives rise to no unit with that
    identifier: neither a project of that name nor a container without
    project with that identifier.  When the listing fails it answers 500.
    In these three cases the response tells of a failure, and no container
    was inspected, pulled, stopped, removed, created or started, and no
    command run. *)
Theorem HandleUpdate_refuses `{GoRange} {S : Type} (client : DockerClient S)
    (CombinedOutput : Launcher S) (now : Time) (id : string) (w : World S) :
  let r := HandleUpdate client CombinedOutput now id w in
  let listingFails := ∃ cause s1, ListContainers client (runtime w) = (Err cause, s1) in
  (StatusCode r.1 = http.StatusBadRequest ↔ id = EmptyString)
  ∧ (StatusCode r.1 = http.StatusNotFound
     ↔ id ≠ EmptyString
       ∧ ∃ containers s1,
           ListContainers client (runtime w) = (Ok containers, s1)
           ∧ listedUnit id containers = None)
  ∧ (id ≠ EmptyString → listingFails → StatusCode r.1 = http.StatusInternalServerError)
  ∧ (StatusCode r.1 = http.StatusBadRequest ∨ StatusCode r.1 = http.StatusNotFound
     ∨ listingFails →
     trace r.2 = trace w ∧ OperationResult.Success (Body r.1) = false).
Proof.
  intros r listingFails. subst r listingFails.
  destruct (decide (id = EmptyString)) as [->|Hid].
  { unfold HandleUpdate. rewrite bool_decide_eq_true_2 by done. cbn.
    split; [done|]. split; [|done]. split; [done|]. by intros [? _]. }
  destruct (ListContainers client (runtime w)) as [[containers|cause] s1] eqn:Hlist.
  - rewrite (HandleUpdate_listed client CombinedOutput now id w containers s1 Hid Hlist).
    assert (∀ name (run : option error * World S),
              StatusCode (updateResponse now name run).1 ≠ http.StatusBadRequest
              ∧ StatusCode (updateResponse now name run).1 ≠ http.StatusNotFound) as Hrun.
    { intros name [[err|] w2]; by cbn. }
    pose proof (listedUnit_None id containers) as Hnone.
    destruct (projectMembers id containers) as [|c members] eqn:Hmembers;
      [destruct (standaloneWith id containers) as [c|] eqn:Hc|].
    + destruct (Hrun (getContainerName (types.Container.Names c))
                  (UpdateStandaloneContainer client id {| runtime := s1; trace := trace w |}))
        as [H400 H404].
      split; [done|]. split; [|split].
      * split; [done|]. intros (_ & containers' & s1' & [= <- <-] & Hunit).
        apply Hnone in Hunit as [_ ?]. congruence.
      * by intros _ (? & ? & ?).
      * by intros [?|[?|(? & ? & ?)]].
    + cbn. split; [done|]. split; [|split].
      * split; [|done]. intros _. split; [done|]. exists containers, s1.
        split; [done|]. by apply Hnone.
      * by intros _ (? & ? & ?).
      * done.
    + destruct (Hrun id
                  (UpdateComposeProject client CombinedOutput id
                     (index (types.Container.Labels c)
                        "com.docker.compose.project.working_dir")
                     (types.Container.Image <$> c :: members)
                     {| runtime := s1; trace := trace w |})) as [H400 H404].
      split; [done|]. split; [|split].
      * split; [done|]. intros (_ & containers' & s1' & [= <- <-] & Hunit).
        apply Hnone in Hunit as [? _]. congruence.
      * by intros _ (? & ? & ?).
      * by intros [?|[?|(? & ? & ?)]].
  - unfold HandleUpdate, GetContainerGroups.
    rewrite bool_decide_eq_false_2, Hlist by done. cbn.
    split; [done|]. split; [|done]. split; [done|]. by intros (_ & ? & ? & ? & _).
Qed.

(** X15: the update of a compose project whose first listed container has no
    working-directory label fails before anything is pulled or run, even
    when later containers of the project carry the label: the answer is 500,
    with one of the prepared messages as its error. *)
Theorem HandleUpdate_missing_working_directory `{GoRange} {S : Type}
    (client : DockerClient S) (CombinedOutput : Launcher S) (now : Time) (id : string)
    (w : World S) (containers : list types.Container.t) (s1 : S) (c : types.Container.t)
    (members : list types.Container.t) :
  ListContainers client (runtime w) = (Ok containers, s1) →
  projectMembers id containers = c :: members →
  index (types.Container.Labels c) "com.docker.compose.project.working_dir" = EmptyString →
  let r := HandleUpdate client CombinedOutput now id w in
  StatusCode r.1 = http.StatusInternalServerError
  ∧ r.2 = {| runtime := s1; trace := trace w |}
  ∧ OperationResult.Success (Body r.1) = false
  ∧ OperationResult.Error (Body r.1) ∈ userMessages
  ∧ OperationResult.Message (Body r.1) = "Failed to update " +:+ id.
Proof.
  intros Hlist Hmembers Hdir r. subst r.
  assert (id ≠ EmptyString) as Hid.
  { apply (projectOf_nonempty c).
    assert (c ∈ projectMembers id containers) as Hc by (rewrite Hmembers; left).
    apply list_elem_of_filter in Hc. by destruct Hc. }
  rewrite (HandleUpdate_listed client CombinedOutput now id w containers s1 Hid Hlist).
  rewrite Hmembers, Hdir. unfold UpdateComposeProject.
  rewrite bool_decide_eq_true_2 by done. cbn. repeat split.
  apply formatErrorMessage_user. right. left.
  by apply (Contains_app "working directory"
              "working directory is required for compose project " id).
Qed.

Lemma HandleUpdate_missing_working_directory_witness :
  let client := MockClient.client Sample.workerFirst in
  let r := @HandleUpdate listingOrder _ client Fixture.downFails 0%Z "app" Fixture.fresh in
  ListContainers client (runtime Fixture.fresh) = (Ok [Sample.worker; Fixture.web], tt)
  ∧ projectMembers "app" [Sample.worker; Fixture.web] = [Sample.worker; Fixture.web]
  ∧ index (types.Container.Labels Sample.worker) "com.docker.compose.project.working_dir"
    = EmptyString
  ∧ StatusCode r.1 = http.StatusInternalServerError
  ∧ r.2 = Fixture.fresh
  ∧ OperationResult.Success (Body r.1) = false
  ∧ OperationResult.Error (Body r.1) ∈ userMessages
  ∧ OperationResult.Message (Body r.1) = "Failed to update app".
Proof.
  cbv zeta. split; [reflexivity|]. split; [reflexivity|]. split; [reflexivity|].
  exact (@HandleUpdate_missing_working_directory listingOrder unit
           (MockClient.client Sample.workerFirst) Fixture.downFails 0%Z "app" Fixture.fresh
           [Sample.worker; Fixture.web] tt Sample.worker [Fixture.web]
           eq_refl eq_refl eq_refl).
Defined.

(** ** The lifecycle handlers *)

(** X16: a start, stop or restart request without id is answered 400 and
    calls nothing.  With an id, the container is inspected for its name and
    the operation is then called once, on the id, whether or not the
    inspection succeeded; the answer is 200 when the operation returns no
    error, else 500 with the formatted error, under the inspected name
    without its leading slash, or under the id when the inspection failed. *)
Theorem handleLifecycleOperation_outcome {S : Type} (client : DockerClient S) (now : Time)
    (id operation : string) (operationFunc : string → S → option error * S) (s : S) :
  let r := handleLifecycleOperation client now id operation operationFunc s in
  (id = EmptyString → r.2 = s ∧ StatusCode r.1 = http.StatusBadRequest)
  ∧ (id ≠ EmptyString →
     let inspected := InspectContainer client id s in
     let called := operationFunc id inspected.2 in
     let containerName :=
       match inspected.1 with
       | Ok containerJSON => strings.TrimPrefix (types.ContainerJSON.Name containerJSON) "/"
       | Err _ => id
       end in
     r.2 = called.2
     ∧ match called.1 with
       | None =>
           StatusCode r.1 = http.StatusOK
           ∧ OperationResult.Success (Body r.1) = true
           ∧ OperationResult.Message (Body r.1)
             = "Container " +:+ containerName +:+ " " +:+ operation +:+ "ed successfully"
       | Some err =>
           StatusCode r.1 = http.StatusInternalServerError
           ∧ OperationResult.Success (Body r.1) = false
           ∧ OperationResult.Error (Body r.1) = formatErrorMessage err
           ∧ OperationResult.Message (Body r.1)
             = "Failed to " +:+ operation +:+ " " +:+ containerName
       end).
Proof.
  intros r. subst r. unfold handleLifecycleOperation. split.
  - intros ->. by rewrite bool_decide_eq_true_2.
  - intros Hid. rewrite bool_decide_eq_false_2 by done. cbn zeta.
    destruct (InspectContainer client id s) as [inspected s1]. cbn [fst snd].
    destruct (operationFunc id s1) as [[err|] s2]; by cbn.
Qed.

(** ** The pages *)

Lemma findGroup_sameUnit (id : string) (gs gs' : list ContainerGroup.t) :
  Forall2 sameUnit gs gs' → option_Forall2 sameUnit (findGroup id gs) (findGroup id gs').
Proof.
  induction 1 as [|g g' gs gs' Hg Hgs IH]; [constructor|]. cbn.
  destruct Hg as (Hid & Hrest). rewrite <- Hid. case_bool_decide; [|done].
  constructor. by split.
Qed.

Lemma sameUnit_members (gs gs' : list ContainerGroup.t) :
  Forall2 sameUnit gs gs' →
  ContainerInfo.ID <$> (gs' ≫= ContainerGroup.Containers)
  = ContainerInfo.ID <$> (gs ≫= ContainerGroup.Containers).
Proof.
  induction 1 as [|g g' gs gs' (_ & _ & _ & _ & Hcs) _ IH]; [done|].
  cbn. rewrite !fmap_app, IH. f_equal. clear IH.
  induction Hcs as [|c c' cs cs' (Hid & _) _ IH]; [done|]. cbn. by rewrite Hid, IH.
Qed.

Lemma GetContainerGroups_members `{GoRange} {S : Type} (client : DockerClient S) (s s' : S)
    (containers : list types.Container.t) (groups : list ContainerGroup.t) :
  ListContainers client s = (Ok containers, s') →
  GetContainerGroups client s = (Ok groups, s') →
  groups ≫= ContainerGroup.Containers ≡ₚ containerInfoOf <$> containers.
Proof.
  intros Hlist. unfold GetContainerGroups. rewrite Hlist.
  pose proof (groupContainers_grouped containers) as [Hmem _ _ _ _].
  destruct (groupContainers containers) as [m st]. intros [= <-].
  rewrite bind_app, setAllRunning_members, range_order_perm. apply Hmem.
Qed.

(** X17: the detail page of a request without [check_updates=true] is made
    from the listing alone: no image is pulled and no digest asked for (the
    runtime is left as the listing left it), the group shown is the unit the
    listing gives rise to, it never tells of an update, and the page is told
    to check for updates itself.  The answer is 404 exactly when the listing
    has neither a project of that name nor a container without project with
    that identifier. *)
Theorem DetailHandler_without_check `{GoRange} {S : Type} (client : DockerClient S)
    (schedule : list Check.addr) (id checkUpdates : string) (s s1 : S)
    (containers : list types.Container.t) :
  id ≠ EmptyString → checkUpdates ≠ "true" →
  ListContainers client s = (Ok containers, s1) →
  ∃ reply,
    DetailHandler.ServeHTTP client schedule id checkUpdates s = Some (reply, s1)
    ∧ match reply with
      | HttpError message code =>
          code = http.StatusNotFound ∧ listedUnit id containers = None
      | ExecuteTemplate name data =>
          name = "detail.html"
          ∧ data !! "CheckUpdates" = Some (BoolValue true)
          ∧ ∃ g, listedUnit id containers = Some g
                 ∧ data !! "Group" = Some (GroupValue g)
                 ∧ data !! "Title"
                   = Some (StringValue ("BleedingEdge - " +:+ ContainerGroup.Name g))
                 ∧ ContainerGroup.HasUpdates g = false
                 ∧ ∀ c, c ∈ ContainerGroup.Containers g → ContainerInfo.HasUpdate c = false
      end.
Proof.
  intros Hid Hcheck Hlist. unfold DetailHandler.ServeHTTP.
  rewrite bool_decide_eq_false_2 by done.
  destruct (GetContainerGroups_units client _ _ _ Hlist) as (projects & _ & _ & Hgroups).
  pose proof (findGroup_listing client _ _ _ _ id Hlist Hgroups) as Hfind.
  rewrite Hgroups. rewrite (bool_decide_eq_false_2 (checkUpdates = "true")) by done.
  rewrite Hfind. destruct (listedUnit id containers) as [g|] eqn:Hunit.
  - eexists. split; [done|]. split; [done|].
    split; [by rewrite bool_decide_eq_true_2|].
    exists g. split; [done|]. split; [done|]. split; [done|].
    unfold listedUnit in Hunit.
    destruct (projectMembers id containers) as [|c members].
    + destruct (standaloneWith id containers) as [c|]; [|done]. injection Hunit as <-.
      split; [done|]. by intros c' ->%list_elem_of_singleton.
    + injection Hunit as <-. split; [done|].
      cbn [setAllRunning composeGroupOf ContainerGroup.Containers].
      by intros c' (c0 & -> & _)%list_elem_of_fmap.
  - eexists. by split.
Qed.

Lemma DetailHandler_without_check_witness :
  let client := MockClient.client (Sample.pages [Sample.nginx]) in
  "container1" ≠ EmptyString ∧ EmptyString ≠ "true"
  ∧ ListContainers client tt = (Ok [Sample.nginx], tt)
  ∧ ∃ reply,
      @DetailHandler.ServeHTTP listingOrder _ client [] "container1" EmptyString tt
        = Some (reply, tt)
      ∧ match reply with
        | HttpError message code =>
            code = http.StatusNotFound ∧ listedUnit "container1" [Sample.nginx] = None
        | ExecuteTemplate name data =>
            name = "detail.html"
            ∧ data !! "CheckUpdates" = Some (BoolValue true)
            ∧ ∃ g, listedUnit "container1" [Sample.nginx] = Some g
                   ∧ data !! "Group" = Some (GroupValue g)
                   ∧ data !! "Title"
                     = Some (StringValue ("BleedingEdge - " +:+ ContainerGroup.Name g))
                   ∧ ContainerGroup.HasUpdates g = false
                   ∧ ∀ c, c ∈ ContainerGroup.Containers g →
                       ContainerInfo.HasUpdate c = false
        end.
Proof.
  cbv zeta.
  assert ("container1" ≠ EmptyString) as Hid by done.
  assert (EmptyString ≠ "true") as Hcheck by done.
  split; [exact Hid|]. split; [exact Hcheck|]. split; [reflexivity|].
  exact (@DetailHandler_without_check listingOrder unit
           (MockClient.client (Sample.pages [Sample.nginx])) [] "container1" EmptyString
           tt tt [Sample.nginx] Hid Hcheck eq_refl).
Defined.

(** X18: the detail page of a request with [check_updates=true] shows the
    unit that the listing gives rise to, with its identifier, name, type,
    working directory and members, after the update check: its update flag
    is set exactly when the flag of one of its members is, and the page is
    told not to check again.  The answer is 404 in the same case as without
    the check. *)
Theorem DetailHandler_with_check `{GoRange} {S : Type} (client : DockerClient S)
    (schedule : list Check.addr) (id : string) (s s1 s' : S)
    (containers : list types.Container.t) (reply : Reply) :
  id ≠ EmptyString →
  ListContainers client s = (Ok containers, s1) →
  DetailHandler.ServeHTTP client schedule id "true" s = Some (reply, s') →
  match reply with
  | HttpError message code =>
      code = http.StatusNotFound ∧ listedUnit id containers = None
  | ExecuteTemplate name data =>
      name = "detail.html"
      ∧ data !! "CheckUpdates" = Some (BoolValue false)
      ∧ ∃ g0 g, listedUnit id containers = Some g0
                ∧ sameUnit g0 g
                ∧ data !! "Group" = Some (GroupValue g)
                ∧ (ContainerGroup.HasUpdates g = true
                   ↔ ∃ c, c ∈ ContainerGroup.Containers g ∧ ContainerInfo.HasUpdate c = true)
  end.
Proof.
  intros Hid Hlist. unfold DetailHandler.ServeHTTP.
  rewrite bool_decide_eq_false_2 by done.
  destruct (GetContainerGroups_units client _ _ _ Hlist) as (projects & _ & _ & Hgroups).
  pose proof (findGroup_listing client _ _ _ _ id Hlist Hgroups) as Hfind.
  rewrite Hgroups. rewrite bool_decide_eq_true_2 by done.
  destruct (CheckUpdates schedule client s1 _) as [[[err groups'] s2]|] eqn:Hcheck; [|done].
  pose proof (findGroup_sameUnit id _ _ (CheckUpdates_sameUnit client _ _ _ _ _ _ Hcheck))
    as Hsame.
  rewrite Hfind in Hsame.
  destruct (findGroup id groups') as [g|] eqn:Hg; intros [= <- <-].
  - inversion Hsame as [g0 g' Hunit Hl Hr|]; subst. split; [done|]. split; [done|].
    exists g0, g. split; [done|]. split; [done|]. split; [done|].
    apply findGroup_Some in Hg as [Hg _].
    destruct (CheckUpdates_outcome client _ _ _ _ _ _ Hcheck) as (_ & -> & _).
    apply list_elem_of_fmap in Hg as (g1 & -> & _). cbn. rewrite anyUpdate_existsb.
    rewrite existsb_exists. split; intros (c & Hc & Hu); exists c;
      (split; [by apply list_elem_of_In|done]).
  - inversion Hsame. by split.
Qed.

Lemma DetailHandler_with_check_witness :
  let client := MockClient.client (Sample.pages [Sample.nginx]) in
  let schedule := sequential [standaloneGroupOf Sample.nginx] in
  "container1" ≠ EmptyString
  ∧ ListContainers client tt = (Ok [Sample.nginx], tt)
  ∧ ∃ reply,
      @DetailHandler.ServeHTTP listingOrder _ client schedule "container1" "true" tt
        = Some (reply, tt)
      ∧ match reply with
        | HttpError message code =>
            code = http.StatusNotFound ∧ listedUnit "container1" [Sample.nginx] = None
        | ExecuteTemplate name data =>
            name = "detail.html"
            ∧ data !! "CheckUpdates" = Some (BoolValue false)
            ∧ ∃ g0 g, listedUnit "container1" [Sample.nginx] = Some g0
                      ∧ sameUnit g0 g
                      ∧ data !! "Group" = Some (GroupValue g)
                      ∧ (ContainerGroup.HasUpdates g = true
                         ↔ ∃ c, c ∈ ContainerGroup.Containers g
                                ∧ ContainerInfo.HasUpdate c = true)
        end.
Proof.
  cbv zeta.
  assert ("container1" ≠ EmptyString) as Hid by done.
  split; [exact Hid|]. split; [reflexivity|].
  set (served := @DetailHandler.ServeHTTP listingOrder _
                   (MockClient.client (Sample.pages [Sample.nginx]))
                   (sequential [standaloneGroupOf Sample.nginx]) "container1" "true" tt).
  assert (served = Some (from_option fst (HttpError EmptyString 0) served, tt)) as Hserved.
  { vm_compute. reflexivity. }
  exists (from_option fst (HttpError EmptyString 0) served). split; [exact Hserved|].
  exact (@DetailHandler_with_check listingOrder unit
           (MockClient.client (Sample.pages [Sample.nginx]))
           (sequential [standaloneGroupOf Sample.nginx]) "container1" tt tt tt
           [Sample.nginx] _ Hid eq_refl Hserved).
Defined.

(** X19: the home page answers 500 when the listing fails, without checking
    for updates.  Otherwise it shows the groups after the update check:
    their members are the listed containers, each once, the update flag of a
    group is set exactly when the flag of one of its members is, and its
    running flag exactly when it has members and all of them are running. *)
Theorem HomeHandler_shows_listing `{GoRange} {S : Type} (client : DockerClient S)
    (schedule : list Check.addr) (s s' : S) (reply : Reply) :
  HomeHandler.ServeHTTP client schedule s = Some (reply, s') →
  match ListContainers client s with
  | (Err _, s1) =>
      reply = HttpError "Failed to load containers. Please check Docker daemon connection."
                http.StatusInternalServerError
      ∧ s' = s1
  | (Ok containers, _) =>
      ∃ groups,
        reply = ExecuteTemplate "grid.html"
                  (<["Groups" := GroupsValue groups]>
                     (<["Title" := StringValue "BleedingEdge - Container Manager"]> ∅))
        ∧ ContainerInfo.ID <$> (groups ≫= ContainerGroup.Containers)
          ≡ₚ types.Container.ID <$> containers
        ∧ ∀ g, g ∈ groups →
            (ContainerGroup.HasUpdates g = true
             ↔ ∃ c, c ∈ ContainerGroup.Containers g ∧ ContainerInfo.HasUpdate c = true)
            ∧ (ContainerGroup.AllRunning g = true
               ↔ ContainerGroup.Containers g ≠ []
                 ∧ ∀ c, c ∈ ContainerGroup.Containers g → ContainerInfo.State c = "running")
  end.
Proof.
  unfold HomeHandler.ServeHTTP.
  destruct (ListContainers client s) as [[containers|cause] s1] eqn:Hlist.
  - destruct (GetContainerGroups_units client _ _ _ Hlist) as (projects & _ & _ & Hgroups).
    pose proof (GetContainerGroups_members client _ _ _ _ Hlist Hgroups) as Hmembers.
    rewrite Hgroups.
    destruct (CheckUpdates schedule client s1 _) as [[[err groups'] s2]|] eqn:Hcheck; [|done].
    intros [= <- <-]. exists groups'. split; [done|]. split.
    + rewrite (sameUnit_members _ _ (CheckUpdates_sameUnit client _ _ _ _ _ _ Hcheck)).
      rewrite Hmembers, <- list_fmap_compose. done.
    + intros g Hg.
      destruct (CheckUpdates_outcome client _ _ _ _ _ _ Hcheck) as (_ & -> & _).
      apply list_elem_of_fmap in Hg as (g1 & -> & _). cbn.
      rewrite anyUpdate_existsb, areAllContainersRunning_spec. split; [|done].
      rewrite existsb_exists. split; intros (c & Hc & Hu); exists c;
        (split; [by apply list_elem_of_In|done]).
  - unfold GetContainerGroups. rewrite Hlist. by intros [= <- <-].
Qed.

Lemma HomeHandler_shows_listing_witness :
  let client := MockClient.client (Sample.pages [Sample.nginx]) in
  let schedule := sequential [standaloneGroupOf Sample.nginx] in
  ∃ reply,
    @HomeHandler.ServeHTTP listingOrder _ client schedule tt = Some (reply, tt)
    ∧ ∃ groups,
        reply = ExecuteTemplate "grid.html"
                  (<["Groups" := GroupsValue groups]>
                     (<["Title" := StringValue "BleedingEdge - Container Manager"]> ∅))
        ∧ ContainerInfo.ID <$> (groups ≫= ContainerGroup.Containers)
          ≡ₚ types.Container.ID <$> [Sample.nginx]
        ∧ ∀ g, g ∈ groups →
            (ContainerGroup.HasUpdates g = true
             ↔ ∃ c, c ∈ ContainerGroup.Containers g ∧ ContainerInfo.HasUpdate c = true)
            ∧ (ContainerGroup.AllRunning g = true
               ↔ ContainerGroup.Containers g ≠ []
                 ∧ ∀ c, c ∈ ContainerGroup.Containers g →
                     ContainerInfo.State c = "running").
Proof.
  cbv zeta.
  set (served := @HomeHandler.ServeHTTP listingOrder _
                   (MockClient.client (Sample.pages [Sample.nginx]))
                   (sequential [standaloneGroupOf Sample.nginx]) tt).
  assert (served = Some (from_option fst (HttpError EmptyString 0) served, tt)) as Hserved.
  { vm_compute. reflexivity. }
  exists (from_option fst (HttpError EmptyString 0) served). split; [exact Hserved|].
  exact (@HomeHandler_shows_listing listingOrder unit
           (MockClient.client (Sample.pages [Sample.nginx]))
           (sequential [standaloneGroupOf Sample.nginx]) tt tt _ Hserved).
Defined.

(** ** The tests of the handlers *)

(** TestFormatErrorMessage. *)
Example formatErrorMessage_table :
  formatErrorMessage "No such container: abc123"
    = "Container not found. It may have been removed."
  ∧ formatErrorMessage "operation already in progress"
    = "Operation already in progress. Please wait."
  ∧ formatErrorMessage "context deadline exceeded"
    = "Operation timed out. The container may be unresponsive."
  ∧ formatErrorMessage "some unknown error" = "some unknown error".
Proof. by vm_compute. Qed.

(** TestOperationsHandlerStart, "successful start". *)
Example HandleStart_successful_start :
  let r := HandleStart (MockClient.client Sample.starting) 0%Z "container1" tt in
  StatusCode r.1 = http.StatusOK
  ∧ OperationResult.Success (Body r.1) = true
  ∧ OperationResult.Message (Body r.1) = "Container test-container started successfully".
Proof. by vm_compute. Qed.

(** TestOperationsHandlerUpdate, "successful standalone update". *)
Example HandleUpdate_successful_standalone_update :
  let r := @HandleUpdate listingOrder _ (MockClient.client Sample.updating)
             Fixture.downFails 0%Z "container1" Fixture.fresh in
  StatusCode r.1 = http.StatusOK
  ∧ OperationResult.Success (Body r.1) = true
  ∧ OperationResult.Message (Body r.1) = "nginx updated successfully"
  ∧ stepOf <$> trace r.2 = updateSteps.
Proof. by vm_compute. Qed.

(** TestDetailHandler, "container found" and "container not found". *)
Example DetailHandler_container_found :
  ∃ data,
    @DetailHandler.ServeHTTP listingOrder _
      (MockClient.client (Sample.pages [Sample.nginx])) [] "container1" EmptyString tt
    = Some (ExecuteTemplate "detail.html" data, tt)
    ∧ data !! "Title" = Some (StringValue "BleedingEdge - nginx").
Proof. eexists. split; [vm_compute; reflexivity|]. by vm_compute. Qed.

Example DetailHandler_container_not_found :
  @DetailHandler.ServeHTTP listingOrder _
    (MockClient.client (Sample.pages [])) [] "nonexistent" EmptyString tt
  = Some (HttpError "Container not found. It may have been removed." http.StatusNotFound, tt).
Proof. by vm_compute. Qed.

(** TestHomeHandler, with one container and with none. *)
Example HomeHandler_successful_render :
  (∃ data,
     @HomeHandler.ServeHTTP listingOrder _
       (MockClient.client (Sample.pages [Sample.nginx]))
       (sequential [standaloneGroupOf Sample.nginx]) tt
     = Some (ExecuteTemplate "grid.html" data, tt)
     ∧ data !! "Title" = Some (StringValue "BleedingEdge - Container Manager"))
  ∧ ∃ data,
      @HomeHandler.ServeHTTP listingOrder _ (MockClient.client (Sample.pages [])) [] tt
      = Some (ExecuteTemplate "grid.html" data, tt)
      ∧ data !! "Groups" = Some (GroupsValue []).
Proof.
  split; eexists; (split; [vm_compute; reflexivity|]); by vm_compute.
Qed.
